(** * Binlog / Avro comparator: a shallow embedding and its properties

    The development follows the two Go programs of the repository:

    - the event normalizer ([json_parser.go]), which turns the textual dump
      of binlog events into one JSON object per event, and
    - the comparator ([loadBinlogData] and [compareAvroWithBinlog]), which
      indexes the normalized events by (file, position) and joins the Avro
      export against that index.

    Go values are modelled as follows: [string] is a byte string (Rocq
    [string]), [int64] and [int] are [Z] (with the wrap-around written out
    where the code does arithmetic on them), structs are records, Go maps
    are [gmap]s, and the two output channels are lists of structured
    messages.  The parts of the Go standard library the programs rely on
    ([strings], [time], [strconv]) are modelled in their own modules. *)

From Stdlib Require Import ZArith String Ascii Lia List Bool.
From Stdlib Require DecimalString.
From stdpp Require Import gmap strings list fin_maps.

Local Open Scope string_scope.
Local Open Scope list_scope.
Local Open Scope Z_scope.

(** ** Machine integers *)

Definition int64_min : Z := - 2 ^ 63.
Definition int64_max : Z := 2 ^ 63 - 1.

Definition in_int64 (x : Z) : Prop := int64_min <= x <= int64_max.

(** Two's complement wrap-around of a 64-bit signed integer. *)
Definition wrap64 (x : Z) : Z := (x + 2 ^ 63) mod 2 ^ 64 - 2 ^ 63.

(** [x++] on a Go [int] (64 bits on the platforms the tool targets). *)
Definition incr (x : Z) : Z := wrap64 (x + 1).

(** ** Decimal digits in byte strings *)

Definition isDigit (c : ascii) : bool :=
  let n := N_of_ascii c in ((48 <=? n) && (n <=? 57))%N.

Definition digitOf (c : ascii) : Z := Z.of_N (N_of_ascii c) - 48.

(** The leading run of digits of a string, and what follows it. *)
Fixpoint spanDigits (s : string) : list Z * string :=
  match s with
  | String c r =>
      if isDigit c then
        let '(ds, rest) := spanDigits r in (digitOf c :: ds, rest)
      else ([], s)
  | EmptyString => ([], s)
  end.

(** The number a list of decimal digits denotes. *)
Definition decimalValue (digits : list Z) : Z :=
  fold_left (fun acc d => acc * 10 + d) digits 0.

(** ** The [strings] package (byte-wise part) *)

Module strings.

Fixpoint HasPrefix (s prefix : string) : bool :=
  match prefix, s with
  | EmptyString, _ => true
  | String c p, String d r => Ascii.eqb c d && HasPrefix r p
  | String _ _, EmptyString => false
  end.

(** [len(s) >= len(suffix) && s[len(s)-len(suffix):] == suffix] *)
Definition HasSuffix (s suffix : string) : bool :=
  (String.length suffix <=? String.length s)%nat
  && String.eqb
       (substring (String.length s - String.length suffix)
                  (String.length suffix) s)
       suffix.

Definition upper_byte (c : ascii) : ascii :=
  let n := N_of_ascii c in
  if ((97 <=? n) && (n <=? 122))%N then ascii_of_N (n - 32) else c.

(** [strings.ToUpper] on ASCII text: bytes [a]..[z] are mapped to
    [A]..[Z]; every other byte is kept. *)
Fixpoint ToUpper (s : string) : string :=
  match s with
  | EmptyString => EmptyString
  | String c r => String (upper_byte c) (ToUpper r)
  end.

Definition lower_byte (c : ascii) : ascii :=
  let n := N_of_ascii c in
  if ((65 <=? n) && (n <=? 90))%N then ascii_of_N (n + 32) else c.

(** [strings.ToLower] on ASCII text. *)
Fixpoint ToLower (s : string) : string :=
  match s with
  | EmptyString => EmptyString
  | String c r => String (lower_byte c) (ToLower r)
  end.

Fixpoint Contains (s substr : string) : bool :=
  HasPrefix s substr
  || match s with
     | String _ r => Contains r substr
     | EmptyString => false
     end.

(** [strings.ReplaceAll(s, old, new)] for one-byte [old] and [new]. *)
Fixpoint ReplaceAll (s : string) (old new : ascii) : string :=
  match s with
  | EmptyString => EmptyString
  | String c r => String (if Ascii.eqb c old then new else c) (ReplaceAll r old new)
  end.

(** [strings.LastIndex(s, sep)] for a one-byte [sep]; [-1] when absent. *)
Fixpoint LastIndex (s : string) (sep : ascii) : Z :=
  match s with
  | EmptyString => -1
  | String c r =>
      let i := LastIndex r sep in
      if 0 <=? i then i + 1 else if Ascii.eqb c sep then 0 else -1
  end.

(** [strings.TrimSuffix(s, suffix)] *)
Definition TrimSuffix (s suffix : string) : string :=
  if HasSuffix s suffix then
    substring 0 (String.length s - String.length suffix) s
  else s.

(** The bytes [asciiSpace] marks: tab, line feed, vertical tab, form feed,
    carriage return and space. *)
Definition asciiSpace (c : ascii) : bool :=
  let n := N_of_ascii c in
  ((9 <=? n) && (n <=? 13) || (n =? 32))%N.

(** The two-byte UTF-8 encodings of white space: U+0085 and U+00A0. *)
Definition space2 (c d : ascii) : bool :=
  ((N_of_ascii c =? 194) && ((N_of_ascii d =? 133) || (N_of_ascii d =? 160)))%N.

(** The three-byte UTF-8 encodings of white space: U+1680, U+2000 to
    U+200A, U+2028, U+2029, U+202F, U+205F and U+3000. *)
Definition space3 (c d e : ascii) : bool :=
  let '(c, d, e) := (N_of_ascii c, N_of_ascii d, N_of_ascii e) in
  ((c =? 225) && (d =? 154) && (e =? 128)
   || (c =? 226) && (d =? 128)
      && ((128 <=? e) && (e <=? 138) || (e =? 168) || (e =? 169) || (e =? 175))
   || (c =? 226) && (d =? 129) && (e =? 159)
   || (c =? 227) && (d =? 128) && (e =? 128))%N.

(** Cut the white space at the head of a string.  With [backwards] the
    string is read from its end, so that the bytes of an encoding come in
    the opposite order. *)
Fixpoint trimHead (backwards : bool) (s : string) : string :=
  match s with
  | String c r =>
      if asciiSpace c then trimHead backwards r
      else
        match r with
        | String d r2 =>
            if (if backwards then space2 d c else space2 c d) then
              trimHead backwards r2
            else
              match r2 with
              | String e r3 =>
                  if (if backwards then space3 e d c else space3 c d e) then
                    trimHead backwards r3
                  else s
              | EmptyString => s
              end
        | EmptyString => s
        end
  | EmptyString => s
  end.

(** [strings.TrimSpace(s)]: the white space of Unicode is cut from both
    ends. *)
Definition TrimSpace (s : string) : string :=
  String.rev (trimHead true (String.rev (trimHead false s))).

End strings.

(** ** The [strconv] package *)

Module strconv.

(** [strconv.ParseInt(s, 10, 64)]: an optional sign and at least one digit,
    the value within [int64]; [None] stands for a non-nil error. *)
Definition ParseInt (s : string) : option Z :=
  let '(neg, body) :=
    match s with
    | String "+" r => (false, r)
    | String "-" r => (true, r)
    | _ => (false, s)
    end in
  match spanDigits body with
  | (d :: ds, EmptyString) =>
      let un := decimalValue (d :: ds) in
      if neg then (if un <=? 2 ^ 63 then Some (- un) else None)
      else (if un <? 2 ^ 63 then Some un else None)
  | _ => None
  end.

End strconv.

(** ** The [path/filepath] package (Unix) *)

Module filepath.

Definition isSlash (c : ascii) : bool := Ascii.eqb c "/".

Fixpoint dropSlashes (s : string) : string :=
  match s with
  | String c r => if isSlash c then dropSlashes r else s
  | EmptyString => s
  end.

Fixpoint takeElement (s : string) : string :=
  match s with
  | String c r => if isSlash c then EmptyString else String c (takeElement r)
  | EmptyString => EmptyString
  end.

(** [filepath.Base(path)]: the last element of the path, once trailing
    slashes are removed; ["."] for the empty path and ["/"] for a path of
    slashes only.  The path is read from its end. *)
Definition Base (path : string) : string :=
  if String.eqb path "" then "."
  else
    let element := String.rev (takeElement (dropSlashes (String.rev path))) in
    if String.eqb element "" then "/" else element.

End filepath.

(** ** The [time] package

    An instant is kept the way Go keeps a [Time] without monotonic clock
    reading: whole seconds since January 1 of year 1, 00:00:00 UTC, and
    nanoseconds within that second.  The location is not modelled: [Parse]
    on the layouts used here yields UTC or a fixed offset, and the
    comparator only subtracts instants.  The calendar arithmetic follows the
    cycle-based algorithms of [time.Date] and [Time.Date]; the absolute
    epoch is moved to year 1, a whole number of 400-year cycles after Go's
    absolute zero year, so the cycle arithmetic is the same (with floor
    division standing for Go's unsigned division). *)

Module time.

Record Time : Type := mkTime { sec : Z; nsec : Z }.

(** The zero value [time.Time{}]. *)
Definition zeroTime : Time := mkTime 0 0.

Definition Equal (t u : Time) : bool := (sec t =? sec u) && (nsec t =? nsec u).

Definition Before (t u : Time) : bool :=
  (sec t <? sec u) || ((sec t =? sec u) && (nsec t <? nsec u)).

(** *** Durations: [int64] nanoseconds *)

Definition minDuration : Z := - 2 ^ 63.
Definition maxDuration : Z := 2 ^ 63 - 1.
Definition Millisecond : Z := 1000000.
Definition Second : Z := 1000000000.

Definition Abs (d : Z) : Z :=
  if 0 <=? d then d
  else if d =? minDuration then maxDuration
  else - d.

Definition addSec (t : Time) (d : Z) : Time := mkTime (wrap64 (sec t + d)) (nsec t).

Definition Add (t : Time) (d : Z) : Time :=
  let dsec := Z.quot d 1000000000 in
  let ns := nsec t + Z.rem d 1000000000 in
  if 1000000000 <=? ns then addSec (mkTime (sec t) (ns - 1000000000)) (dsec + 1)
  else if ns <? 0 then addSec (mkTime (sec t) (ns + 1000000000)) (dsec - 1)
  else addSec (mkTime (sec t) ns) dsec.

(** [t.Sub(u)]: the difference computed in [int64], replaced by the
    nearest representable duration when [u.Add(d)] does not give back
    [t]. *)
Definition Sub (t u : Time) : Z :=
  let d := wrap64 (wrap64 (wrap64 (sec t - sec u) * Second) + (nsec t - nsec u)) in
  if Equal (Add u d) t then d
  else if Before t u then minDuration
  else maxDuration.

(** *** Unix time *)

Definition unixToInternal : Z := 62135596800.

Definition Unix (s ns : Z) : Time :=
  let '(s, ns) :=
    if (ns <? 0) || (1000000000 <=? ns) then
      let n := Z.quot ns 1000000000 in
      let s := wrap64 (s + n) in
      let ns := ns - n * 1000000000 in
      if ns <? 0 then (wrap64 (s - 1), ns + 1000000000) else (s, ns)
    else (s, ns) in
  mkTime (wrap64 (s + unixToInternal)) ns.

Definition UnixMilli (msec : Z) : Time :=
  Unix (Z.quot msec 1000) (Z.rem msec 1000 * 1000000).

(** *** Calendar *)

Definition secondsPerDay : Z := 86400.
Definition daysPer400Years : Z := 146097.
Definition daysPer100Years : Z := 36524.
Definition daysPer4Years : Z := 1461.

Definition isLeap (year : Z) : bool :=
  (Z.rem year 4 =? 0) && (negb (Z.rem year 100 =? 0) || (Z.rem year 400 =? 0)).

(** [daysBefore[m]]: days in a non-leap year before month [m+1]. *)
Definition daysBefore (m : Z) : Z :=
  match m with
  | 0 => 0
  | 1 => 31
  | 2 => 59
  | 3 => 90
  | 4 => 120
  | 5 => 151
  | 6 => 181
  | 7 => 212
  | 8 => 243
  | 9 => 273
  | 10 => 304
  | 11 => 334
  | _ => 365
  end.

Definition daysIn (m year : Z) : Z :=
  if (m =? 2) && isLeap year then 29
  else daysBefore m - daysBefore (m - 1).

(** Days from January 1 of year 1 to January 1 of [year]. *)
Definition daysSinceEpoch (year : Z) : Z :=
  let y := year - 1 in
  let n := y / 400 in
  let y := y - 400 * n in
  let d := daysPer400Years * n in
  let n := y / 100 in
  let y := y - 100 * n in
  let d := d + daysPer100Years * n in
  let n := y / 4 in
  let y := y - 4 * n in
  let d := d + daysPer4Years * n in
  d + 365 * y.

(** [norm(hi, lo, base)]: carry [lo] into [hi] so that [0 <= lo < base]. *)
Definition norm (hi lo base : Z) : Z * Z :=
  let '(hi, lo) :=
    if lo <? 0 then
      let n := Z.quot (- lo - 1) base + 1 in (hi - n, lo + n * base)
    else (hi, lo) in
  if base <=? lo then
    let n := Z.quot lo base in (hi + n, lo - n * base)
  else (hi, lo).

(** [time.Date(year, month, day, hour, min, sec, nsec, time.UTC)].  The
    fields [Parse] passes are a four-digit year and in-range month, day
    and clock values, far below the width of [int]. *)
Definition Date (year month day hour min sec nsec : Z) : Time :=
  let m := month - 1 in
  let '(year, m) := norm year m 12 in
  let month := m + 1 in
  let '(sec, nsec) := norm sec nsec 1000000000 in
  let '(min, sec) := norm min sec 60 in
  let '(hour, min) := norm hour min 60 in
  let '(day, hour) := norm day hour 24 in
  let d := daysSinceEpoch year in
  let d := d + daysBefore (month - 1) in
  let d := if isLeap year && (3 <=? month) then d + 1 else d in
  let d := d + (day - 1) in
  let abs := d * secondsPerDay in
  let abs := abs + (hour * 3600 + min * 60 + sec) in
  mkTime abs nsec.

(** Month and day of month from the zero-based day of the year. *)
Definition monthDay (leap : bool) (yday : Z) : Z * Z :=
  if leap && (yday =? 31 + 29 - 1) then (2, 29)
  else
    let day := if leap && (31 + 29 - 1 <? yday) then yday - 1 else yday in
    let month := day / 31 in
    let end_ := daysBefore (month + 1) in
    let '(month, begin) :=
      if end_ <=? day then (month + 1, end_) else (month, daysBefore month) in
    (month + 1, day - begin + 1).

(** Year and zero-based day of the year from days since January 1, year 1. *)
Definition yearDay (d : Z) : Z * Z :=
  let n := d / daysPer400Years in
  let y := 400 * n in
  let d := d - daysPer400Years * n in
  let n := d / daysPer100Years in
  let n := n - Z.shiftr n 2 in
  let y := y + 100 * n in
  let d := d - daysPer100Years * n in
  let n := d / daysPer4Years in
  let y := y + 4 * n in
  let d := d - daysPer4Years * n in
  let n := d / 365 in
  let n := n - Z.shiftr n 2 in
  let y := y + n in
  let d := d - 365 * n in
  (y + 1, d).

(** [absDate]: (year, month, day) of a day count. *)
Definition absDate (days : Z) : Z * Z * Z :=
  let '(year, yday) := yearDay days in
  let '(month, day) := monthDay (isLeap year) yday in
  (year, month, day).

(** [t.Date()] for a time in UTC. *)
Definition date (t : Time) : Z * Z * Z := absDate (sec t / secondsPerDay).

(** [t.Clock()] for a time in UTC. *)
Definition clock (t : Time) : Z * Z * Z :=
  let s := sec t mod secondsPerDay in
  let hour := s / 3600 in
  let s := s - hour * 3600 in
  let min := s / 60 in
  let s := s - min * 60 in
  (hour, min, s).

(** *** Formatting *)

Definition digitChar (d : Z) : ascii := ascii_of_N (Z.to_N (48 + d)).

(** Decimal digits of a non-negative number, as the general path of
    [appendInt] produces them. *)
Definition decimal (u : Z) : string :=
  DecimalString.NilZero.string_of_uint (N.to_uint (Z.to_N u)).

Fixpoint zeros (n : nat) : string :=
  match n with
  | O => ""
  | S n => String "0" (zeros n)
  end.

(** [appendInt(b, x, width)]: [x] in decimal, zero-padded to [width]. *)
Definition appendInt (x : Z) (width : Z) : string :=
  let sign := if x <? 0 then "-" else "" in
  let u := Z.abs x in
  if (width =? 2) && (u <? 100) then
    sign +:+ String (digitChar (u / 10)) (String (digitChar (u mod 10)) "")
  else if (width =? 4) && (u <? 10000) then
    sign +:+ String (digitChar (u / 100 / 10))
               (String (digitChar (u / 100 mod 10))
                  (String (digitChar (u mod 100 / 10))
                     (String (digitChar (u mod 100 mod 10)) "")))
  else
    let ds := decimal u in
    sign +:+ zeros (Z.to_nat width - String.length ds) +:+ ds.

(** [t.Format(time.RFC3339)] for a time in UTC. *)
Definition Format_RFC3339 (t : Time) : string :=
  let '(year, month, day) := date t in
  let '(hour, min, s) := clock t in
  appendInt year 4 +:+ "-" +:+ appendInt month 2 +:+ "-" +:+ appendInt day 2
  +:+ "T" +:+ appendInt hour 2 +:+ ":" +:+ appendInt min 2 +:+ ":"
  +:+ appendInt s 2 +:+ "Z".

(** *** Parsing

    A layout is kept as the sequence of chunks that [nextStdChunk] cuts it
    into: literal text and standard elements. *)

Inductive chunk : Type :=
| Lit (text : string)
| stdLongYear        (* 2006 *)
| stdZeroMonth       (* 01 *)
| stdZeroDay         (* 02 *)
| stdHour            (* 15 *)
| stdZeroMinute      (* 04 *)
| stdZeroSecond      (* 05 *)
| stdFracSecond9     (* .999999999 *)
| stdISO8601ColonTZ. (* Z07:00 *)

(** ["2006-01-02 15:04:05"], the layout of the [Date] field. *)
Definition DateTime : list chunk :=
  [stdLongYear; Lit "-"; stdZeroMonth; Lit "-"; stdZeroDay; Lit " ";
   stdHour; Lit ":"; stdZeroMinute; Lit ":"; stdZeroSecond].

(** ["2006-01-02T15:04:05Z07:00"] *)
Definition RFC3339 : list chunk :=
  [stdLongYear; Lit "-"; stdZeroMonth; Lit "-"; stdZeroDay; Lit "T";
   stdHour; Lit ":"; stdZeroMinute; Lit ":"; stdZeroSecond;
   stdISO8601ColonTZ].

(** ["2006-01-02T15:04:05.999999999Z07:00"] *)
Definition RFC3339Nano : list chunk :=
  [stdLongYear; Lit "-"; stdZeroMonth; Lit "-"; stdZeroDay; Lit "T";
   stdHour; Lit ":"; stdZeroMinute; Lit ":"; stdZeroSecond;
   stdFracSecond9; stdISO8601ColonTZ].

Definition isSpace (c : ascii) : bool := Ascii.eqb c " ".

Definition commaOrPeriod (c : ascii) : bool :=
  Ascii.eqb c "." || Ascii.eqb c ",".

Fixpoint cutspace (s : string) : string :=
  match s with
  | String c r => if isSpace c then cutspace r else s
  | EmptyString => s
  end.

(** [skip(value, prefix)]: remove the literal [prefix] from [value], a run
    of spaces in the prefix standing for a run of spaces in the value.
    [inRun] records that the preceding prefix byte was a space, whose run
    has already been cut from both strings. *)
Fixpoint skip_from (inRun : bool) (value prefix : string) : option string :=
  match prefix with
  | EmptyString => Some value
  | String c p =>
      if isSpace c then
        if inRun then skip_from true value p
        else
          match value with
          | String d _ =>
              if isSpace d then skip_from true (cutspace value) p else None
          | EmptyString => skip_from true value p
          end
      else
        match value with
        | String d v => if Ascii.eqb d c then skip_from false v p else None
        | EmptyString => None
        end
  end.

Definition skip (value prefix : string) : option string :=
  skip_from false value prefix.

(** [getnum(s, fixed)]: a one- or two-digit number; two digits are
    required when [fixed]. *)
Definition getnum (s : string) (fixed : bool) : option (Z * string) :=
  match s with
  | String c0 r0 =>
      if isDigit c0 then
        match r0 with
        | String c1 r1 =>
            if isDigit c1 then Some (digitOf c0 * 10 + digitOf c1, r1)
            else if fixed then None else Some (digitOf c0, r0)
        | EmptyString => if fixed then None else Some (digitOf c0, r0)
        end
      else None
  | EmptyString => None
  end.

(** The [stdLongYear] case: exactly four digits. *)
Definition getLongYear (value : string) : option (Z * string) :=
  match value with
  | String a (String b (String c (String d rest))) =>
      if isDigit a && isDigit b && isDigit c && isDigit d then
        Some (((digitOf a * 10 + digitOf b) * 10 + digitOf c) * 10 + digitOf d,
              rest)
      else None
  | _ => None
  end.

(** [parseNanoseconds]: at most nine fractional digits count, scaled to
    nanoseconds. *)
Definition parseNanoseconds (digits : list Z) : Z :=
  let ds := firstn 9 digits in
  decimalValue ds * 10 ^ (9 - Z.of_nat (length ds)).

(** A fractional second at the head of [value], if there is one: a comma
    or period followed by at least one digit. *)
Definition getFraction (value : string) : option (Z * string) :=
  match value with
  | String c0 (String c1 r) =>
      if commaOrPeriod c0 && isDigit c1 then
        let '(ds, rest) := spanDigits (String c1 r) in
        Some (parseNanoseconds ds, rest)
      else None
  | _ => None
  end.

(** The variables [Parse] fills in while it walks the layout. *)
Record fields : Type := mkFields {
  f_year : Z; f_month : Z; f_day : Z;
  f_hour : Z; f_min : Z; f_sec : Z; f_nsec : Z;
  f_utc : bool;        (* z == UTC *)
  f_zoneOffset : Z     (* -1 when no offset was read *)
}.

Definition noFields : fields := mkFields 0 (-1) (-1) 0 0 0 0 false (-1).

(** The next standard element of the rest of the layout. *)
Fixpoint nextStd (layout : list chunk) : option chunk :=
  match layout with
  | [] => None
  | Lit _ :: rest => nextStd rest
  | c :: _ => Some c
  end.

(** The [Z07:00] element: a [Z], or a sign, two digits, a colon and two
    digits. *)
Definition getZone (value : string) : option (bool * Z * string) :=
  match value with
  | String "Z" rest => Some (true, -1, rest)
  | String sign (String h1 (String h2 (String colon (String m1 (String m2 rest))))) =>
      if negb (Ascii.eqb colon ":") then None
      else
        match getnum (String h1 (String h2 "")) true,
              getnum (String m1 (String m2 "")) true with
        | Some (hr, _), Some (mm, _) =>
            if (24 <? hr) || (60 <? mm) then None
            else
              let off := (hr * 60 + mm) * 60 in
              if Ascii.eqb sign "+" then Some (false, off, rest)
              else if Ascii.eqb sign "-" then Some (false, - off, rest)
              else None
        | _, _ => None
        end
  | _ => None
  end.

Fixpoint parseChunks (layout : list chunk) (value : string) (f : fields)
  : option fields :=
  match layout with
  | [] => match value with EmptyString => Some f | _ => None end
  | c :: rest =>
      match c with
      | Lit p =>
          match skip value p with
          | Some value => parseChunks rest value f
          | None => None
          end
      | stdLongYear =>
          match getLongYear value with
          | Some (y, value) =>
              parseChunks rest value
                (mkFields y (f_month f) (f_day f) (f_hour f) (f_min f)
                   (f_sec f) (f_nsec f) (f_utc f) (f_zoneOffset f))
          | None => None
          end
      | stdZeroMonth =>
          match getnum value true with
          | Some (m, value) =>
              if (m <=? 0) || (12 <? m) then None
              else
                parseChunks rest value
                  (mkFields (f_year f) m (f_day f) (f_hour f) (f_min f)
                     (f_sec f) (f_nsec f) (f_utc f) (f_zoneOffset f))
          | None => None
          end
      | stdZeroDay =>
          match getnum value true with
          | Some (d, value) =>
              parseChunks rest value
                (mkFields (f_year f) (f_month f) d (f_hour f) (f_min f)
                   (f_sec f) (f_nsec f) (f_utc f) (f_zoneOffset f))
          | None => None
          end
      | stdHour =>
          match getnum value false with
          | Some (h, value) =>
              if (h <? 0) || (24 <=? h) then None
              else
                parseChunks rest value
                  (mkFields (f_year f) (f_month f) (f_day f) h (f_min f)
                     (f_sec f) (f_nsec f) (f_utc f) (f_zoneOffset f))
          | None => None
          end
      | stdZeroMinute =>
          match getnum value true with
          | Some (m, value) =>
              if (m <? 0) || (60 <=? m) then None
              else
                parseChunks rest value
                  (mkFields (f_year f) (f_month f) (f_day f) (f_hour f) m
                     (f_sec f) (f_nsec f) (f_utc f) (f_zoneOffset f))
          | None => None
          end
      | stdZeroSecond =>
          match getnum value true with
          | Some (s, value) =>
              if (s <? 0) || (60 <=? s) then None
              else
                let f := mkFields (f_year f) (f_month f) (f_day f) (f_hour f)
                           (f_min f) s (f_nsec f) (f_utc f) (f_zoneOffset f) in
                (* a fractional second in the input the layout does not
                   ask for is read all the same *)
                match nextStd rest, getFraction value with
                | Some stdFracSecond9, _ | _, None => parseChunks rest value f
                | _, Some (ns, value) =>
                    parseChunks rest value
                      (mkFields (f_year f) (f_month f) (f_day f) (f_hour f)
                         (f_min f) (f_sec f) ns (f_utc f) (f_zoneOffset f))
                end
          | None => None
          end
      | stdFracSecond9 =>
          match getFraction value with
          | Some (ns, value) =>
              parseChunks rest value
                (mkFields (f_year f) (f_month f) (f_day f) (f_hour f)
                   (f_min f) (f_sec f) ns (f_utc f) (f_zoneOffset f))
          | None => parseChunks rest value f
          end
      | stdISO8601ColonTZ =>
          match getZone value with
          | Some (utc, off, value) =>
              parseChunks rest value
                (mkFields (f_year f) (f_month f) (f_day f) (f_hour f)
                   (f_min f) (f_sec f) (f_nsec f)
                   (utc || f_utc f) (if utc then f_zoneOffset f else off))
          | None => None
          end
      end
  end.

(** [time.Parse(layout, value)]; [None] stands for a non-nil error. *)
Definition Parse (layout : list chunk) (value : string) : option Time :=
  match parseChunks layout value noFields with
  | None => None
  | Some f =>
      let month := if f_month f <? 0 then 1 else f_month f in
      let day := if f_day f <? 0 then 1 else f_day f in
      if (day <? 1) || (daysIn month (f_year f) <? day) then None
      else
        let t := Date (f_year f) month day (f_hour f) (f_min f) (f_sec f)
                   (f_nsec f) in
        if f_utc f then Some t
        else if negb (f_zoneOffset f =? -1) then
          Some (addSec t (- f_zoneOffset f))
        else Some t
  end.

End time.

(** ** Decoded JSON

    [json.Unmarshal] into a [map[string]interface{}] yields strings,
    booleans, [float64] numbers, slices, nested maps and nil.  The loader
    only ever re-marshals these values, so a number is kept by the shape of
    its re-marshalled literal: an integer literal, or a literal with a
    fraction or an exponent. *)

Inductive number : Type :=
| IntLit (z : Z)
| NonIntLit.

#[warnings="-register-all"] Inductive iface : Type :=
| Inil
| Ibool (b : bool)
| Ifloat64 (n : number)
| Istring (s : string)
| Islice (l : list iface)
| Imap (m : list (string * iface)).

(** Decoding one value into a [string] struct field: the current value of
    the field is kept on [null]; [None] is an [UnmarshalTypeError]. *)
Definition decodeString (v : option iface) : option string :=
  match v with
  | None | Some Inil => Some ""
  | Some (Istring s) => Some s
  | Some _ => None
  end.

(** Decoding one value into an [int64] struct field. *)
Definition decodeInt64 (v : option iface) : option Z :=
  match v with
  | None | Some Inil => Some 0
  | Some (Ifloat64 (IntLit z)) =>
      if (int64_min <=? z) && (z <=? int64_max) then Some z else None
  | Some _ => None
  end.

(** ** The comparator: data *)

Module BinlogEvent.
Record t : Type := mk {
  EventType : string;
  Timestamp : string;
  ImmediateCommmitTimestamp : string;
  LogPosition : Z;
  Table : string;
  Schema : string;
  BinlogFile : string;
  GTIDNext : string
}.
End BinlogEvent.

Module AvroString.
Record t : Type := mk { String : string }.
End AvroString.

Module AvroLong.
Record t : Type := mk { Long : Z }.
End AvroLong.

Module AvroInt.
Record t : Type := mk { Int : Z }.
End AvroInt.

Module AvroBoolean.
Record t : Type := mk { Boolean : bool }.
End AvroBoolean.

Module SourceMetadata.
Record t : Type := mk {
  Database : string;
  Table : string;
  ChangeType : AvroString.t;
  GTID : AvroString.t;
  DatastreamMasterServerUUID : AvroString.t;
  DatastreamMasterServerID : AvroLong.t;
  BinlogFile : AvroString.t;
  BinlogPosition : AvroLong.t;
  IsDeleted : AvroBoolean.t;
  PrimaryKeys : list string
}.
End SourceMetadata.

Module Payload.
Record t : Type := mk {
  OrderID : AvroInt.t;
  CustomerName : AvroString.t;
  ProductName : AvroString.t;
  Quantity : AvroInt.t;
  OrderTimestamp : AvroLong.t
}.
End Payload.

Module AvroRecord.
Record t : Type := mk {
  SourceTimestamp : Z;
  SourceMetadata : SourceMetadata.t;
  Payload : Payload.t
}.
End AvroRecord.

(** [BinlogKey{BinlogFile, BinlogPosition}], the key of both Go maps. *)
Abbreviation BinlogKey := (string * Z)%type (only parsing).

(** What the programs write to standard error. *)
Inductive diagnostic : Type :=
| WarnMalformedBinlogLine (lineNum : Z)
| WarnBinlogUnmarshal (lineNum : Z) (event : gmap string iface)
| WarnBinlogMissingKey (lineNum : Z) (event : gmap string iface)
| WarnAvroUnmarshal (lineNum : Z)
| WarnAvroMissingKey (lineNum : Z).

Inductive conclusion : Type :=
| Consistent      (* "All Avro records have matching binlog events ..." *)
| Discrepancies.  (* "WARNING - There were discrepancies found ..." *)

(** What the comparator writes to standard output. *)
Inductive finding : Type :=
| AVRO_ONLY_BINLOG_KEY (lineNum : Z) (key : BinlogKey) (db table changeType : string)
| ERROR_parse (lineNum : Z) (key : BinlogKey) (commitTs ts : string)
| MISMATCH_Timestamp (lineNum : Z) (key : BinlogKey)
    (avroTime : time.Time) (avroMs : Z) (binlogTime : time.Time) (eventType : string)
| MISMATCH_GTID (lineNum : Z) (key : BinlogKey) (avroGtid binlogGtid : string)
| MISMATCH_ChangeType (lineNum : Z) (key : BinlogKey)
    (avroChangeType eventType inferred : string)
| BINLOG_ONLY (key : BinlogKey) (eventType schema table ts : string)
| NoUnmatchedDML
| Summary (processed matched mismatched avroOnly binlogOnly : Z)
| CONCLUSION (c : conclusion).

(** ** The comparator: [loadBinlogData] *)

(** [json.Marshal(event)] followed by [json.Unmarshal] into a
    [BinlogEvent]: every field is read from the key of its tag; a value of
    the wrong type makes the call fail.  Keys are matched by their exact
    names, the only ones the normalizer writes (Go would also accept a key
    that differs from a tag in letter case only). *)
Definition decodeBinlogEvent (event : gmap string iface) : option BinlogEvent.t :=
  match decodeString (event !! "event_type"),
        decodeString (event !! "timestamp"),
        decodeString (event !! "immediate_commmit_timestamp"),
        decodeInt64 (event !! "log_position"),
        decodeString (event !! "table"),
        decodeString (event !! "schema"),
        decodeString (event !! "binlog_file"),
        decodeString (event !! "gtid_next") with
  | Some et, Some ts, Some ict, Some pos, Some tbl, Some sch, Some file, Some gtid =>
      Some (BinlogEvent.mk et ts ict pos tbl sch file gtid)
  | _, _, _, _, _, _, _, _ => None
  end.

Record loadState : Type := mkLoadState {
  ld_lineNum : Z;
  binlogEvents : gmap BinlogKey BinlogEvent.t;
  ld_stderr : list diagnostic
}.

Definition isRelevantEventType (eventType : string) : bool :=
  strings.HasSuffix eventType "RowsEventV2" || String.eqb eventType "XID".

(** One iteration of the scanner loop of [loadBinlogData].  A line is given
    by what [json.Unmarshal] makes of it: [None] when it returns an error
    (text that is not JSON, or JSON that is not an object), the decoded map
    otherwise (the nil map of a [null] line is the empty map). *)
Definition loadLine (st : loadState) (line : option (gmap string iface)) : loadState :=
  let lineNum := incr (ld_lineNum st) in
  match line with
  | None =>
      mkLoadState lineNum (binlogEvents st)
        (ld_stderr st ++ [WarnMalformedBinlogLine lineNum])
  | Some event =>
      match event !! "event_type" with
      | Some (Istring eventType) =>
          if negb (isRelevantEventType eventType) then
            mkLoadState lineNum (binlogEvents st) (ld_stderr st)
          else
            match decodeBinlogEvent event with
            | None =>
                mkLoadState lineNum (binlogEvents st)
                  (ld_stderr st ++ [WarnBinlogUnmarshal lineNum event])
            | Some binlogEvt =>
                if String.eqb (BinlogEvent.BinlogFile binlogEvt) ""
                   || (BinlogEvent.LogPosition binlogEvt =? 0) then
                  mkLoadState lineNum (binlogEvents st)
                    (ld_stderr st ++ [WarnBinlogMissingKey lineNum event])
                else
                  let key := (BinlogEvent.BinlogFile binlogEvt,
                              BinlogEvent.LogPosition binlogEvt) in
                  mkLoadState lineNum (<[key := binlogEvt]> (binlogEvents st))
                    (ld_stderr st)
            end
      | _ =>
          (* event_type missing or not a string *)
          mkLoadState lineNum (binlogEvents st) (ld_stderr st)
      end
  end.

Definition loadFrom (st : loadState) (lines : list (option (gmap string iface)))
  : loadState :=
  fold_left loadLine lines st.

(** [loadBinlogData] on a freshly started program: the global map is
    empty. *)
Definition loadBinlogData (lines : list (option (gmap string iface))) : loadState :=
  loadFrom (mkLoadState 0 ∅ []) lines.

(** ** The comparator: [compareAvroWithBinlog] *)

Record compareState : Type := mkCompareState {
  lineNum : Z;
  matches : Z;
  mismatches : Z;
  avroOnly : Z;
  binlogMatchedKeys : gmap BinlogKey bool;
  stdout : list finding;
  stderr : list diagnostic
}.

(** The timestamp of the indexed event the comparison uses; [None] stands
    for [errParseTime != nil].  When both fields are empty nothing is
    parsed and [binlogTime] keeps its zero value. *)
Definition parseBinlogTime (binlogEvt : BinlogEvent.t) : option time.Time :=
  if negb (String.eqb (BinlogEvent.ImmediateCommmitTimestamp binlogEvt) "") then
    time.Parse time.RFC3339Nano (BinlogEvent.ImmediateCommmitTimestamp binlogEvt)
  else if negb (String.eqb (BinlogEvent.Timestamp binlogEvt) "") then
    time.Parse time.RFC3339 (BinlogEvent.Timestamp binlogEvt)
  else Some time.zeroTime.

Definition tolerance : Z := 100 * time.Millisecond.

Definition timestampMismatch (avroRec : AvroRecord.t) (binlogTime : time.Time) : bool :=
  tolerance <? time.Abs (time.Sub (time.UnixMilli (AvroRecord.SourceTimestamp avroRec)) binlogTime).

Definition avroGTID (avroRec : AvroRecord.t) : string :=
  AvroString.String (SourceMetadata.GTID (AvroRecord.SourceMetadata avroRec)).

Definition avroChangeType (avroRec : AvroRecord.t) : string :=
  AvroString.String (SourceMetadata.ChangeType (AvroRecord.SourceMetadata avroRec)).

Definition gtidMismatch (avroRec : AvroRecord.t) (binlogEvt : BinlogEvent.t) : bool :=
  negb (String.eqb (avroGTID avroRec) "")
  && negb (String.eqb (BinlogEvent.GTIDNext binlogEvt) "")
  && negb (String.eqb (avroGTID avroRec) (BinlogEvent.GTIDNext binlogEvt)).

Definition inferredBinlogChangeType (eventType : string) : string :=
  if strings.HasSuffix eventType "WriteRowsEventV2"
     || strings.HasSuffix eventType "WriteRowsV1" then "INSERT"
  else if strings.HasSuffix eventType "UpdateRowsEventV2"
          || strings.HasSuffix eventType "UpdateRowsV1" then "UPDATE"
  else if strings.HasSuffix eventType "DeleteRowsV2"
          || strings.HasSuffix eventType "DeleteRowsV1" then "DELETE"
  else "".

Definition changeTypeMismatch (avroRec : AvroRecord.t) (binlogEvt : BinlogEvent.t) : bool :=
  let inferred := inferredBinlogChangeType (BinlogEvent.EventType binlogEvt) in
  negb (String.eqb (avroChangeType avroRec) "")
  && negb (String.eqb inferred "")
  && negb (String.eqb (strings.ToUpper (avroChangeType avroRec))
                      (strings.ToUpper inferred)).

(** The consistency checks on a matched pair whose indexed timestamp did not
    fail to parse: the rest of the loop body after the [errParseTime]
    test.  [n], [m] and [matched] are the line number, the match count and
    the consumed keys, already updated for this record. *)
Definition consistencyChecks (st : compareState) (n m : Z)
    (matched : gmap BinlogKey bool) (key : BinlogKey)
    (avroRec : AvroRecord.t) (binlogEvt : BinlogEvent.t) (binlogTime : time.Time)
  : compareState :=
  let avroTime := time.UnixMilli (AvroRecord.SourceTimestamp avroRec) in
  let '(mm, out) :=
    if timestampMismatch avroRec binlogTime then
      (incr (mismatches st),
       stdout st ++
         [MISMATCH_Timestamp n key avroTime
            (AvroRecord.SourceTimestamp avroRec) binlogTime
            (BinlogEvent.EventType binlogEvt)])
    else (mismatches st, stdout st) in
  let out :=
    if gtidMismatch avroRec binlogEvt then
      out ++ [MISMATCH_GTID n key (avroGTID avroRec)
                (BinlogEvent.GTIDNext binlogEvt)]
    else out in
  let out :=
    if changeTypeMismatch avroRec binlogEvt then
      out ++ [MISMATCH_ChangeType n key (avroChangeType avroRec)
                (BinlogEvent.EventType binlogEvt)
                (inferredBinlogChangeType (BinlogEvent.EventType binlogEvt))]
    else out in
  mkCompareState n m mm (avroOnly st) matched out (stderr st).

(** The join key of an Avro record, and the guard that skips records
    without one. *)
Definition keyOf (avroRec : AvroRecord.t) : BinlogKey :=
  let md := AvroRecord.SourceMetadata avroRec in
  (AvroString.String (SourceMetadata.BinlogFile md),
   AvroLong.Long (SourceMetadata.BinlogPosition md)).

Definition missingKey (avroRec : AvroRecord.t) : bool :=
  let md := AvroRecord.SourceMetadata avroRec in
  String.eqb (AvroString.String (SourceMetadata.BinlogFile md)) ""
  || (AvroLong.Long (SourceMetadata.BinlogPosition md) =? 0).

(** One iteration of the scanner loop of [compareAvroWithBinlog]; [None] is
    a line that [json.Unmarshal] rejects. *)
Definition compareLine (index : gmap BinlogKey BinlogEvent.t)
    (st : compareState) (line : option AvroRecord.t) : compareState :=
  let n := incr (lineNum st) in
  match line with
  | None =>
      mkCompareState n (matches st) (mismatches st) (avroOnly st)
        (binlogMatchedKeys st) (stdout st) (stderr st ++ [WarnAvroUnmarshal n])
  | Some avroRec =>
      let md := AvroRecord.SourceMetadata avroRec in
      if missingKey avroRec then
        mkCompareState n (matches st) (mismatches st) (avroOnly st)
          (binlogMatchedKeys st) (stdout st) (stderr st ++ [WarnAvroMissingKey n])
      else
        let key := keyOf avroRec in
        match index !! key with
        | None =>
            mkCompareState n (matches st) (mismatches st) (incr (avroOnly st))
              (binlogMatchedKeys st)
              (stdout st ++
                 [AVRO_ONLY_BINLOG_KEY n key (SourceMetadata.Database md)
                    (SourceMetadata.Table md) (avroChangeType avroRec)])
              (stderr st)
        | Some binlogEvt =>
            let matched := <[key := true]> (binlogMatchedKeys st) in
            let m := incr (matches st) in
            match parseBinlogTime binlogEvt with
            | None =>
                mkCompareState n m (incr (mismatches st)) (avroOnly st) matched
                  (stdout st ++
                     [ERROR_parse n key
                        (BinlogEvent.ImmediateCommmitTimestamp binlogEvt)
                        (BinlogEvent.Timestamp binlogEvt)])
                  (stderr st)
            | Some binlogTime =>
                consistencyChecks st n m matched key avroRec binlogEvt binlogTime
            end
        end
  end.

Definition isDML (eventType : string) : bool :=
  strings.HasSuffix eventType "WriteRowsEventV2"
  || strings.HasSuffix eventType "UpdateRowsEventV2"
  || strings.HasSuffix eventType "DeleteRowsEventV2"
  || strings.HasSuffix eventType "WriteRowsEventV1"
  || strings.HasSuffix eventType "UpdateRowsV1"
  || strings.HasSuffix eventType "DeleteRowsV1".

(** One iteration of the loop over the index that reports the events no
    Avro record was joined with. *)
Definition binlogOnlyStep (matched : gmap BinlogKey bool)
    (acc : Z * list finding) (entry : BinlogKey * BinlogEvent.t) : Z * list finding :=
  let '(binlogKey, binlogEvt) := entry in
  if negb (default false (matched !! binlogKey)) then
    if isDML (BinlogEvent.EventType binlogEvt) then
      (incr (fst acc),
       snd acc ++ [BINLOG_ONLY binlogKey (BinlogEvent.EventType binlogEvt)
                     (BinlogEvent.Schema binlogEvt) (BinlogEvent.Table binlogEvt)
                     (BinlogEvent.Timestamp binlogEvt)])
    else acc
  else acc.

Record report : Type := mkReport {
  final : compareState;
  binlogOnly : Z;
  verdict : conclusion;
  rp_stdout : list finding
}.

Definition initialState : compareState := mkCompareState 0 0 0 0 ∅ [] [].

(** The scanner loop. *)
Definition scan (index : gmap BinlogKey BinlogEvent.t) (st : compareState)
    (lines : list (option AvroRecord.t)) : compareState :=
  fold_left (compareLine index) lines st.

(** The loop over the index after the scan. *)
Definition unmatched (index : gmap BinlogKey BinlogEvent.t)
    (matched : gmap BinlogKey bool) (out : list finding) : Z * list finding :=
  fold_left (binlogOnlyStep matched) (map_to_list index) (0, out).

(** [compareAvroWithBinlog] on an input the scanner reads to its end.  Go
    iterates over a map in no particular order; the index-only findings are
    listed here in the order of [map_to_list]. *)
Definition compareAvroWithBinlog (index : gmap BinlogKey BinlogEvent.t)
    (lines : list (option AvroRecord.t)) : report :=
  let st := scan index initialState lines in
  let '(binlogOnly, out) := unmatched index (binlogMatchedKeys st) (stdout st) in
  let out := if binlogOnly =? 0 then out ++ [NoUnmatchedDML] else out in
  let out := out ++ [Summary (lineNum st) (matches st) (mismatches st)
                       (avroOnly st) binlogOnly] in
  let c := if (mismatches st =? 0) && (avroOnly st =? 0) && (binlogOnly =? 0)
           then Consistent else Discrepancies in
  mkReport st binlogOnly c (out ++ [CONCLUSION c]).

(** ** The normalizer: the field switch of [json_parser.go] *)

(** A value of the event map the normalizer builds: a string or an
    [int64]. *)
Inductive field : Type :=
| FString (s : string)
| FInt (n : Z).

(** The warnings the field switch writes to standard error. *)
Inductive warning : Type :=
| WarnDate (value key : string)
| WarnLogPosition (value : string)
| WarnExtractedTimestamp (extracted value key : string)
| WarnHighPrecisionTimestamp (value key : string).

Definition normalizeKey (key : string) : string :=
  strings.ToLower (strings.ReplaceAll key " " "_").

Definition knownFields : list string :=
  ["Table"; "Schema"; "Query"; "XID"; "GTID_NEXT"; "Commit flag";
   "LAST_COMMITTED"; "SEQUENCE_NUMBER"; "Transaction length";
   "Immediate server version"; "Orignal server version"; "TableID"; "Flags";
   "Column count"; "Slave proxy ID"; "Execution time"; "Error code";
   "server_version"; "version"].

(** [value[startIndex+1 : len(value)-1]] with [startIndex] the last ["("]:
    the text between the last parenthesis and the closing one. *)
Definition extractedTimestamp (value : string) : string :=
  let startIndex := strings.LastIndex value "(" in
  substring (Z.to_nat (startIndex + 1))
    (String.length value - 1 - Z.to_nat (startIndex + 1)) value.

Definition intOrString (value : string) : field :=
  match strconv.ParseInt value with
  | Some intVal => FInt intVal
  | None => FString value
  end.

Section Normalizer.

(** [time.Parse] with the layout
    ["2006-01-02 15:04:05.999999999 -0700 MST"] followed by
    [Format(time.RFC3339Nano)]; [None] stands for a parse error.  The zone
    name and numeric offset this layout reads lie outside the model of
    package [time] above. *)
Variable reencodeHighPrecision : string -> option string.

(** The [switch key] statement, applied to the event being built. *)
Definition setField (currentEvent : gmap string field) (key value : string)
  : gmap string field * list warning :=
  let normalizedKey := normalizeKey key in
  if String.eqb key "Date" then
    match time.Parse time.DateTime value with
    | Some t => (<["timestamp" := FString (time.Format_RFC3339 t)]> currentEvent, [])
    | None => (<[normalizedKey := FString value]> currentEvent, [WarnDate value key])
    end
  else if String.eqb key "Log position" then
    match strconv.ParseInt value with
    | Some intVal => (<["log_position" := FInt intVal]> currentEvent, [])
    | None => (<[normalizedKey := FString value]> currentEvent, [WarnLogPosition value])
    end
  else if existsb (String.eqb key) knownFields then
    (<[normalizedKey := intOrString value]> currentEvent, [])
  else if String.eqb key "Immediate commmit timestamp"
          || String.eqb key "Orignal commmit timestamp" then
    if strings.Contains value "(" && strings.HasSuffix value "Z)" then
      match time.Parse time.RFC3339Nano (extractedTimestamp value) with
      | Some _ =>
          (<[normalizedKey := FString (extractedTimestamp value)]> currentEvent, [])
      | None =>
          (<[normalizedKey := FString value]> currentEvent,
           [WarnExtractedTimestamp (extractedTimestamp value) value key])
      end
    else
      match reencodeHighPrecision value with
      | Some ts => (<[normalizedKey := FString ts]> currentEvent, [])
      | None =>
          (<[normalizedKey := FString value]> currentEvent,
           [WarnHighPrecisionTimestamp value key])
      end
  else if String.eqb key "Event type" then
    if strings.Contains value "WriteRowsEventV2" then
      (<["event_type" := FString "WriteRowsEventV2"]> currentEvent, [])
    else if strings.Contains value "UpdateRowsEventV2" then
      (<["event_type" := FString "UpdateRowsEventV2"]> currentEvent, [])
    else if strings.Contains value "DeleteRowsEventV2" then
      (<["event_type" := FString "DeleteRowsEventV2"]> currentEvent, [])
    else (currentEvent, [])
  else
    (<[normalizedKey := intOrString value]> currentEvent, []).

End Normalizer.

(** ** Checking a predicate on an initial segment of the integers *)

Fixpoint allBelow (n : nat) (P : Z -> bool) : bool :=
  match n with
  | O => true
  | S n => P (Z.of_nat n) && allBelow n P
  end.

(** ** Notions used to state the properties *)

(** The instant of a [Time] in nanoseconds since January 1 of year 1. *)
Definition nanos (t : time.Time) : Z := time.sec t * 1000000000 + time.nsec t.

(** A [Time] whose nanosecond field is in range and whose second count
    leaves room for the arithmetic of [Add] and [Sub]. *)
Definition validTime (t : time.Time) : Prop :=
  0 <= time.nsec t < 1000000000 /\ - 2 ^ 61 <= time.sec t <= 2 ^ 61.

(** The nearest [int64] to an integer. *)
Definition clamp64 (x : Z) : Z :=
  if x <? int64_min then int64_min else if int64_max <? x then int64_max else x.

Definition yearLength (year : Z) : Z := if time.isLeap year then 366 else 365.

(** Zero-based day of the year of a calendar date. *)
Definition ydayOf (year month day : Z) : Z :=
  time.daysBefore (month - 1)
  + (if time.isLeap year && (3 <=? month) then 1 else 0) + (day - 1).

(** [monthDay] inverts [ydayOf] on every day of a leap and of a common
    year. *)
Definition monthCheck : bool :=
  allBelow 2 (fun l =>
    allBelow 13 (fun m =>
      allBelow 32 (fun d =>
        let leap := 0 <? l in
        if (1 <=? m) && (1 <=? d)
           && (d <=? (if (m =? 2) && leap then 29
                      else time.daysBefore m - time.daysBefore (m - 1))) then
          let yd := time.daysBefore (m - 1)
                    + (if leap && (3 <=? m) then 1 else 0) + (d - 1) in
          let '(m', d') := time.monthDay leap yd in
          (m' =? m) && (d' =? d) && (0 <=? yd) && (yd <? (if leap then 366 else 365))
        else true))).

(** Leap years of the 400-year cycle, the year being numbered by century
    [a], 4-year group [b] and year [c] within them. *)
Definition leapInCycle (a b c : Z) : bool :=
  (c =? 3) && (negb (b =? 24) || (a =? 3)).

(** The calendar fields of a time [time.Parse] accepts. *)
Record civil : Type := mkCivil {
  c_year : Z; c_month : Z; c_day : Z; c_hour : Z; c_min : Z; c_sec : Z
}.

Definition validCivil (c : civil) : Prop :=
  0 <= c_year c <= 9999 /\ 1 <= c_month c <= 12
  /\ 1 <= c_day c <= time.daysIn (c_month c) (c_year c)
  /\ 0 <= c_hour c < 24 /\ 0 <= c_min c < 60 /\ 0 <= c_sec c < 60.

Definition civilDate (c : civil) (nsec : Z) : time.Time :=
  time.Date (c_year c) (c_month c) (c_day c) (c_hour c) (c_min c) (c_sec c) nsec.

Definition twoDigits (n : Z) (rest : string) : string :=
  String (time.digitChar (n / 10)) (String (time.digitChar (n mod 10)) rest).

Definition fourDigits (n : Z) (rest : string) : string :=
  twoDigits (n / 100) (twoDigits (n mod 100) rest).

Definition rfc3339String (c : civil) : string :=
  fourDigits (c_year c)
    (String "-" (twoDigits (c_month c)
       (String "-" (twoDigits (c_day c)
          (String "T" (twoDigits (c_hour c)
             (String ":" (twoDigits (c_min c)
                (String ":" (twoDigits (c_sec c) "Z")))))))))).

(** What [parseChunks] maintains about the fields it has read. *)
Definition fieldsOk (f : time.fields) : Prop :=
  0 <= time.f_year f <= 9999
  /\ (time.f_month f = -1 \/ 1 <= time.f_month f <= 12)
  /\ -1 <= time.f_day f <= 99
  /\ 0 <= time.f_hour f < 24 /\ 0 <= time.f_min f < 60 /\ 0 <= time.f_sec f < 60
  /\ 0 <= time.f_nsec f < 1000000000
  /\ -90000 <= time.f_zoneOffset f <= 90000.

Definition hasZone (c : time.chunk) : bool :=
  match c with time.stdISO8601ColonTZ => true | _ => false end.

(** What one step added to standard output and to standard error. *)
Definition newFindings (st st' : compareState) : list finding :=
  drop (length (stdout st)) (stdout st').

Definition newDiagnostics (st st' : compareState) : list diagnostic :=
  drop (length (stderr st)) (stderr st').

(** Nanoseconds since the Unix epoch. *)
Definition unixNano (t : time.Time) : Z :=
  nanos t - time.unixToInternal * 1000000000.

(** The [MISMATCH (Timestamp)] finding of a record, the [MISMATCH (GTID)]
    finding and the [ERROR] finding, as the step at line [n] prints them. *)
Definition timestampFinding (n : Z) (avroRec : AvroRecord.t)
    (binlogEvt : BinlogEvent.t) (binlogTime : time.Time) : finding :=
  MISMATCH_Timestamp n (keyOf avroRec)
    (time.UnixMilli (AvroRecord.SourceTimestamp avroRec))
    (AvroRecord.SourceTimestamp avroRec) binlogTime (BinlogEvent.EventType binlogEvt).

Definition gtidFinding (n : Z) (avroRec : AvroRecord.t) (binlogEvt : BinlogEvent.t)
  : finding :=
  MISMATCH_GTID n (keyOf avroRec) (avroGTID avroRec) (BinlogEvent.GTIDNext binlogEvt).

Definition changeTypeFinding (n : Z) (avroRec : AvroRecord.t) (binlogEvt : BinlogEvent.t)
  : finding :=
  MISMATCH_ChangeType n (keyOf avroRec) (avroChangeType avroRec)
    (BinlogEvent.EventType binlogEvt)
    (inferredBinlogChangeType (BinlogEvent.EventType binlogEvt)).

Definition errorFinding (n : Z) (avroRec : AvroRecord.t) (binlogEvt : BinlogEvent.t)
  : finding :=
  ERROR_parse n (keyOf avroRec) (BinlogEvent.ImmediateCommmitTimestamp binlogEvt)
    (BinlogEvent.Timestamp binlogEvt).

(** The part of the comparator state the join depends on: the three
    counters and the set of consumed keys. *)
Definition joinState (st : compareState) : Z * Z * Z * gmap BinlogKey bool :=
  (matches st, mismatches st, avroOnly st, binlogMatchedKeys st).

(** The line number after [n] lines. *)
Definition lineNumAfter (n : nat) : Z := Nat.iter n incr 0.

(** The scenario of the specification: an indexed event at position 500 of
    file [a.000001], and an Avro record. *)
Definition scenarioEvent (eventType ts commitTs gtid : string) : BinlogEvent.t :=
  BinlogEvent.mk eventType ts commitTs 500 "orders" "shop" "a.000001" gtid.

Definition scenarioRecord (sourceTimestamp : Z) (changeType gtid : string)
    (file : string) (position : Z) : AvroRecord.t :=
  AvroRecord.mk sourceTimestamp
    (SourceMetadata.mk "shop" "orders" (AvroString.mk changeType)
       (AvroString.mk gtid) (AvroString.mk "") (AvroLong.mk 1)
       (AvroString.mk file) (AvroLong.mk position) (AvroBoolean.mk false) ["order_id"])
    (Payload.mk (AvroInt.mk 1) (AvroString.mk "Ada") (AvroString.mk "Widget")
       (AvroInt.mk 2) (AvroLong.mk 1704067200000)).

Definition scenarioIndex (binlogEvt : BinlogEvent.t) : gmap BinlogKey BinlogEvent.t :=
  {[ ("a.000001", 500) := binlogEvt ]}.

(** The event of the scenario, written at 2024-01-01T00:00:00Z. *)
Definition writeEvent : BinlogEvent.t :=
  scenarioEvent "WriteRowsEventV2" "2024-01-01T00:00:00Z" "" "".

(** An Avro record for that event, stamped exactly 100 ms later. *)
Definition recordAt100ms : AvroRecord.t :=
  scenarioRecord 1704067200100 "INSERT" "" "a.000001" 500.

(** A delete event as the normalizer names it, and an Avro record that
    declares an insert at the same key. *)
Definition deleteEvent : BinlogEvent.t :=
  scenarioEvent "DeleteRowsEventV2" "2024-01-01T00:00:00Z" "" "".

Definition insertRecord : AvroRecord.t :=
  scenarioRecord 1704067200000 "INSERT" "" "a.000001" 500.

(** An indexed event without any timestamp. *)
Definition untimedEvent : BinlogEvent.t :=
  scenarioEvent "WriteRowsEventV2" "" "" "".

(** An indexed event whose commit timestamp is not a timestamp, and an Avro
    record with another transaction identifier. *)
Definition garbledEvent : BinlogEvent.t :=
  scenarioEvent "WriteRowsEventV2" "2024-01-01T00:00:00Z" "not-a-time"
    "3e11fa47-71ca-11e1-9e33-c80aa9429562:23".

Definition otherGtidRecord : AvroRecord.t :=
  scenarioRecord 1704067200000 "INSERT"
    "3e11fa47-71ca-11e1-9e33-c80aa9429562:24" "a.000001" 500.

(** The event of the scenario with a transaction identifier, which that
    record does not share. *)
Definition eventWithGtid : BinlogEvent.t :=
  scenarioEvent "WriteRowsEventV2" "2024-01-01T00:00:00Z" ""
    "3e11fa47-71ca-11e1-9e33-c80aa9429562:23".

(** An Avro record at position zero. *)
Definition recordAtZero : AvroRecord.t :=
  scenarioRecord 1704067200000 "INSERT" "" "a.000001" 0.

(** The record is reported as an error and counted as a mismatch; nothing
    else is reported for it. *)
Definition errorOutcome (st st' : compareState) (avroRec : AvroRecord.t)
    (binlogEvt : BinlogEvent.t) : Prop :=
  newFindings st st' = [errorFinding (lineNum st') avroRec binlogEvt]
  /\ mismatches st' = incr (mismatches st).

(** The error rule of C3 as the specification words it. *)
Definition errorWhenNeitherParseable (index : gmap BinlogKey BinlogEvent.t)
    (st : compareState) (avroRec : AvroRecord.t) (binlogEvt : BinlogEvent.t) : Prop :=
  time.Parse time.RFC3339Nano (BinlogEvent.ImmediateCommmitTimestamp binlogEvt) = None ->
  time.Parse time.RFC3339 (BinlogEvent.Timestamp binlogEvt) = None ->
  errorOutcome st (compareLine index st (Some avroRec)) avroRec binlogEvt.

(** Both sides carry a transaction identifier and the two differ. *)
Definition gtidDiscrepancy (avroRec : AvroRecord.t) (binlogEvt : BinlogEvent.t) : Prop :=
  avroGTID avroRec <> "" /\ BinlogEvent.GTIDNext binlogEvt <> ""
  /\ avroGTID avroRec <> BinlogEvent.GTIDNext binlogEvt.

(** The GTID rule of C4: the finding is printed exactly on a discrepancy. *)
Definition gtidReportedIff (st st' : compareState) (avroRec : AvroRecord.t)
    (binlogEvt : BinlogEvent.t) : Prop :=
  In (gtidFinding (lineNum st') avroRec binlogEvt) (newFindings st st')
  <-> gtidDiscrepancy avroRec binlogEvt.

Definition isTimestampFinding (f : finding) : bool :=
  match f with MISMATCH_Timestamp _ _ _ _ _ _ => true | _ => false end.

Definition isErrorFinding (f : finding) : bool :=
  match f with ERROR_parse _ _ _ _ => true | _ => false end.

(** The counting policy of C4: a reported timestamp discrepancy increments
    the mismatch counter; without one (and without a parse error) the
    counter stays, whatever else is reported. *)
Definition countingPolicy (st st' : compareState) : Prop :=
  (existsb isTimestampFinding (newFindings st st') = true ->
   mismatches st' = incr (mismatches st))
  /\ (existsb isTimestampFinding (newFindings st st') = false ->
      existsb isErrorFinding (newFindings st st') = false ->
      mismatches st' = mismatches st).

(** C6 as the specification words it: the malformed line is reported on
    standard error, and the five counts of the summary are those of the
    input without that line. *)
Definition malformedLineExcluded (index : gmap BinlogKey BinlogEvent.t)
    (l1 l2 : list (option AvroRecord.t)) : Prop :=
  let r := compareAvroWithBinlog index (l1 ++ None :: l2) in
  let r0 := compareAvroWithBinlog index (l1 ++ l2) in
  In (WarnAvroUnmarshal (lineNumAfter (S (length l1)))) (stderr (final r))
  /\ lineNum (final r) = lineNum (final r0)
  /\ matches (final r) = matches (final r0)
  /\ mismatches (final r) = mismatches (final r0)
  /\ avroOnly (final r) = avroOnly (final r0)
  /\ binlogOnly r = binlogOnly r0.

(** A line of the normalized-event input is rejected with a diagnostic: the
    index keeps its content and one message is added to standard error. *)
Definition loggedAndNotIndexed (st : loadState) (line : option (gmap string iface)) : Prop :=
  binlogEvents (loadLine st line) = binlogEvents st
  /\ exists d, ld_stderr (loadLine st line) = ld_stderr st ++ [d].

(** A line is passed over without any message. *)
Definition silentlySkipped (st : loadState) (line : option (gmap string iface)) : Prop :=
  binlogEvents (loadLine st line) = binlogEvents st
  /\ ld_stderr (loadLine st line) = ld_stderr st.

(** What C5 asks of an entry of the index. *)
Definition validEntry (key : BinlogKey) (binlogEvt : BinlogEvent.t) : Prop :=
  (strings.HasSuffix (BinlogEvent.EventType binlogEvt) "RowsEventV2" = true
   \/ BinlogEvent.EventType binlogEvt = "XID")
  /\ BinlogEvent.BinlogFile binlogEvt <> ""
  /\ BinlogEvent.LogPosition binlogEvt <> 0
  /\ key = (BinlogEvent.BinlogFile binlogEvt, BinlogEvent.LogPosition binlogEvt).

(** The rejection rule of C5 as the claim words it: an event that fails any
    of the three conditions is logged and not indexed. *)
Definition rejectedEventLogged (st : loadState) (event : gmap string iface) : Prop :=
  forall eventType binlogEvt,
    event !! "event_type" = Some (Istring eventType) ->
    decodeBinlogEvent event = Some binlogEvt ->
    isRelevantEventType eventType = false
    \/ BinlogEvent.BinlogFile binlogEvt = ""
    \/ BinlogEvent.LogPosition binlogEvt = 0 ->
    loggedAndNotIndexed st (Some event).

(** The case C7 names: a line without a string [event_type] is skipped
    with a diagnostic. *)
Definition missingEventTypeLogged (st : loadState) (event : gmap string iface) : Prop :=
  (forall s, event !! "event_type" <> Some (Istring s)) ->
  ld_stderr (loadLine st (Some event)) <> ld_stderr st.

(** A GTID event as the normalizer emits it. *)
Definition gtidLine : gmap string iface :=
  {[ "event_type" := Istring "GTID";
     "binlog_file" := Istring "a.000001";
     "log_position" := Ifloat64 (IntLit 126) ]}.

(** A write event as the normalizer emits it, and one that lost its
    position. *)
Definition writeLine (position : Z) : gmap string iface :=
  {[ "event_type" := Istring "WriteRowsEventV2";
     "binlog_file" := Istring "a.000001";
     "log_position" := Ifloat64 (IntLit position);
     "timestamp" := Istring "2024-01-01T00:00:00Z" ]}.

(** A line that is a JSON object without [event_type]. *)
Definition untypedLine : gmap string iface :=
  {[ "binlog_file" := Istring "a.000001";
     "log_position" := Ifloat64 (IntLit 126) ]}.

(** What the loader decodes [writeLine 500] to. *)
Definition decodedWriteEvent : BinlogEvent.t :=
  BinlogEvent.mk "WriteRowsEventV2" "2024-01-01T00:00:00Z" "" 500 "" "" "a.000001" "".

(** ** The normalizer: the scanner loop of [json_parser.go] *)

Definition hasNewline (s : string) : bool :=
  strings.Contains s (String (ascii_of_nat 10) "").

(** [eventHeaderRegex.FindStringSubmatch(line)] for [^=== (.+?) ===$]: the
    title of a header line, which is what stands between ["=== "] at the
    start and [" ==="] at the end when that is not empty. *)
Definition eventHeader (line : string) : option string :=
  let title := substring 4 (String.length line - 8) line in
  if (9 <=? String.length line)%nat
     && strings.HasPrefix line "=== " && strings.HasSuffix line " ==="
     && negb (hasNewline title)
  then Some title else None.

(** The text before the first colon of a string and the text after it. *)
Fixpoint cutColon (s : string) : option (string * string) :=
  match s with
  | EmptyString => None
  | String c r =>
      if Ascii.eqb c ":" then Some (EmptyString, r)
      else
        match cutColon r with
        | Some (k, v) => Some (String c k, v)
        | None => None
        end
  end.

(** [keyValueRegex.FindStringSubmatch(line)] for [^([^:]+): (.+)$]: the
    text before the first colon, which must not be empty, and the text
    after the space that follows that colon, which must not be empty
    either. *)
Definition keyValue (line : string) : option (string * string) :=
  match cutColon line with
  | Some (k, String sp v) =>
      if Ascii.eqb sp " " && negb (String.eqb k "") && negb (String.eqb v "")
         && negb (hasNewline v)
      then Some (k, v) else None
  | _ => None
  end.

(** The event type a header title stands for. *)
Definition parsedEventType (headerEventType : string) : string :=
  if strings.Contains headerEventType "WriteRowsEventV2" then "WriteRowsEventV2"
  else if strings.Contains headerEventType "UpdateRowsEventV2" then "UpdateRowsEventV2"
  else if strings.Contains headerEventType "DeleteRowsEventV2" then "DeleteRowsEventV2"
  else strings.TrimSuffix headerEventType "Event".

(** The state of the loop: the event being built ([None] for the nil map),
    the events printed so far, each standing for the JSON line
    [json.Marshal] makes of it, and the warnings written so far. *)
Record parserState : Type := mkParserState {
  ps_current : option (gmap string field);
  ps_printed : list (gmap string field);
  ps_warnings : list warning
}.

(** Stamp the open event with the file name and print it. *)
Definition flush (binlogFileBasename : string) (st : parserState)
  : list (gmap string field) :=
  match ps_current st with
  | Some ev => ps_printed st ++ [<["binlog_file" := FString binlogFileBasename]> ev]
  | None => ps_printed st
  end.

Section ParserLoop.

Variable reencodeHighPrecision : string -> option string.
Variable binlogFileBasename : string.

(** One iteration of the scanner loop on the text of a line. *)
Definition parseLine (st : parserState) (text : string) : parserState :=
  let line := strings.TrimSpace text in
  if (String.length line =? 0)%nat then st
  else if String.eqb line "--" then st
  else
    match eventHeader line with
    | Some headerEventType =>
        mkParserState
          (Some (<["event_type" := FString (parsedEventType headerEventType)]> ∅))
          (flush binlogFileBasename st) (ps_warnings st)
    | None =>
        match ps_current st with
        | None => st
        | Some currentEvent =>
            match keyValue line with
            | Some (k, v) =>
                let key := strings.TrimSpace k in
                let value := strings.TrimSpace v in
                let '(ev, ws) := setField reencodeHighPrecision currentEvent key value in
                mkParserState (Some ev) (ps_printed st) (ps_warnings st ++ ws)
            | None => st
            end
        end
    end.

(** The loop and the flush of the last event after it. *)
Definition parseLines (lines : list string) : parserState :=
  fold_left parseLine lines (mkParserState None [] []).

Definition parseAll (lines : list string) : list (gmap string field) * list warning :=
  let st := parseLines lines in
  (flush binlogFileBasename st, ps_warnings st).

End ParserLoop.

(** What the two programs do with their command line and their streams. *)
Inductive parserOutcome : Type :=
| ParserUsage                      (* usage on standard error, exit code 1 *)
| ParserDone (printed : list (gmap string field)) (warnings : list warning)
    (readError : bool).            (* exit code 0 *)

Module json_parser.

(** [main] of [json_parser.go].  [args] is [os.Args]; [stdin] is the lines
    the scanner delivers and [readError] tells whether [scanner.Err()] is
    set after them. *)
Definition main (reencodeHighPrecision : string -> option string)
    (args : list string) (stdin : list string) (readError : bool) : parserOutcome :=
  match args with
  | _ :: currentBinlogFileFromArg :: _ =>
      let '(printed, warnings) :=
        parseAll reencodeHighPrecision (filepath.Base currentBinlogFileFromArg) stdin in
      ParserDone printed warnings readError
  | _ => ParserUsage
  end.

Definition exitCode (o : parserOutcome) : Z :=
  match o with ParserUsage => 1 | ParserDone _ _ _ => 0 end.

End json_parser.

(** ** The comparator: [main] *)

(** A file as the comparator meets it: [None] when [os.Open] fails;
    otherwise the lines the scanner delivers, each as [json.Unmarshal]
    decodes it, and whether [scanner.Err()] is set after them. *)
Record scanned (A : Type) : Type := mkScanned {
  sc_lines : list A;
  sc_err : bool
}.
Arguments mkScanned {A} _ _.
Arguments sc_lines {A} _.
Arguments sc_err {A} _.

Inductive progress : Type :=
| LoadingBinlog (path : string)
| LoadedEvents (n : Z)
| LoadingAvro (path : string)
| Found (f : finding)
| ComparisonComplete.

Inductive failure : Type :=
| Usage
| ErrorLoadingBinlog
| ErrorDuringComparison.

Record run : Type := mkRun {
  r_exit : Z;
  r_stdout : list progress;
  r_failure : option failure;
  r_diagnostics : list diagnostic
}.

Module comparator.

Section Main.

(** The file system as the two readers see it. *)
Variable binlogFile : string -> option (scanned (option (gmap string iface))).
Variable avroFile : string -> option (scanned (option AvroRecord.t)).

Definition main (args : list string) : run :=
  match args with
  | [_; binlogJSONPath; avroJSONPath] =>
      let out := [LoadingBinlog binlogJSONPath] in
      match binlogFile binlogJSONPath with
      | None => mkRun 1 out (Some ErrorLoadingBinlog) []
      | Some f =>
          let ld := loadBinlogData (sc_lines f) in
          if sc_err f then mkRun 1 out (Some ErrorLoadingBinlog) (ld_stderr ld)
          else
            let out := out ++ [LoadedEvents (Z.of_nat (size (binlogEvents ld)));
                               LoadingAvro avroJSONPath] in
            match avroFile avroJSONPath with
            | None => mkRun 1 out (Some ErrorDuringComparison) (ld_stderr ld)
            | Some g =>
                if sc_err g then
                  let st := scan (binlogEvents ld) initialState (sc_lines g) in
                  mkRun 1 (out ++ map Found (stdout st)) (Some ErrorDuringComparison)
                    (ld_stderr ld ++ stderr st)
                else
                  let r := compareAvroWithBinlog (binlogEvents ld) (sc_lines g) in
                  mkRun 0 (out ++ map Found (rp_stdout r) ++ [ComparisonComplete]) None
                    (ld_stderr ld ++ stderr (final r))
            end
      end
  | _ => mkRun 1 [] (Some Usage) []
  end.

End Main.

End comparator.

(** The entry a line of the normalized-event input puts into the index, if
    it puts one. *)
Definition indexedAs (line : option (gmap string iface))
  : option (BinlogKey * BinlogEvent.t) :=
  match line with
  | Some event =>
      match event !! "event_type" with
      | Some (Istring eventType) =>
          if isRelevantEventType eventType then
            match decodeBinlogEvent event with
            | Some binlogEvt =>
                if String.eqb (BinlogEvent.BinlogFile binlogEvt) ""
                   || (BinlogEvent.LogPosition binlogEvt =? 0) then None
                else Some ((BinlogEvent.BinlogFile binlogEvt,
                            BinlogEvent.LogPosition binlogEvt), binlogEvt)
            | None => None
            end
          else None
      | _ => None
      end
  | None => None
  end.

(** What the scanner loop of the comparator does with a line. *)
Inductive lineKind : Type :=
| Skipped
| SourceOnly
| MatchedError
| MatchedMismatch
| MatchedWithinTolerance.

Definition kindOf (index : gmap BinlogKey BinlogEvent.t) (line : option AvroRecord.t)
  : lineKind :=
  match line with
  | None => Skipped
  | Some avroRec =>
      if missingKey avroRec then Skipped
      else
        match index !! keyOf avroRec with
        | None => SourceOnly
        | Some binlogEvt =>
            match parseBinlogTime binlogEvt with
            | None => MatchedError
            | Some binlogTime =>
                if timestampMismatch avroRec binlogTime then MatchedMismatch
                else MatchedWithinTolerance
            end
        end
  end.

Definition isMatched (k : lineKind) : bool :=
  match k with MatchedError | MatchedMismatch | MatchedWithinTolerance => true | _ => false end.

Definition isCounted (k : lineKind) : bool :=
  match k with MatchedError | MatchedMismatch => true | _ => false end.

Definition isSourceOnly (k : lineKind) : bool :=
  match k with SourceOnly => true | _ => false end.

Definition isSkipped (k : lineKind) : bool :=
  match k with Skipped => true | _ => false end.

(** The number of lines of a kind. *)
Definition countKind (P : lineKind -> bool) (index : gmap BinlogKey BinlogEvent.t)
    (lines : list (option AvroRecord.t)) : nat :=
  length (List.filter (fun line => P (kindOf index line)) lines).

(** An index entry the loop after the scan reports: a row event whose key
    no Avro record consumed. *)
Definition unmatchedDML (matched : gmap BinlogKey bool)
    (entry : BinlogKey * BinlogEvent.t) : bool :=
  negb (default false (matched !! fst entry)) && isDML (BinlogEvent.EventType (snd entry)).

(** The lines the scanner loop of the normalizer acts upon: the header of an
    event and a field of it. *)
Definition isHeaderLine (text : string) : bool :=
  match eventHeader (strings.TrimSpace text) with Some _ => true | None => false end.

Definition isFieldLine (text : string) : bool :=
  match keyValue (strings.TrimSpace text) with Some _ => true | None => false end.

(** * Properties *)

(** ** Machine integers *)

Lemma wrap64_id (x : Z) : in_int64 x -> wrap64 x = x.
Proof.
  unfold in_int64, int64_min, int64_max, wrap64.
  change (2 ^ 63) with 9223372036854775808.
  change (2 ^ 64) with 18446744073709551616.
  intros H. rewrite Z.mod_small; lia.
Qed.

Lemma wrap64_range (x : Z) : in_int64 (wrap64 x).
Proof.
  unfold in_int64, int64_min, int64_max, wrap64.
  change (2 ^ 63) with 9223372036854775808.
  change (2 ^ 64) with 18446744073709551616.
  pose proof (Z.mod_pos_bound (x + 9223372036854775808) 18446744073709551616).
  lia.
Qed.

Lemma wrap64_congr (x y : Z) : wrap64 (wrap64 x + y) = wrap64 (x + y).
Proof.
  unfold wrap64.
  change (2 ^ 63) with 9223372036854775808.
  change (2 ^ 64) with 18446744073709551616.
  f_equal.
  replace ((x + 9223372036854775808) mod 18446744073709551616 - 9223372036854775808 + y + 9223372036854775808)
    with ((x + 9223372036854775808) mod 18446744073709551616 + y) by lia.
  rewrite Zplus_mod_idemp_l. f_equal. lia.
Qed.

Lemma wrap64_eq_inv (x : Z) : wrap64 x = x -> in_int64 x.
Proof. intros H. rewrite <- H. apply wrap64_range. Qed.

Lemma incr_neq (x : Z) : incr x <> x.
Proof.
  unfold incr. intros H.
  assert (Hx : in_int64 x) by (rewrite <- H; apply wrap64_range).
  revert H. unfold wrap64, in_int64, int64_min, int64_max in *.
  change (2 ^ 63) with 9223372036854775808 in *.
  change (2 ^ 64) with 18446744073709551616 in *.
  intros H.
  destruct (Z.eq_dec x 9223372036854775807) as [->|Hne].
  - vm_compute in H. discriminate.
  - rewrite Z.mod_small in H; lia.
Qed.

Lemma allBelow_spec (n : nat) (P : Z -> bool) :
  allBelow n P = true -> forall z, 0 <= z < Z.of_nat n -> P z = true.
Proof.
  induction n as [|n IH]; intros H z Hz.
  - lia.
  - cbn [allBelow] in H. apply andb_true_iff in H as [H1 H2].
    destruct (Z.eq_dec z (Z.of_nat n)) as [->|Hne]; [exact H1|].
    apply IH; [exact H2|lia].
Qed.

(** ** Subtracting instants *)

Ltac z_consts :=
  unfold in_int64, int64_min, int64_max, time.minDuration, time.maxDuration,
    time.Second, time.Millisecond in *;
  change (2 ^ 61) with 2305843009213693952 in *;
  change (2 ^ 63) with 9223372036854775808 in *;
  change (2 ^ 64) with 18446744073709551616 in *.

Lemma Add_nanos (u : time.Time) (d : Z) :
  validTime u -> in_int64 d ->
  nanos (time.Add u d) = nanos u + d /\ 0 <= time.nsec (time.Add u d) < 1000000000.
Proof.
  unfold validTime, nanos, time.Add, time.addSec. destruct u as [us un]; cbn [time.sec time.nsec].
  intros [Hn Hs] Hd. z_consts.
  pose proof (Z.quot_rem' d 1000000000) as Hqr.
  assert (Hr : -1000000000 < Z.rem d 1000000000 < 1000000000).
  { pose proof (Z.rem_bound_abs d 1000000000). lia. }
  set (q := Z.quot d 1000000000) in *. set (r := Z.rem d 1000000000) in *.
  assert (Hq : -9223372037 <= q <= 9223372037) by lia.
  destruct (1000000000 <=? un + r) eqn:E1; [|destruct (un + r <? 0) eqn:E2];
    cbn [time.sec time.nsec]; rewrite wrap64_id by (z_consts; lia); lia.
Qed.

Lemma Equal_nanos (a b : time.Time) :
  0 <= time.nsec a < 1000000000 -> 0 <= time.nsec b < 1000000000 ->
  time.Equal a b = true <-> nanos a = nanos b.
Proof.
  unfold time.Equal, nanos. intros Ha Hb. rewrite andb_true_iff, !Z.eqb_eq. lia.
Qed.

Lemma Sub_spec (t u : time.Time) :
  validTime t -> validTime u -> time.Sub t u = clamp64 (nanos t - nanos u).
Proof.
  intros Ht Hu. unfold time.Sub.
  assert (Hd : wrap64 (wrap64 (wrap64 (time.sec t - time.sec u) * time.Second)
                       + (time.nsec t - time.nsec u)) = wrap64 (nanos t - nanos u)).
  { rewrite wrap64_congr. f_equal. rewrite wrap64_id.
    - unfold nanos, time.Second. lia.
    - destruct Ht as [_ Ht], Hu as [_ Hu]. z_consts. lia. }
  rewrite Hd. clear Hd.
  set (D := nanos t - nanos u).
  pose proof (wrap64_range D) as Hw.
  destruct (Add_nanos u (wrap64 D) Hu Hw) as [Hn Hv].
  destruct (time.Equal (time.Add u (wrap64 D)) t) eqn:E.
  - apply Equal_nanos in E; [|exact Hv|apply Ht].
    assert (wrap64 D = D) by (unfold D in *; lia).
    unfold clamp64. rewrite H in Hw.
    destruct (D <? int64_min) eqn:E1; [|destruct (int64_max <? D) eqn:E2];
      z_consts; lia.
  - assert (Hne : wrap64 D <> D).
    { intros Heq. rewrite Heq in *.
      assert (time.Equal (time.Add u D) t = true); [|congruence].
      apply Equal_nanos; [exact Hv|apply Ht|]. unfold D in *. lia. }
    assert (Hout : ~ in_int64 D) by (intros Hin; apply Hne, wrap64_id, Hin).
    unfold clamp64, time.Before. unfold nanos in D.
    destruct Ht as [Htn Hts], Hu as [Hun Hus].
    destruct (D <? int64_min) eqn:E1; [|destruct (int64_max <? D) eqn:E2];
      subst D; z_consts.
    + assert ((time.sec t <? time.sec u) = true) as -> by lia. reflexivity.
    + assert ((time.sec t <? time.sec u) = false) as -> by lia.
      assert ((time.sec t =? time.sec u) = false) as -> by lia. reflexivity.
    + lia.
Qed.

Lemma Abs_clamp64_gt (x c : Z) :
  0 <= c < int64_max -> (c <? time.Abs (clamp64 x)) = (c <? Z.abs x).
Proof.
  intros Hc. unfold time.Abs, clamp64.
  destruct (x <? int64_min) eqn:E1; [|destruct (int64_max <? x) eqn:E2].
  - change (0 <=? int64_min) with false. change (int64_min =? time.minDuration) with true.
    z_consts. lia.
  - change (0 <=? int64_max) with true. z_consts. lia.
  - destruct (0 <=? x) eqn:E3; [z_consts; lia|].
    destruct (x =? time.minDuration) eqn:E4; z_consts; lia.
Qed.

(** ** The calendar *)

Ltac zlia := repeat match goal with x := _ |- _ => subst x end; lia.

Lemma div_eq (x d q : Z) : 0 < d -> d * q <= x < d * q + d -> x / d = q.
Proof. intros Hd H. symmetry. apply (Z.div_unique_pos x d q (x - d * q)); lia. Qed.

Lemma shiftr2_small (n : Z) : 0 <= n < 4 -> Z.shiftr n 2 = 0.
Proof. intros H. rewrite Z.shiftr_div_pow2 by lia. apply div_eq; lia. Qed.

Lemma yearDay_cycle (q a b c yd : Z) :
  0 <= a < 4 -> 0 <= b < 25 -> 0 <= c < 4 ->
  0 <= yd < 365 + (if leapInCycle a b c then 1 else 0) ->
  time.yearDay (146097 * q + 36524 * a + 1461 * b + 365 * c + yd)
  = (400 * q + 100 * a + 4 * b + c + 1, yd).
Proof.
  intros Ha Hb Hc Hyd. unfold time.yearDay, time.daysPer400Years,
    time.daysPer100Years, time.daysPer4Years.
  assert (Hl : leapInCycle a b c = true -> c = 3 /\ (b <> 24 \/ a = 3)).
  { unfold leapInCycle. rewrite andb_true_iff, orb_true_iff, negb_true_iff.
    rewrite !Z.eqb_eq, Z.eqb_neq. tauto. }
  assert (Hyd' : yd < 365 \/ (yd = 365 /\ c = 3 /\ (b <> 24 \/ a = 3))).
  { destruct (leapInCycle a b c); [specialize (Hl eq_refl)|]; lia. }
  assert (Hyd0 : 0 <= yd) by lia.
  clear Hl Hyd.
  set (e := 146097 * q + 36524 * a + 1461 * b + 365 * c + yd).
  assert (H400 : e / 146097 = q) by (apply div_eq; zlia).
  rewrite H400.
  set (d1 := e - 146097 * q).
  assert (Hn100 : d1 / 36524 - Z.shiftr (d1 / 36524) 2 = a).
  { destruct (Z.eq_dec (1461 * b + 365 * c + yd) 36524) as [Hlast|Hnot].
    - assert (d1 / 36524 = 4) as -> by (apply div_eq; zlia).
      change (Z.shiftr 4 2) with 1. zlia.
    - assert (d1 / 36524 = a) as -> by (apply div_eq; zlia).
      rewrite shiftr2_small; zlia. }
  rewrite Hn100.
  set (d2 := d1 - 36524 * a).
  assert (Hn4 : d2 / 1461 = b) by (apply div_eq; zlia).
  rewrite Hn4.
  set (d3 := d2 - 1461 * b).
  assert (Hn1 : d3 / 365 - Z.shiftr (d3 / 365) 2 = c).
  { destruct (Z.eq_dec yd 365) as [Hlast|Hnot].
    - assert (d3 / 365 = 4) as -> by (apply div_eq; zlia).
      change (Z.shiftr 4 2) with 1. zlia.
    - assert (d3 / 365 = c) as -> by (apply div_eq; zlia).
      rewrite shiftr2_small; zlia. }
  rewrite Hn1. f_equal; zlia.
Qed.

Lemma daysSinceEpoch_cycle (q a b c : Z) :
  0 <= a < 4 -> 0 <= b < 25 -> 0 <= c < 4 ->
  time.daysSinceEpoch (400 * q + 100 * a + 4 * b + c + 1)
  = 146097 * q + 36524 * a + 1461 * b + 365 * c.
Proof.
  intros Ha Hb Hc. unfold time.daysSinceEpoch, time.daysPer400Years,
    time.daysPer100Years, time.daysPer4Years.
  set (y := 400 * q + 100 * a + 4 * b + c + 1 - 1).
  assert (H1 : y / 400 = q) by (apply div_eq; zlia). rewrite H1.
  set (y1 := y - 400 * q).
  assert (H2 : y1 / 100 = a) by (apply div_eq; zlia). rewrite H2.
  set (y2 := y1 - 100 * a).
  assert (H3 : y2 / 4 = b) by (apply div_eq; zlia). rewrite H3.
  zlia.
Qed.

Lemma isLeap_cycle (q a b c : Z) :
  0 <= 400 * q + 100 * a + 4 * b + c + 1 ->
  0 <= a < 4 -> 0 <= b < 25 -> 0 <= c < 4 ->
  time.isLeap (400 * q + 100 * a + 4 * b + c + 1) = leapInCycle a b c.
Proof.
  intros Hq Ha Hb Hc. unfold time.isLeap, leapInCycle.
  set (year := 400 * q + 100 * a + 4 * b + c + 1).
  rewrite !Z.rem_mod_nonneg by zlia.
  assert (H4 : year mod 4 = (c + 1) mod 4).
  { unfold year. replace (400 * q + 100 * a + 4 * b + c + 1)
      with (c + 1 + (100 * q + 25 * a + b) * 4) by lia. apply Z_mod_plus_full. }
  assert (H100 : year mod 100 = (4 * b + c + 1) mod 100).
  { unfold year. replace (400 * q + 100 * a + 4 * b + c + 1)
      with (4 * b + c + 1 + (4 * q + a) * 100) by lia. apply Z_mod_plus_full. }
  assert (H400 : year mod 400 = (100 * a + 4 * b + c + 1) mod 400).
  { unfold year. replace (400 * q + 100 * a + 4 * b + c + 1)
      with (100 * a + 4 * b + c + 1 + q * 400) by lia. apply Z_mod_plus_full. }
  rewrite H4, H100, H400. clear H4 H100 H400 year.
  destruct (Z.eq_dec c 3) as [->|Hc3].
  - change ((3 + 1) mod 4 =? 0) with true. rewrite Z.eqb_refl. cbn [andb].
    destruct (Z.eq_dec b 24) as [->|Hb24].
    + change ((4 * 24 + 3 + 1) mod 100 =? 0) with true. cbn [negb orb].
      change (24 =? 24) with true. cbn [negb orb].
      destruct (Z.eq_dec a 3) as [->|Ha3].
      * reflexivity.
      * replace (100 * a + 4 * 24 + 3 + 1) with (100 * (a + 1)) by lia.
        rewrite Z.mod_small by lia.
        destruct (a =? 3) eqn:E; lia.
    + rewrite Z.mod_small by lia.
      destruct (4 * b + 3 + 1 =? 0) eqn:E1; [lia|].
      destruct (b =? 24) eqn:E2; [lia|]. reflexivity.
  - rewrite (Z.mod_small (c + 1)) by lia.
    destruct (c + 1 =? 0) eqn:E1; [lia|].
    destruct (c =? 3) eqn:E2; [lia|]. reflexivity.
Qed.

Lemma cycle_split (year : Z) :
  exists q a b c, 0 <= a < 4 /\ 0 <= b < 25 /\ 0 <= c < 4
    /\ year = 400 * q + 100 * a + 4 * b + c + 1.
Proof.
  exists ((year - 1) / 400), ((year - 1) mod 400 / 100),
    ((year - 1) mod 400 mod 100 / 4), ((year - 1) mod 400 mod 100 mod 4).
  Z.div_mod_to_equations. lia.
Qed.

Lemma yearDay_daysSinceEpoch (year yd : Z) :
  0 <= year -> 0 <= yd < yearLength year ->
  time.yearDay (time.daysSinceEpoch year + yd) = (year, yd).
Proof.
  intros Hy Hyd.
  destruct (cycle_split year) as (q & a & b & c & Ha & Hb & Hc & ->).
  unfold yearLength in Hyd. rewrite isLeap_cycle in Hyd by assumption.
  rewrite daysSinceEpoch_cycle by assumption.
  apply yearDay_cycle; try assumption.
  destruct (leapInCycle a b c); lia.
Qed.

Lemma monthCheck_ok : monthCheck = true.
Proof. vm_compute. reflexivity. Qed.

Lemma monthDay_ydayOf (year month day : Z) :
  1 <= month <= 12 -> 1 <= day <= time.daysIn month year ->
  time.monthDay (time.isLeap year) (ydayOf year month day) = (month, day)
  /\ 0 <= ydayOf year month day < yearLength year.
Proof.
  intros Hm Hd. unfold ydayOf, yearLength, time.daysIn in *.
  pose proof monthCheck_ok as H. unfold monthCheck in H.
  assert (Hdb : 1 <= day < 32).
  { split; [lia|].
    assert (time.daysBefore month - time.daysBefore (month - 1) <= 31).
    { assert (Hc : month = 1 \/ month = 2 \/ month = 3 \/ month = 4 \/ month = 5
            \/ month = 6 \/ month = 7 \/ month = 8 \/ month = 9 \/ month = 10
            \/ month = 11 \/ month = 12) by lia.
      repeat (destruct Hc as [->|Hc]; [vm_compute; discriminate|]).
      subst. vm_compute; discriminate. }
    destruct ((month =? 2) && time.isLeap year); lia. }
  pose proof (allBelow_spec _ _ H (if time.isLeap year then 1 else 0)) as H1.
  cbv beta in H1.
  assert (Hl : 0 <= (if time.isLeap year then 1 else 0) < Z.of_nat 2)
    by (destruct (time.isLeap year); lia).
  specialize (H1 Hl).
  pose proof (allBelow_spec _ _ H1 month ltac:(lia)) as H2. cbv beta in H2.
  pose proof (allBelow_spec _ _ H2 day ltac:(lia)) as H3. cbv beta zeta in H3.
  clear H H1 H2.
  assert (Hleap : (0 <? (if time.isLeap year then 1 else 0)) = time.isLeap year)
    by (destruct (time.isLeap year); reflexivity).
  rewrite Hleap in H3.
  assert (Hg : (1 <=? month) && (1 <=? day)
               && (day <=? (if (month =? 2) && time.isLeap year then 29
                            else time.daysBefore month - time.daysBefore (month - 1)))
               = true).
  { rewrite !andb_true_iff, !Z.leb_le. lia. }
  rewrite Hg in H3.
  destruct (time.monthDay _ _) as [m' d'].
  rewrite !andb_true_iff, !Z.eqb_eq, Z.leb_le, Z.ltb_lt in H3.
  destruct H3 as (((-> & ->) & H0) & Hlt).
  split; [reflexivity|]. destruct (time.isLeap year); lia.
Qed.

Lemma norm_id (hi lo base : Z) : 0 <= lo < base -> time.norm hi lo base = (hi, lo).
Proof.
  intros H. unfold time.norm.
  destruct (lo <? 0) eqn:E1; [lia|].
  destruct (base <=? lo) eqn:E2; [lia|]. reflexivity.
Qed.

Lemma Date_valid (c : civil) (ns : Z) :
  validCivil c -> 0 <= ns < 1000000000 ->
  civilDate c ns
  = time.mkTime ((time.daysSinceEpoch (c_year c) + ydayOf (c_year c) (c_month c) (c_day c)) * 86400
                 + (c_hour c * 3600 + c_min c * 60 + c_sec c)) ns.
Proof.
  intros (Hy & Hm & Hd & Hh & Hmi & Hs) Hns. unfold civilDate, time.Date.
  rewrite (norm_id _ (c_month c - 1)) by lia.
  rewrite (norm_id _ ns) by lia.
  rewrite (norm_id _ (c_sec c)) by lia.
  rewrite (norm_id _ (c_min c)) by lia.
  rewrite (norm_id _ (c_hour c)) by lia.
  replace (c_month c - 1 + 1) with (c_month c) by lia.
  unfold ydayOf, time.secondsPerDay. f_equal.
  destruct (time.isLeap (c_year c) && (3 <=? c_month c)); lia.
Qed.

Lemma date_clock_Date (c : civil) (ns : Z) :
  validCivil c -> 0 <= ns < 1000000000 ->
  time.date (civilDate c ns) = (c_year c, c_month c, c_day c)
  /\ time.clock (civilDate c ns) = (c_hour c, c_min c, c_sec c).
Proof.
  intros Hc Hns. rewrite Date_valid by assumption.
  destruct Hc as (Hy & Hm & Hd & Hh & Hmi & Hs).
  destruct (monthDay_ydayOf _ _ _ Hm Hd) as [Hmd Hyd].
  set (days := time.daysSinceEpoch (c_year c) + ydayOf (c_year c) (c_month c) (c_day c)).
  set (s := c_hour c * 3600 + c_min c * 60 + c_sec c).
  assert (Hs' : 0 <= s < 86400) by zlia.
  unfold time.date, time.clock, time.secondsPerDay. cbn [time.sec].
  assert (Hdiv : (days * 86400 + s) / 86400 = days) by (apply div_eq; lia).
  assert (Hmod : (days * 86400 + s) mod 86400 = s).
  { rewrite Z.add_comm, Z_mod_plus_full. apply Z.mod_small; lia. }
  rewrite Hdiv, Hmod. split.
  - unfold time.absDate. subst days.
    rewrite yearDay_daysSinceEpoch by (try lia; exact Hyd).
    rewrite Hmd. reflexivity.
  - assert (Hh' : s / 3600 = c_hour c) by (apply div_eq; zlia).
    rewrite Hh'.
    assert (Hm' : (s - c_hour c * 3600) / 60 = c_min c) by (apply div_eq; zlia).
    rewrite Hm'. f_equal. zlia.
Qed.

(** ** Digits *)

Lemma isDigit_range (c : ascii) : isDigit c = true -> 0 <= digitOf c <= 9.
Proof.
  unfold isDigit, digitOf. rewrite andb_true_iff, !N.leb_le. lia.
Qed.

Lemma digitChar_digit (d : Z) :
  0 <= d <= 9 -> isDigit (time.digitChar d) = true /\ digitOf (time.digitChar d) = d.
Proof.
  intros H.
  assert (Hc : d = 0 \/ d = 1 \/ d = 2 \/ d = 3 \/ d = 4 \/ d = 5 \/ d = 6
               \/ d = 7 \/ d = 8 \/ d = 9) by lia.
  repeat (destruct Hc as [->|Hc]; [split; reflexivity|]).
  subst. split; reflexivity.
Qed.

Lemma appendInt_2 (n : Z) (rest : string) :
  0 <= n < 100 -> time.appendInt n 2 +:+ rest = twoDigits n rest.
Proof.
  intros H. unfold time.appendInt.
  assert ((n <? 0) = false) as -> by lia.
  rewrite Z.abs_eq by lia.
  assert ((n <? 100) = true) as -> by lia.
  reflexivity.
Qed.

Lemma appendInt_4 (n : Z) (rest : string) :
  0 <= n < 10000 -> time.appendInt n 4 +:+ rest = fourDigits n rest.
Proof.
  intros H. unfold time.appendInt.
  assert ((n <? 0) = false) as -> by lia.
  rewrite Z.abs_eq by lia.
  assert ((n <? 10000) = true) as -> by lia.
  reflexivity.
Qed.

Lemma getnum_twoDigits (n : Z) (rest : string) (fixed : bool) :
  0 <= n < 100 -> time.getnum (twoDigits n rest) fixed = Some (n, rest).
Proof.
  intros H. unfold time.getnum, twoDigits.
  destruct (digitChar_digit (n / 10)) as [-> ->]; [Z.div_mod_to_equations; lia|].
  destruct (digitChar_digit (n mod 10)) as [-> ->]; [Z.div_mod_to_equations; lia|].
  do 2 f_equal. Z.div_mod_to_equations; lia.
Qed.

Lemma getLongYear_fourDigits (n : Z) (rest : string) :
  0 <= n < 10000 -> time.getLongYear (fourDigits n rest) = Some (n, rest).
Proof.
  intros H. unfold time.getLongYear, fourDigits, twoDigits.
  destruct (digitChar_digit (n / 100 / 10)) as [-> ->]; [Z.div_mod_to_equations; lia|].
  destruct (digitChar_digit (n / 100 mod 10)) as [-> ->]; [Z.div_mod_to_equations; lia|].
  destruct (digitChar_digit (n mod 100 / 10)) as [-> ->]; [Z.div_mod_to_equations; lia|].
  destruct (digitChar_digit (n mod 100 mod 10)) as [-> ->]; [Z.div_mod_to_equations; lia|].
  cbn [andb]. do 2 f_equal. Z.div_mod_to_equations; lia.
Qed.

(** ** Formatting a time and parsing it back *)

Lemma daysIn_le_31 (month year : Z) :
  1 <= month <= 12 -> time.daysIn month year <= 31.
Proof.
  intros Hm. unfold time.daysIn.
  destruct ((month =? 2) && time.isLeap year); [lia|].
  assert (Hc : month = 1 \/ month = 2 \/ month = 3 \/ month = 4 \/ month = 5
               \/ month = 6 \/ month = 7 \/ month = 8 \/ month = 9 \/ month = 10
               \/ month = 11 \/ month = 12) by lia.
  repeat (destruct Hc as [->|Hc]; [vm_compute; discriminate|]).
  subst. vm_compute; discriminate.
Qed.

Lemma Format_civil (c : civil) (ns : Z) :
  validCivil c -> 0 <= ns < 1000000000 ->
  time.Format_RFC3339 (civilDate c ns) = rfc3339String c.
Proof.
  intros Hc Hns. unfold time.Format_RFC3339.
  destruct (date_clock_Date c ns Hc Hns) as [-> ->].
  destruct Hc as (Hy & Hm & Hd & Hh & Hmi & Hs).
  pose proof (daysIn_le_31 (c_month c) (c_year c) Hm) as Hd'.
  rewrite (appendInt_2 (c_sec c)) by lia.
  change (":" +:+ ?x) with (String ":" x).
  rewrite (appendInt_2 (c_min c)) by lia.
  change (":" +:+ ?x) with (String ":" x).
  rewrite (appendInt_2 (c_hour c)) by lia.
  change ("T" +:+ ?x) with (String "T" x).
  rewrite (appendInt_2 (c_day c)) by lia.
  change ("-" +:+ ?x) with (String "-" x).
  rewrite (appendInt_2 (c_month c)) by lia.
  change ("-" +:+ ?x) with (String "-" x).
  rewrite (appendInt_4 (c_year c)) by lia.
  reflexivity.
Qed.

Lemma skip_byte (c : ascii) (rest : string) :
  time.isSpace c = false -> time.skip (String c rest) (String c "") = Some rest.
Proof.
  intros H. unfold time.skip. cbn [time.skip_from]. rewrite H.
  rewrite Ascii.eqb_refl. reflexivity.
Qed.

Lemma Parse_rfc3339String (c : civil) :
  validCivil c -> time.Parse time.RFC3339 (rfc3339String c) = Some (civilDate c 0).
Proof.
  intros (Hy & Hm & Hd & Hh & Hmi & Hs).
  pose proof (daysIn_le_31 (c_month c) (c_year c) Hm) as Hd'.
  unfold time.Parse, time.RFC3339, rfc3339String.
  lazy beta iota zeta delta [time.parseChunks time.f_year time.f_month
       time.f_day time.f_hour time.f_min time.f_sec time.f_nsec time.f_utc
       time.f_zoneOffset time.noFields].
  rewrite getLongYear_fourDigits by lia.
  rewrite skip_byte by reflexivity.
  rewrite getnum_twoDigits by lia.
  assert (((c_month c <=? 0) || (12 <? c_month c)) = false) as -> by lia.
  rewrite skip_byte by reflexivity.
  rewrite getnum_twoDigits by lia.
  rewrite skip_byte by reflexivity.
  rewrite getnum_twoDigits by lia.
  assert (((c_hour c <? 0) || (24 <=? c_hour c)) = false) as -> by lia.
  rewrite skip_byte by reflexivity.
  rewrite getnum_twoDigits by lia.
  assert (((c_min c <? 0) || (60 <=? c_min c)) = false) as -> by lia.
  rewrite skip_byte by reflexivity.
  rewrite getnum_twoDigits by lia.
  assert (((c_sec c <? 0) || (60 <=? c_sec c)) = false) as -> by lia.
  lazy beta iota zeta delta [time.nextStd time.getFraction time.getZone
       time.f_year time.f_month time.f_day time.f_hour time.f_min time.f_sec
       time.f_nsec time.f_utc time.f_zoneOffset time.noFields].
  assert ((c_month c <? 0) = false) as -> by lia.
  assert ((c_day c <? 0) = false) as -> by lia.
  assert (((c_day c <? 1) || (time.daysIn (c_month c) (c_year c) <? c_day c)) = false)
    as -> by lia.
  reflexivity.
Qed.

(** ** What the parser accepts *)

Lemma getnum_range s fixed n r :
  time.getnum s fixed = Some (n, r) -> 0 <= n <= 99.
Proof.
  unfold time.getnum. intros H.
  destruct s as [|c0 r0]; [discriminate|].
  destruct (isDigit c0) eqn:E0; [|discriminate].
  apply isDigit_range in E0.
  destruct r0 as [|c1 r1].
  - destruct fixed; inversion H; subst; lia.
  - destruct (isDigit c1) eqn:E1.
    + apply isDigit_range in E1. inversion H; subst; lia.
    + destruct fixed; inversion H; subst; lia.
Qed.

Lemma getLongYear_range value y r :
  time.getLongYear value = Some (y, r) -> 0 <= y <= 9999.
Proof.
  unfold time.getLongYear. intros H.
  destruct value as [|a [|b [|c [|d rest]]]]; try discriminate.
  destruct (isDigit a) eqn:Ea; [|discriminate].
  destruct (isDigit b) eqn:Eb; [|discriminate].
  destruct (isDigit c) eqn:Ec; [|discriminate].
  destruct (isDigit d) eqn:Ed; [|discriminate].
  apply isDigit_range in Ea, Eb, Ec, Ed. inversion H; subst; lia.
Qed.

Lemma spanDigits_range s : Forall (fun d => 0 <= d <= 9) (fst (spanDigits s)).
Proof.
  induction s as [|c r IH]; cbn [spanDigits]; [constructor|].
  destruct (isDigit c) eqn:E; [|constructor].
  destruct (spanDigits r) as [ds rest]. cbn [fst] in *.
  constructor; [apply isDigit_range, E|exact IH].
Qed.

Lemma decimalValue_bound ds acc :
  Forall (fun d => 0 <= d <= 9) ds -> 0 <= acc ->
  acc * 10 ^ Z.of_nat (length ds)
  <= fold_left (fun a d => a * 10 + d) ds acc
  < (acc + 1) * 10 ^ Z.of_nat (length ds).
Proof.
  intros H. revert acc. induction H as [|d ds Hd _ IH]; intros acc Hacc.
  - cbn. lia.
  - cbn [fold_left length]. rewrite Nat2Z.inj_succ, Z.pow_succ_r by lia.
    specialize (IH (acc * 10 + d) ltac:(lia)).
    assert (0 < 10 ^ Z.of_nat (length ds)) by (apply Z.pow_pos_nonneg; lia).
    nia.
Qed.

Lemma parseNanoseconds_range ds :
  Forall (fun d => 0 <= d <= 9) ds -> 0 <= time.parseNanoseconds ds < 1000000000.
Proof.
  intros H. unfold time.parseNanoseconds, decimalValue.
  assert (Hf : Forall (fun d => 0 <= d <= 9) (firstn 9 ds)) by (apply Forall_take, H).
  pose proof (decimalValue_bound _ 0 Hf ltac:(lia)) as Hb.
  assert (Hl : (length (firstn 9 ds) <= 9)%nat) by (rewrite length_take; lia).
  set (n := Z.of_nat (length (firstn 9 ds))) in *.
  assert (Hn : 0 <= n <= 9) by lia.
  assert (Hp : 10 ^ n * 10 ^ (9 - n) = 1000000000).
  { rewrite <- Z.pow_add_r by lia. replace (n + (9 - n)) with 9 by lia. reflexivity. }
  assert (0 < 10 ^ n) by (apply Z.pow_pos_nonneg; lia).
  assert (0 < 10 ^ (9 - n)) by (apply Z.pow_pos_nonneg; lia).
  nia.
Qed.

Lemma getFraction_range value ns r :
  time.getFraction value = Some (ns, r) -> 0 <= ns < 1000000000.
Proof.
  unfold time.getFraction. intros H.
  destruct value as [|c0 [|c1 rest]]; try discriminate.
  destruct (time.commaOrPeriod c0 && isDigit c1); [|discriminate].
  pose proof (spanDigits_range (String c1 rest)) as Hr.
  destruct (spanDigits (String c1 rest)) as [ds rest'].
  inversion H; subst. apply parseNanoseconds_range, Hr.
Qed.

Lemma getZone_range value utc off r :
  time.getZone value = Some (utc, off, r) ->
  (utc = true /\ off = -1) \/ (utc = false /\ -90000 <= off <= 90000).
Proof.
  unfold time.getZone. intros H.
  destruct value as [|sign rest]; [discriminate|].
  destruct (Ascii.eqb_spec sign "Z"%char) as [->|Hz].
  - inversion H; subst. left; split; reflexivity.
  - assert (Hgen :
      match rest with
      | String h1 (String h2 (String colon (String m1 (String m2 rest)))) =>
          if negb (Ascii.eqb colon ":") then None
          else
            match time.getnum (String h1 (String h2 "")) true,
                  time.getnum (String m1 (String m2 "")) true with
            | Some (hr, _), Some (mm, _) =>
                if (24 <? hr) || (60 <? mm) then None
                else
                  let off := (hr * 60 + mm) * 60 in
                  if Ascii.eqb sign "+" then Some (false, off, rest)
                  else if Ascii.eqb sign "-" then Some (false, - off, rest)
                  else None
            | _, _ => None
            end
      | _ => None
      end = Some (utc, off, r)).
    { rewrite <- H. destruct sign as [[] [] [] [] [] [] [] []]; try reflexivity.
      exfalso; apply Hz; reflexivity. }
    clear H. destruct rest as [|h1 [|h2 [|colon [|m1 [|m2 rest]]]]]; try discriminate.
    destruct (negb (Ascii.eqb colon ":")); [discriminate|].
    destruct (time.getnum (String h1 (String h2 "")) true) as [[hr ?]|] eqn:Eh; [|discriminate].
    destruct (time.getnum (String m1 (String m2 "")) true) as [[mm ?]|] eqn:Em; [|discriminate].
    apply getnum_range in Eh, Em.
    destruct ((24 <? hr) || (60 <? mm)) eqn:Er; [discriminate|].
    apply orb_false_iff in Er as [Er1 Er2].
    right. cbv zeta in Hgen.
    destruct (Ascii.eqb sign "+"); [inversion Hgen; subst; split; [reflexivity|lia]|].
    destruct (Ascii.eqb sign "-"); [inversion Hgen; subst; split; [reflexivity|lia]|].
    discriminate.
Qed.

Lemma noFields_ok : fieldsOk time.noFields.
Proof. unfold fieldsOk, time.noFields. cbn. lia. Qed.

Lemma parseChunks_ok layout : forall value f f',
  fieldsOk f -> time.parseChunks layout value f = Some f' -> fieldsOk f'.
Proof.
  induction layout as [|c rest IH]; intros value f f' Hf H; cbn [time.parseChunks] in H.
  - destruct value; [|discriminate]. inversion H; subst; exact Hf.
  - destruct Hf as (Hy & Hmo & Hd & Hh & Hmi & Hs & Hn & Hz).
    destruct c.
    + destruct (time.skip value text); [|discriminate].
      eapply IH; [|exact H]. unfold fieldsOk; lia.
    + destruct (time.getLongYear value) as [[y v]|] eqn:E; [|discriminate].
      apply getLongYear_range in E.
      eapply IH; [|exact H]. unfold fieldsOk; cbn; lia.
    + destruct (time.getnum value true) as [[m v]|] eqn:E; [|discriminate].
      destruct ((m <=? 0) || (12 <? m)) eqn:Er; [discriminate|].
      eapply IH; [|exact H]. unfold fieldsOk; cbn; lia.
    + destruct (time.getnum value true) as [[d v]|] eqn:E; [|discriminate].
      apply getnum_range in E.
      eapply IH; [|exact H]. unfold fieldsOk; cbn; lia.
    + destruct (time.getnum value false) as [[h v]|] eqn:E; [|discriminate].
      destruct ((h <? 0) || (24 <=? h)) eqn:Er; [discriminate|].
      eapply IH; [|exact H]. unfold fieldsOk; cbn; lia.
    + destruct (time.getnum value true) as [[m v]|] eqn:E; [|discriminate].
      destruct ((m <? 0) || (60 <=? m)) eqn:Er; [discriminate|].
      eapply IH; [|exact H]. unfold fieldsOk; cbn; lia.
    + destruct (time.getnum value true) as [[s v]|] eqn:E; [|discriminate].
      destruct ((s <? 0) || (60 <=? s)) eqn:Er; [discriminate|].
      cbv zeta in H. cbn [time.f_year time.f_month time.f_day time.f_hour
        time.f_min time.f_sec time.f_nsec time.f_utc time.f_zoneOffset] in H.
      assert (Hbase : fieldsOk (time.mkFields (time.f_year f) (time.f_month f)
                (time.f_day f) (time.f_hour f) (time.f_min f) s (time.f_nsec f)
                (time.f_utc f) (time.f_zoneOffset f))).
      { unfold fieldsOk; cbn; lia. }
      destruct (time.getFraction v) as [[ns v']|] eqn:Ef.
      * apply getFraction_range in Ef.
        assert (Hfrac : fieldsOk (time.mkFields (time.f_year f) (time.f_month f)
                  (time.f_day f) (time.f_hour f) (time.f_min f) s ns
                  (time.f_utc f) (time.f_zoneOffset f))).
        { unfold fieldsOk; cbn; lia. }
        destruct (time.nextStd rest) as [[]|]; eapply IH; try exact H; assumption.
      * destruct (time.nextStd rest) as [[]|]; eapply IH; try exact H; assumption.
    + destruct (time.getFraction value) as [[ns v']|] eqn:Ef.
      * apply getFraction_range in Ef.
        eapply IH; [|exact H]. unfold fieldsOk; cbn; lia.
      * eapply IH; [|exact H]. unfold fieldsOk; lia.
    + destruct (time.getZone value) as [[[utc off] v]|] eqn:E; [|discriminate].
      apply getZone_range in E.
      eapply IH; [|exact H]. unfold fieldsOk; cbn.
      destruct E as [[-> ->]|[-> E]]; cbn; lia.
Qed.

Lemma parseChunks_nozone layout : forall value f f',
  forallb (fun c => negb (hasZone c)) layout = true ->
  time.parseChunks layout value f = Some f' ->
  time.f_utc f' = time.f_utc f /\ time.f_zoneOffset f' = time.f_zoneOffset f.
Proof.
  induction layout as [|c rest IH]; intros value f f' Hl H; cbn [time.parseChunks] in H.
  - destruct value; [|discriminate]. inversion H; subst; split; reflexivity.
  - cbn [forallb] in Hl. apply andb_true_iff in Hl as [Hc Hl].
    destruct c; try discriminate Hc.
    + destruct (time.skip value text); [|discriminate]. eapply IH; eassumption.
    + destruct (time.getLongYear value) as [[y v]|]; [|discriminate].
      apply (IH _ _ _ Hl) in H. exact H.
    + destruct (time.getnum value true) as [[m v]|]; [|discriminate].
      destruct ((m <=? 0) || (12 <? m)); [discriminate|].
      apply (IH _ _ _ Hl) in H. exact H.
    + destruct (time.getnum value true) as [[m v]|]; [|discriminate].
      apply (IH _ _ _ Hl) in H. exact H.
    + destruct (time.getnum value false) as [[m v]|]; [|discriminate].
      destruct ((m <? 0) || (24 <=? m)); [discriminate|].
      apply (IH _ _ _ Hl) in H. exact H.
    + destruct (time.getnum value true) as [[m v]|]; [|discriminate].
      destruct ((m <? 0) || (60 <=? m)); [discriminate|].
      apply (IH _ _ _ Hl) in H. exact H.
    + destruct (time.getnum value true) as [[m v]|]; [|discriminate].
      destruct ((m <? 0) || (60 <=? m)); [discriminate|].
      cbv zeta in H.
      destruct (time.getFraction v) as [[ns v']|];
        destruct (time.nextStd rest) as [[]|]; apply (IH _ _ _ Hl) in H; exact H.
    + destruct (time.getFraction value) as [[ns v']|]; apply (IH _ _ _ Hl) in H; exact H.
Qed.

(** ** Times that come out of the parser *)

Lemma Parse_inv (layout : list time.chunk) (value : string) (t : time.Time) :
  time.Parse layout value = Some t ->
  exists c ns, validCivil c /\ 0 <= ns < 1000000000
    /\ (t = civilDate c ns
        \/ exists off, -90000 <= off <= 90000 /\ t = time.addSec (civilDate c ns) off).
Proof.
  unfold time.Parse. intros H.
  destruct (time.parseChunks layout value time.noFields) as [f|] eqn:E; [|discriminate].
  apply parseChunks_ok in E; [|apply noFields_ok].
  destruct E as (Hy & Hmo & Hd & Hh & Hmi & Hs & Hn & Hz).
  set (month := if time.f_month f <? 0 then 1 else time.f_month f) in *.
  set (day := if time.f_day f <? 0 then 1 else time.f_day f) in *.
  destruct ((day <? 1) || (time.daysIn month (time.f_year f) <? day)) eqn:Ed; [discriminate|].
  apply orb_false_iff in Ed as [Ed1 Ed2].
  exists (mkCivil (time.f_year f) month day (time.f_hour f) (time.f_min f) (time.f_sec f)),
    (time.f_nsec f).
  split; [|split; [exact Hn|]].
  - unfold validCivil; cbn [c_year c_month c_day c_hour c_min c_sec].
    assert (1 <= month <= 12) by (subst month; destruct (time.f_month f <? 0) eqn:?; lia).
    lia.
  - unfold civilDate; cbn [c_year c_month c_day c_hour c_min c_sec].
    destruct (time.f_utc f); [left; congruence|].
    destruct (negb (time.f_zoneOffset f =? -1)).
    + right. exists (- time.f_zoneOffset f). split; [lia|congruence].
    + left; congruence.
Qed.

Lemma Parse_nozone_inv (layout : list time.chunk) (value : string) (t : time.Time) :
  forallb (fun c => negb (hasZone c)) layout = true ->
  time.Parse layout value = Some t ->
  exists c ns, validCivil c /\ 0 <= ns < 1000000000 /\ t = civilDate c ns.
Proof.
  intros Hl H.
  destruct (Parse_inv _ _ _ H) as (c & ns & Hc & Hns & [Ht|Ht]); [eauto|].
  revert H. unfold time.Parse.
  destruct (time.parseChunks layout value time.noFields) as [f|] eqn:E; [|discriminate].
  pose proof (parseChunks_nozone _ _ _ _ Hl E) as [Hu Ho].
  pose proof (parseChunks_ok _ _ _ _ noFields_ok E) as (Hy & Hmo & Hd & Hh & Hmi & Hs & Hn & Hz).
  cbn in Hu, Ho. rewrite Hu, Ho. cbn [negb Z.eqb].
  set (month := if time.f_month f <? 0 then 1 else time.f_month f) in *.
  set (day := if time.f_day f <? 0 then 1 else time.f_day f) in *.
  destruct ((day <? 1) || (time.daysIn month (time.f_year f) <? day)) eqn:Ed; [discriminate|].
  apply orb_false_iff in Ed as [Ed1 Ed2].
  intros Heq.
  exists (mkCivil (time.f_year f) month day (time.f_hour f) (time.f_min f) (time.f_sec f)),
    (time.f_nsec f).
  split; [|split; [exact Hn|]].
  - unfold validCivil; cbn [c_year c_month c_day c_hour c_min c_sec].
    assert (1 <= month <= 12) by (subst month; destruct (time.f_month f <? 0) eqn:?; lia).
    lia.
  - unfold civilDate; cbn [c_year c_month c_day c_hour c_min c_sec].
    change (negb (1 =? 1)%positive) with false in Heq. congruence.
Qed.

Lemma daysSinceEpoch_bound (year : Z) :
  0 <= year <= 9999 -> -366 <= time.daysSinceEpoch year <= 3652059.
Proof.
  intros Hy.
  destruct (cycle_split year) as (q & a & b & c & Ha & Hb & Hc & ->).
  rewrite daysSinceEpoch_cycle by assumption. lia.
Qed.

Lemma civilDate_valid (c : civil) (ns : Z) :
  validCivil c -> 0 <= ns < 1000000000 ->
  time.nsec (civilDate c ns) = ns
  /\ -31622400 <= time.sec (civilDate c ns) <= 315569606399.
Proof.
  intros Hc Hns. rewrite Date_valid by assumption. cbn [time.sec time.nsec].
  destruct Hc as (Hy & Hm & Hd & Hh & Hmi & Hs).
  destruct (monthDay_ydayOf _ _ _ Hm Hd) as [_ Hyd].
  pose proof (daysSinceEpoch_bound _ Hy).
  unfold yearLength in Hyd. destruct (time.isLeap (c_year c)); lia.
Qed.

Lemma Parse_valid (layout : list time.chunk) (value : string) (t : time.Time) :
  time.Parse layout value = Some t -> validTime t.
Proof.
  intros H.
  destruct (Parse_inv _ _ _ H) as (c & ns & Hc & Hns & Ht).
  destruct (civilDate_valid c ns Hc Hns) as [Hn Hs].
  unfold validTime. change (2 ^ 61) with 2305843009213693952.
  destruct Ht as [->|(off & Hoff & ->)].
  - lia.
  - unfold time.addSec. cbn [time.sec time.nsec].
    rewrite wrap64_id by (unfold in_int64, int64_min, int64_max;
      change (2 ^ 63) with 9223372036854775808; lia).
    lia.
Qed.

Lemma zeroTime_valid : validTime time.zeroTime.
Proof. unfold validTime, time.zeroTime. cbn. lia. Qed.

Lemma UnixMilli_spec (msec : Z) :
  in_int64 msec ->
  validTime (time.UnixMilli msec)
  /\ nanos (time.UnixMilli msec) = time.unixToInternal * 1000000000 + msec * 1000000.
Proof.
  intros Hm. unfold time.UnixMilli, time.Unix, validTime, nanos, time.unixToInternal.
  pose proof (Z.quot_rem' msec 1000) as Hqr.
  pose proof (Z.rem_bound_abs msec 1000 ltac:(lia)) as Hr.
  set (q := Z.quot msec 1000) in *. set (r := Z.rem msec 1000) in *.
  z_consts.
  assert (Hq : -9223372036854776 <= q <= 9223372036854776) by lia.
  assert (Hn : Z.quot (r * 1000000) 1000000000 = 0).
  { apply Z.quot_small_iff; lia. }
  assert (W0 : wrap64 (q + 0) = q) by (rewrite Z.add_0_r; apply wrap64_id; z_consts; lia).
  assert (W1 : wrap64 (q - 1) = q - 1) by (apply wrap64_id; z_consts; lia).
  assert (W2 : wrap64 (q - 1 + 62135596800) = q - 1 + 62135596800)
    by (apply wrap64_id; z_consts; lia).
  assert (W3 : wrap64 (q + 62135596800) = q + 62135596800)
    by (apply wrap64_id; z_consts; lia).
  destruct ((r * 1000000 <? 0) || (1000000000 <=? r * 1000000)) eqn:E.
  - rewrite Hn, W0.
    destruct (r * 1000000 - 0 * 1000000000 <? 0) eqn:E2;
      cbn [time.sec time.nsec]; rewrite ?W1, ?W2, ?W3; lia.
  - cbn [time.sec time.nsec]. rewrite W3. lia.
Qed.

(** ** One step of the comparison *)

Lemma compareLine_matched index st avroRec binlogEvt :
  missingKey avroRec = false ->
  index !! keyOf avroRec = Some binlogEvt ->
  compareLine index st (Some avroRec)
  = match parseBinlogTime binlogEvt with
    | None =>
        mkCompareState (incr (lineNum st)) (incr (matches st))
          (incr (mismatches st)) (avroOnly st)
          (<[keyOf avroRec := true]> (binlogMatchedKeys st))
          (stdout st ++ [errorFinding (incr (lineNum st)) avroRec binlogEvt])
          (stderr st)
    | Some binlogTime =>
        consistencyChecks st (incr (lineNum st)) (incr (matches st))
          (<[keyOf avroRec := true]> (binlogMatchedKeys st)) (keyOf avroRec)
          avroRec binlogEvt binlogTime
    end.
Proof.
  intros Hk Hi. unfold compareLine. rewrite Hk. cbv zeta. rewrite Hi. reflexivity.
Qed.

Lemma consistencyChecks_spec st n m matched avroRec binlogEvt binlogTime :
  let st' := consistencyChecks st n m matched (keyOf avroRec) avroRec binlogEvt binlogTime in
  lineNum st' = n /\ matches st' = m /\ avroOnly st' = avroOnly st
  /\ binlogMatchedKeys st' = matched /\ stderr st' = stderr st
  /\ mismatches st' = (if timestampMismatch avroRec binlogTime
                       then incr (mismatches st) else mismatches st)
  /\ stdout st' = stdout st
       ++ (if timestampMismatch avroRec binlogTime
           then [timestampFinding n avroRec binlogEvt binlogTime] else [])
       ++ (if gtidMismatch avroRec binlogEvt then [gtidFinding n avroRec binlogEvt] else [])
       ++ (if changeTypeMismatch avroRec binlogEvt
           then [changeTypeFinding n avroRec binlogEvt] else []).
Proof.
  unfold consistencyChecks, timestampFinding, gtidFinding, changeTypeFinding.
  destruct (timestampMismatch avroRec binlogTime),
    (gtidMismatch avroRec binlogEvt), (changeTypeMismatch avroRec binlogEvt);
    cbn; rewrite <- ?app_assoc, ?app_nil_r; repeat split; reflexivity.
Qed.

Lemma newFindings_app st st' l : stdout st' = stdout st ++ l -> newFindings st st' = l.
Proof. unfold newFindings. intros ->. apply drop_app_length. Qed.

Lemma newDiagnostics_app st st' l : stderr st' = stderr st ++ l -> newDiagnostics st st' = l.
Proof. unfold newDiagnostics. intros ->. apply drop_app_length. Qed.

Lemma parseBinlogTime_valid binlogEvt binlogTime :
  parseBinlogTime binlogEvt = Some binlogTime -> validTime binlogTime.
Proof.
  unfold parseBinlogTime. intros H.
  destruct (negb _); [eapply Parse_valid, H|].
  destruct (negb _); [eapply Parse_valid, H|].
  inversion H; subst. apply zeroTime_valid.
Qed.

Lemma timestampMismatch_spec avroRec binlogTime :
  in_int64 (AvroRecord.SourceTimestamp avroRec) -> validTime binlogTime ->
  timestampMismatch avroRec binlogTime
  = (100000000 <? Z.abs (AvroRecord.SourceTimestamp avroRec * 1000000 - unixNano binlogTime)).
Proof.
  intros Hms Hbt. unfold timestampMismatch, tolerance.
  destruct (UnixMilli_spec _ Hms) as [Hv Hn].
  rewrite Sub_spec by assumption. rewrite Hn.
  rewrite Abs_clamp64_gt by (vm_compute; split; [discriminate|reflexivity]).
  unfold unixNano, time.Millisecond. f_equal. f_equal. lia.
Qed.

(** ** The scan as a whole *)

Lemma joinState_eq st1 st2 :
  joinState st1 = joinState st2 <->
  matches st1 = matches st2 /\ mismatches st1 = mismatches st2
  /\ avroOnly st1 = avroOnly st2 /\ binlogMatchedKeys st1 = binlogMatchedKeys st2.
Proof.
  unfold joinState. split.
  - intros H. inversion H. auto.
  - intros (-> & -> & -> & ->). reflexivity.
Qed.

Lemma consistencyChecks_joinState st1 st2 n1 n2 m1 m2 matched key avroRec binlogEvt binlogTime :
  m1 = m2 -> mismatches st1 = mismatches st2 -> avroOnly st1 = avroOnly st2 ->
  joinState (consistencyChecks st1 n1 m1 matched key avroRec binlogEvt binlogTime)
  = joinState (consistencyChecks st2 n2 m2 matched key avroRec binlogEvt binlogTime).
Proof.
  intros -> Hmm Ha. unfold consistencyChecks.
  destruct (timestampMismatch avroRec binlogTime); cbn; unfold joinState; cbn;
    rewrite Hmm, Ha; reflexivity.
Qed.

Lemma compareLine_joinState index st1 st2 line :
  joinState st1 = joinState st2 ->
  joinState (compareLine index st1 line) = joinState (compareLine index st2 line).
Proof.
  intros H. apply joinState_eq in H as (Hm & Hmm & Ha & Hk).
  unfold compareLine. destruct line as [avroRec|].
  - destruct (missingKey avroRec).
    + apply joinState_eq; cbn; auto.
    + cbv zeta. destruct (index !! keyOf avroRec) as [binlogEvt|].
      * destruct (parseBinlogTime binlogEvt) as [binlogTime|].
        -- rewrite Hk. apply consistencyChecks_joinState; congruence.
        -- apply joinState_eq; cbn. rewrite Hm, Hmm, Ha, Hk. auto.
      * apply joinState_eq; cbn. rewrite Hm, Hmm, Ha, Hk. auto.
  - apply joinState_eq; cbn; auto.
Qed.

Lemma scan_joinState index lines : forall st1 st2,
  joinState st1 = joinState st2 ->
  joinState (scan index st1 lines) = joinState (scan index st2 lines).
Proof.
  unfold scan. induction lines as [|line lines IH]; intros st1 st2 H; cbn [fold_left].
  - exact H.
  - apply IH, compareLine_joinState, H.
Qed.

Lemma scan_app index st l1 l2 :
  scan index st (l1 ++ l2) = scan index (scan index st l1) l2.
Proof. unfold scan. apply fold_left_app. Qed.

Lemma scan_lineNum index lines : forall st,
  lineNum (scan index st lines) = Nat.iter (length lines) incr (lineNum st).
Proof.
  unfold scan. induction lines as [|line lines IH]; intros st; cbn [fold_left length].
  - reflexivity.
  - rewrite IH. rewrite Nat.iter_succ_r. f_equal.
    unfold compareLine. destruct line as [avroRec|]; [|reflexivity].
    destruct (missingKey avroRec); [reflexivity|]. cbv zeta.
    destruct (index !! keyOf avroRec) as [binlogEvt|]; [|reflexivity].
    destruct (parseBinlogTime binlogEvt) as [binlogTime|]; [|reflexivity].
    apply consistencyChecks_spec.
Qed.

Lemma scan_stderr_mono index lines : forall st d,
  In d (stderr st) -> In d (stderr (scan index st lines)).
Proof.
  unfold scan. induction lines as [|line lines IH]; intros st d H; cbn [fold_left].
  - exact H.
  - apply IH. unfold compareLine. destruct line as [avroRec|].
    + destruct (missingKey avroRec); [cbn; apply in_or_app; auto|]. cbv zeta.
      destruct (index !! keyOf avroRec) as [binlogEvt|]; [|exact H].
      destruct (parseBinlogTime binlogEvt) as [binlogTime|]; [|exact H].
      destruct (consistencyChecks_spec st (incr (lineNum st)) (incr (matches st))
        (<[keyOf avroRec := true]> (binlogMatchedKeys st)) avroRec binlogEvt binlogTime)
        as (_ & _ & _ & _ & -> & _). exact H.
    + cbn. apply in_or_app; auto.
Qed.

(** A line that leaves the join state alone can be dropped from the input
    without changing what the join computes. *)
Lemma scan_skip index line l1 l2 st :
  (forall st0, joinState (compareLine index st0 line) = joinState st0) ->
  joinState (scan index st (l1 ++ line :: l2)) = joinState (scan index st (l1 ++ l2)).
Proof.
  intros Hskip. rewrite !scan_app.
  change (scan index (scan index st l1) (line :: l2))
    with (scan index (compareLine index (scan index st l1) line) l2).
  apply scan_joinState, Hskip.
Qed.

Lemma report_joinState index lines1 lines2 :
  joinState (scan index initialState lines1) = joinState (scan index initialState lines2) ->
  let r1 := compareAvroWithBinlog index lines1 in
  let r2 := compareAvroWithBinlog index lines2 in
  matches (final r1) = matches (final r2)
  /\ mismatches (final r1) = mismatches (final r2)
  /\ avroOnly (final r1) = avroOnly (final r2)
  /\ binlogOnly r1 = binlogOnly r2
  /\ verdict r1 = verdict r2.
Proof.
  intros H. apply joinState_eq in H as (Hm & Hmm & Ha & Hk).
  unfold compareAvroWithBinlog. cbv zeta.
  set (s1 := scan index initialState lines1) in *.
  set (s2 := scan index initialState lines2) in *.
  assert (Hb : forall out1 out2,
    fst (unmatched index (binlogMatchedKeys s1) out1)
    = fst (unmatched index (binlogMatchedKeys s2) out2)).
  { intros out1 out2. rewrite Hk. unfold unmatched.
    generalize (map_to_list index). intros l.
    assert (Hg : forall acc1 acc2, fst acc1 = fst acc2 ->
      fst (fold_left (binlogOnlyStep (binlogMatchedKeys s2)) l acc1)
      = fst (fold_left (binlogOnlyStep (binlogMatchedKeys s2)) l acc2)).
    { induction l as [|[k e] l IH]; intros acc1 acc2 Hacc; cbn [fold_left]; [exact Hacc|].
      apply IH. unfold binlogOnlyStep.
      destruct (negb _); [|exact Hacc].
      destruct (isDML _); [|exact Hacc]. cbn. congruence. }
    apply Hg. reflexivity. }
  specialize (Hb (stdout s1) (stdout s2)).
  destruct (unmatched index (binlogMatchedKeys s1) (stdout s1)) as [b1 o1].
  destruct (unmatched index (binlogMatchedKeys s2) (stdout s2)) as [b2 o2].
  cbn [fst] in Hb. subst b2. cbn [final binlogOnly verdict].
  rewrite Hm, Hmm, Ha. auto.
Qed.

(** ** The claims about the comparison *)

Lemma incr_neq' (x : Z) : x <> incr x.
Proof. intros H. symmetry in H. exact (incr_neq x H). Qed.

Lemma eqb_empty_false (s : string) : negb (String.eqb s "") = true <-> s <> "".
Proof. rewrite negb_true_iff. apply String.eqb_neq. Qed.

(** *** C1 *)

(** C1 (the code departs from the claim): the mutation-kind check tests the
    suffix [DeleteRowsV2], so an indexed event of type [DeleteRowsEventV2],
    the name the normalizer gives to delete events and the one the
    index-only report recognises, is mapped to no mutation kind, and an Avro
    record that declares an insert for it is reported as consistent. *)
Theorem delete_rows_event_v2_not_inferred :
  inferredBinlogChangeType "DeleteRowsEventV2" = ""
  /\ inferredBinlogChangeType "WriteRowsEventV2" = "INSERT"
  /\ inferredBinlogChangeType "UpdateRowsEventV2" = "UPDATE"
  /\ fst (setField (fun _ => None) ∅ "Event type" "DeleteRowsEventV2") !! "event_type"
     = Some (FString "DeleteRowsEventV2")
  /\ isDML "DeleteRowsEventV2" = true
  /\ isRelevantEventType "DeleteRowsEventV2" = true
  /\ changeTypeMismatch insertRecord deleteEvent = false
  /\ newFindings initialState
       (compareLine (scenarioIndex deleteEvent) initialState (Some insertRecord)) = [].
Proof. repeat split; vm_compute; reflexivity. Qed.

(** *** C2 *)

(** C2: for a matched pair whose indexed timestamp did not fail to parse,
    the mismatch counter is incremented (and the timestamp finding printed)
    exactly when the Avro timestamp and the indexed timestamp are more than
    100 ms apart, the distance being taken in nanoseconds: at exactly 100 ms
    the pair is not a mismatch, one nanosecond further it is. *)
Theorem timestamp_mismatch_iff_beyond_tolerance
    (index : gmap BinlogKey BinlogEvent.t) (st : compareState)
    (avroRec : AvroRecord.t) (binlogEvt : BinlogEvent.t) (binlogTime : time.Time) :
  in_int64 (AvroRecord.SourceTimestamp avroRec) ->
  missingKey avroRec = false ->
  index !! keyOf avroRec = Some binlogEvt ->
  parseBinlogTime binlogEvt = Some binlogTime ->
  let st' := compareLine index st (Some avroRec) in
  let diff := Z.abs (AvroRecord.SourceTimestamp avroRec * 1000000 - unixNano binlogTime) in
  (mismatches st' = incr (mismatches st) <-> 100000000 < diff)
  /\ (In (timestampFinding (lineNum st') avroRec binlogEvt binlogTime) (newFindings st st')
      <-> 100000000 < diff)
  /\ (diff = 100000000 -> mismatches st' = mismatches st)
  /\ (diff = 100000001 -> mismatches st' = incr (mismatches st)).
Proof.
  intros Hms Hk Hi Hp st' diff.
  assert (Hst : st' = consistencyChecks st (incr (lineNum st)) (incr (matches st))
                  (<[keyOf avroRec := true]> (binlogMatchedKeys st)) (keyOf avroRec)
                  avroRec binlogEvt binlogTime).
  { unfold st'. rewrite (compareLine_matched _ _ _ _ Hk Hi), Hp. reflexivity. }
  destruct (consistencyChecks_spec st (incr (lineNum st)) (incr (matches st))
              (<[keyOf avroRec := true]> (binlogMatchedKeys st)) avroRec binlogEvt binlogTime)
    as (Hn & _ & _ & _ & _ & Hmm & Hout).
  rewrite <- Hst in Hn, Hmm, Hout.
  apply newFindings_app in Hout.
  rewrite timestampMismatch_spec in Hmm, Hout
    by (try assumption; eapply parseBinlogTime_valid, Hp).
  fold diff in Hmm, Hout. rewrite Hn, Hout, Hmm.
  destruct (Z.ltb_spec 100000000 diff) as [Hlt|Hge].
  - repeat split; try tauto; try lia.
    intros _. left. reflexivity.
  - repeat split; try lia.
    + intros H. exfalso. exact (incr_neq' _ H).
    + cbn [app]. intros H.
      destruct (gtidMismatch avroRec binlogEvt), (changeTypeMismatch avroRec binlogEvt);
        cbn in H; unfold timestampFinding, gtidFinding, changeTypeFinding in H;
        intuition discriminate.
Qed.

Lemma timestamp_mismatch_iff_beyond_tolerance_witness :
  mismatches (compareLine (scenarioIndex writeEvent) initialState (Some recordAt100ms))
  = mismatches initialState.
Proof.
  refine (proj1 (proj2 (proj2 (timestamp_mismatch_iff_beyond_tolerance
    (scenarioIndex writeEvent) initialState recordAt100ms writeEvent
    (time.mkTime 63839664000 0) _ _ _ _))) _).
  - vm_compute. split; discriminate.
  - reflexivity.
  - reflexivity.
  - reflexivity.
  - reflexivity.
Defined.

(** *** C3 *)

(** C3 as stated fails on the code: an indexed event with both timestamp
    fields empty has no parseable timestamp, yet the comparator reports no
    error for it; it compares the Avro timestamp with the zero time. *)
Lemma error_when_neither_parseable_fails :
  ~ errorWhenNeitherParseable (scenarioIndex untimedEvent) initialState
      insertRecord untimedEvent.
Proof.
  unfold errorWhenNeitherParseable, errorOutcome. intros H.
  destruct (H eq_refl eq_refl) as [Hf _].
  vm_compute in Hf. discriminate Hf.
Qed.

(** C3 (amended): for a matched pair the comparison runs against the commit
    timestamp when that field is non-empty and parses, and against the
    second-precision timestamp when the commit timestamp is empty and that
    field is non-empty and parses; when the field so selected is non-empty
    and does not parse, the record is reported as an error, the mismatch
    counter is incremented and no other check is run. *)
Theorem selected_timestamp_and_parse_error
    (index : gmap BinlogKey BinlogEvent.t) (st : compareState)
    (avroRec : AvroRecord.t) (binlogEvt : BinlogEvent.t) :
  missingKey avroRec = false ->
  index !! keyOf avroRec = Some binlogEvt ->
  let st' := compareLine index st (Some avroRec) in
  let commitTs := BinlogEvent.ImmediateCommmitTimestamp binlogEvt in
  let ts := BinlogEvent.Timestamp binlogEvt in
  let checked binlogTime :=
    consistencyChecks st (incr (lineNum st)) (incr (matches st))
      (<[keyOf avroRec := true]> (binlogMatchedKeys st)) (keyOf avroRec)
      avroRec binlogEvt binlogTime in
  (commitTs <> "" -> forall binlogTime,
     time.Parse time.RFC3339Nano commitTs = Some binlogTime -> st' = checked binlogTime)
  /\ (commitTs = "" -> ts <> "" -> forall binlogTime,
        time.Parse time.RFC3339 ts = Some binlogTime -> st' = checked binlogTime)
  /\ (commitTs <> "" -> time.Parse time.RFC3339Nano commitTs = None ->
      errorOutcome st st' avroRec binlogEvt)
  /\ (commitTs = "" -> ts <> "" -> time.Parse time.RFC3339 ts = None ->
      errorOutcome st st' avroRec binlogEvt).
Proof.
  intros Hk Hi st' commitTs ts checked.
  assert (Hst : st' = match parseBinlogTime binlogEvt with
                      | None =>
                          mkCompareState (incr (lineNum st)) (incr (matches st))
                            (incr (mismatches st)) (avroOnly st)
                            (<[keyOf avroRec := true]> (binlogMatchedKeys st))
                            (stdout st ++ [errorFinding (incr (lineNum st)) avroRec binlogEvt])
                            (stderr st)
                      | Some binlogTime => checked binlogTime
                      end).
  { unfold st'. apply compareLine_matched; assumption. }
  assert (Herr : parseBinlogTime binlogEvt = None -> errorOutcome st st' avroRec binlogEvt).
  { intros Hp. rewrite Hp in Hst. rewrite Hst. unfold errorOutcome. cbn [lineNum mismatches].
    split; [|reflexivity]. apply newFindings_app. reflexivity. }
  unfold parseBinlogTime in Hst, Herr. fold commitTs ts in Hst, Herr.
  split; [|split; [|split]].
  - intros Hne bt Hp. apply eqb_empty_false in Hne. rewrite Hne, Hp in Hst. exact Hst.
  - intros -> Hne bt Hp. apply eqb_empty_false in Hne. cbn [String.eqb negb] in Hst.
    rewrite Hne, Hp in Hst. exact Hst.
  - intros Hne Hp. apply eqb_empty_false in Hne. rewrite Hne in Herr. auto.
  - intros He Hne Hp. apply eqb_empty_false in Hne. rewrite He in Herr.
    cbn [String.eqb negb] in Herr. rewrite Hne in Herr. auto.
Qed.

Lemma selected_timestamp_and_parse_error_witness :
  errorOutcome initialState
    (compareLine (scenarioIndex garbledEvent) initialState (Some otherGtidRecord))
    otherGtidRecord garbledEvent.
Proof.
  refine (proj1 (proj2 (proj2 (selected_timestamp_and_parse_error
    (scenarioIndex garbledEvent) initialState otherGtidRecord garbledEvent _ _))) _ _).
  - reflexivity.
  - reflexivity.
  - discriminate.
  - reflexivity.
Defined.

(** *** C4 *)

(** C4 as stated fails on the code: for a matched pair whose indexed
    timestamp does not parse the GTID check is not reached, so differing
    identifiers are not reported. *)
Lemma gtid_reported_iff_fails :
  ~ gtidReportedIff initialState
      (compareLine (scenarioIndex garbledEvent) initialState (Some otherGtidRecord))
      otherGtidRecord garbledEvent.
Proof.
  unfold gtidReportedIff. intros [_ H].
  assert (Hd : gtidDiscrepancy otherGtidRecord garbledEvent).
  { unfold gtidDiscrepancy. repeat split; vm_compute; discriminate. }
  specialize (H Hd). vm_compute in H. destruct H as [H|[]]. discriminate H.
Qed.

Lemma gtidMismatch_spec avroRec binlogEvt :
  gtidMismatch avroRec binlogEvt = true <-> gtidDiscrepancy avroRec binlogEvt.
Proof.
  unfold gtidMismatch, gtidDiscrepancy.
  rewrite !andb_true_iff, !negb_true_iff, !String.eqb_neq. tauto.
Qed.

(** C4 (amended): for a matched pair whose indexed timestamp did not fail
    to parse, the GTID finding is printed exactly when both identifiers are
    non-empty and differ as byte strings; and for every matched pair a
    reported timestamp discrepancy increments the mismatch counter, while
    without one (and without a parse error) the counter keeps its value,
    whatever GTID or mutation-kind findings are printed. *)
Theorem gtid_reporting_and_counting_policy
    (index : gmap BinlogKey BinlogEvent.t) (st : compareState)
    (avroRec : AvroRecord.t) (binlogEvt : BinlogEvent.t) :
  missingKey avroRec = false ->
  index !! keyOf avroRec = Some binlogEvt ->
  let st' := compareLine index st (Some avroRec) in
  (parseBinlogTime binlogEvt <> None -> gtidReportedIff st st' avroRec binlogEvt)
  /\ countingPolicy st st'.
Proof.
  intros Hk Hi st'. unfold st'. rewrite (compareLine_matched _ _ _ _ Hk Hi).
  destruct (parseBinlogTime binlogEvt) as [binlogTime|].
  - destruct (consistencyChecks_spec st (incr (lineNum st)) (incr (matches st))
                (<[keyOf avroRec := true]> (binlogMatchedKeys st)) avroRec binlogEvt binlogTime)
      as (Hn & _ & _ & _ & _ & Hmm & Hout).
    apply newFindings_app in Hout.
    unfold gtidReportedIff, countingPolicy. rewrite Hn, Hout, Hmm.
    rewrite <- gtidMismatch_spec.
    unfold timestampFinding, gtidFinding, changeTypeFinding.
    destruct (timestampMismatch avroRec binlogTime), (gtidMismatch avroRec binlogEvt),
      (changeTypeMismatch avroRec binlogEvt); cbn;
      (split; [intros _; split; [intros H; try reflexivity; intuition discriminate
                                |intros H; try discriminate H; auto]
              |split; intros; try reflexivity; discriminate]).
  - split; [intros H; exfalso; apply H; reflexivity|].
    unfold countingPolicy. cbn [mismatches].
    rewrite (newFindings_app st _ [errorFinding (incr (lineNum st)) avroRec binlogEvt])
      by reflexivity.
    cbn. split; intros; [reflexivity|discriminate].
Qed.

Lemma gtid_reporting_and_counting_policy_witness :
  In (gtidFinding 1 otherGtidRecord eventWithGtid)
     (newFindings initialState
        (compareLine (scenarioIndex eventWithGtid) initialState (Some otherGtidRecord)))
  /\ mismatches (compareLine (scenarioIndex eventWithGtid) initialState
                   (Some otherGtidRecord))
     = mismatches initialState.
Proof.
  destruct (gtid_reporting_and_counting_policy
              (scenarioIndex eventWithGtid) initialState otherGtidRecord eventWithGtid
              eq_refl eq_refl) as [Hgtid [_ Hkept]].
  split.
  - apply Hgtid.
    + vm_compute. discriminate.
    + unfold gtidDiscrepancy. vm_compute. repeat split; discriminate.
  - apply Hkept; reflexivity.
Defined.

(** *** C6 *)

(** C6 as stated fails on the code: the count of records processed is the
    number of lines read, so an input that consists of one malformed line
    is reported with one record processed. *)
Lemma malformed_line_excluded_fails : ~ malformedLineExcluded ∅ [] [].
Proof.
  unfold malformedLineExcluded. intros (_ & H & _). vm_compute in H. discriminate H.
Qed.

Lemma compareLine_malformed index st :
  compareLine index st None
  = mkCompareState (incr (lineNum st)) (matches st) (mismatches st) (avroOnly st)
      (binlogMatchedKeys st) (stdout st)
      (stderr st ++ [WarnAvroUnmarshal (incr (lineNum st))]).
Proof. reflexivity. Qed.

Lemma lineNum_initial index lines :
  lineNum (scan index initialState lines) = lineNumAfter (length lines).
Proof. rewrite scan_lineNum. reflexivity. Qed.

(** C6 (amended): a malformed line of the Avro input is reported on
    standard error with its line number; the lines after it are joined as
    if it were absent, so the matched, mismatch, source-only and index-only
    counts, the consumed keys and the verdict are those of the input
    without it; the count of records processed is the number of lines read
    and includes it. *)
Theorem malformed_line_skipped (index : gmap BinlogKey BinlogEvent.t)
    (l1 l2 : list (option AvroRecord.t)) :
  let r := compareAvroWithBinlog index (l1 ++ None :: l2) in
  let r0 := compareAvroWithBinlog index (l1 ++ l2) in
  In (WarnAvroUnmarshal (lineNumAfter (S (length l1)))) (stderr (final r))
  /\ matches (final r) = matches (final r0)
  /\ mismatches (final r) = mismatches (final r0)
  /\ avroOnly (final r) = avroOnly (final r0)
  /\ binlogMatchedKeys (final r) = binlogMatchedKeys (final r0)
  /\ binlogOnly r = binlogOnly r0
  /\ verdict r = verdict r0
  /\ lineNum (final r) = incr (lineNum (final r0))
  /\ lineNum (final r) = lineNumAfter (length (l1 ++ None :: l2)).
Proof.
  intros r r0.
  assert (Hj : joinState (scan index initialState (l1 ++ None :: l2))
               = joinState (scan index initialState (l1 ++ l2))).
  { apply scan_skip. intros st0. reflexivity. }
  destruct (report_joinState index _ _ Hj) as (Hm & Hmm & Ha & Hb & Hv).
  assert (Hfinal : forall lines,
            final (compareAvroWithBinlog index lines) = scan index initialState lines).
  { intros lines. unfold compareAvroWithBinlog. cbv zeta.
    destruct (unmatched _ _ _). reflexivity. }
  split; [|split; [|split; [|split; [|split; [|split; [|split; [|split]]]]]]];
    try assumption.
  - unfold r. rewrite Hfinal, scan_app.
    change (scan index (scan index initialState l1) (None :: l2))
      with (scan index (compareLine index (scan index initialState l1) None) l2).
    apply scan_stderr_mono. rewrite compareLine_malformed. cbn [stderr].
    apply in_or_app. right. left. rewrite lineNum_initial. reflexivity.
  - unfold r, r0. rewrite !Hfinal. apply joinState_eq in Hj. tauto.
  - unfold r, r0. rewrite !Hfinal, !lineNum_initial, !length_app.
    cbn [length]. rewrite Nat.add_succ_r. reflexivity.
  - unfold r. rewrite Hfinal. apply lineNum_initial.
Qed.

(** *** C8 *)

(** C8: the verdict of a run is "consistent" exactly when the mismatch
    counter, the source-only counter and the index-only counter it reports
    are all zero, and "discrepancies found" otherwise; the verdict is the
    last line of the report, after the summary of the counters. *)
Theorem verdict_consistent_iff_counters_zero
    (index : gmap BinlogKey BinlogEvent.t) (lines : list (option AvroRecord.t)) :
  let r := compareAvroWithBinlog index lines in
  let allZero := mismatches (final r) = 0 /\ avroOnly (final r) = 0 /\ binlogOnly r = 0 in
  (verdict r = Consistent <-> allZero)
  /\ (verdict r = Discrepancies <-> ~ allZero)
  /\ In (Summary (lineNum (final r)) (matches (final r)) (mismatches (final r))
           (avroOnly (final r)) (binlogOnly r)) (rp_stdout r)
  /\ last (rp_stdout r) = Some (CONCLUSION (verdict r)).
Proof.
  unfold compareAvroWithBinlog. cbv zeta.
  destruct (unmatched _ _ _) as [b out]. cbn [final binlogOnly verdict rp_stdout].
  set (st := scan index initialState lines).
  repeat split.
  - destruct (mismatches st =? 0) eqn:E; [|discriminate]. lia.
  - destruct (mismatches st =? 0) eqn:E1; [|discriminate].
    destruct (avroOnly st =? 0) eqn:E2; [|discriminate]. lia.
  - destruct (mismatches st =? 0) eqn:E1; [|discriminate].
    destruct (avroOnly st =? 0) eqn:E2; [|discriminate].
    destruct (b =? 0) eqn:E3; [|discriminate]. lia.
  - intros (-> & -> & ->). reflexivity.
  - intros H (H1 & H2 & H3). rewrite H1, H2, H3 in H. discriminate H.
  - intros H. destruct (mismatches st =? 0) eqn:E1; [|reflexivity].
    destruct (avroOnly st =? 0) eqn:E2; [|reflexivity].
    destruct (b =? 0) eqn:E3; [|reflexivity]. exfalso. apply H. lia.
  - apply in_or_app. left. apply in_or_app. right. left. reflexivity.
  - apply last_snoc.
Qed.

(** *** C10 *)

(** C10: an Avro record whose position is 0, the value an absent position
    decodes to, is skipped with the missing-position diagnostic: the step
    changes nothing but the line number and standard error, whatever else
    the record and the index hold, and a run reports the same matched,
    mismatch, source-only and index-only counts and the same verdict as
    without the record. *)
Theorem zero_position_record_excluded
    (index : gmap BinlogKey BinlogEvent.t) (st : compareState)
    (avroRec : AvroRecord.t) (l1 l2 : list (option AvroRecord.t)) :
  AvroLong.Long (SourceMetadata.BinlogPosition (AvroRecord.SourceMetadata avroRec)) = 0 ->
  compareLine index st (Some avroRec)
  = mkCompareState (incr (lineNum st)) (matches st) (mismatches st) (avroOnly st)
      (binlogMatchedKeys st) (stdout st)
      (stderr st ++ [WarnAvroMissingKey (incr (lineNum st))])
  /\ (let r := compareAvroWithBinlog index (l1 ++ Some avroRec :: l2) in
      let r0 := compareAvroWithBinlog index (l1 ++ l2) in
      matches (final r) = matches (final r0)
      /\ mismatches (final r) = mismatches (final r0)
      /\ avroOnly (final r) = avroOnly (final r0)
      /\ binlogOnly r = binlogOnly r0
      /\ verdict r = verdict r0).
Proof.
  intros Hz.
  assert (Hk : missingKey avroRec = true).
  { unfold missingKey. rewrite Hz. apply orb_true_r. }
  assert (Hstep : forall st0, compareLine index st0 (Some avroRec)
            = mkCompareState (incr (lineNum st0)) (matches st0) (mismatches st0)
                (avroOnly st0) (binlogMatchedKeys st0) (stdout st0)
                (stderr st0 ++ [WarnAvroMissingKey (incr (lineNum st0))])).
  { intros st0. unfold compareLine. rewrite Hk. reflexivity. }
  split; [apply Hstep|].
  apply report_joinState, scan_skip. intros st0. rewrite Hstep. reflexivity.
Qed.

Lemma zero_position_record_excluded_witness :
  compareLine (scenarioIndex writeEvent) initialState (Some recordAtZero)
  = mkCompareState 1 0 0 0 ∅ [] [WarnAvroMissingKey 1].
Proof.
  exact (proj1 (zero_position_record_excluded (scenarioIndex writeEvent) initialState
                  recordAtZero [] [] eq_refl)).
Defined.

(** ** The claims about the index and the normalizer *)

Lemma decodeString_Istring (v : option iface) (s r : string) :
  v = Some (Istring s) -> decodeString v = Some r -> r = s.
Proof. intros -> H. cbn in H. congruence. Qed.

Lemma decodeBinlogEvent_EventType event eventType binlogEvt :
  event !! "event_type" = Some (Istring eventType) ->
  decodeBinlogEvent event = Some binlogEvt ->
  BinlogEvent.EventType binlogEvt = eventType.
Proof.
  intros He H. unfold decodeBinlogEvent in H. rewrite He in H. cbn [decodeString] in H.
  repeat match type of H with
         | match ?x with _ => _ end = _ => destruct x; try discriminate H
         end.
  inversion H. reflexivity.
Qed.

Lemma isRelevantEventType_spec eventType :
  isRelevantEventType eventType = true <->
  strings.HasSuffix eventType "RowsEventV2" = true \/ eventType = "XID".
Proof.
  unfold isRelevantEventType. rewrite orb_true_iff, String.eqb_eq. tauto.
Qed.

(** The branch of [loadLine] an event takes, by what the event holds. *)
Lemma loadLine_irrelevant st event eventType :
  event !! "event_type" = Some (Istring eventType) ->
  isRelevantEventType eventType = false ->
  loadLine st (Some event)
  = mkLoadState (incr (ld_lineNum st)) (binlogEvents st) (ld_stderr st).
Proof. intros He Hr. unfold loadLine. rewrite He, Hr. reflexivity. Qed.

Lemma loadLine_untyped st event :
  (forall s, event !! "event_type" <> Some (Istring s)) ->
  loadLine st (Some event)
  = mkLoadState (incr (ld_lineNum st)) (binlogEvents st) (ld_stderr st).
Proof.
  intros H. unfold loadLine.
  destruct (event !! "event_type") as [[]|]; try reflexivity.
  exfalso. eapply H. reflexivity.
Qed.

Lemma loadLine_undecodable st event eventType :
  event !! "event_type" = Some (Istring eventType) ->
  isRelevantEventType eventType = true ->
  decodeBinlogEvent event = None ->
  loadLine st (Some event)
  = mkLoadState (incr (ld_lineNum st)) (binlogEvents st)
      (ld_stderr st ++ [WarnBinlogUnmarshal (incr (ld_lineNum st)) event]).
Proof. intros He Hr Hd. unfold loadLine. rewrite He, Hr, Hd. reflexivity. Qed.

Lemma loadLine_missing_key st event eventType binlogEvt :
  event !! "event_type" = Some (Istring eventType) ->
  isRelevantEventType eventType = true ->
  decodeBinlogEvent event = Some binlogEvt ->
  BinlogEvent.BinlogFile binlogEvt = "" \/ BinlogEvent.LogPosition binlogEvt = 0 ->
  loadLine st (Some event)
  = mkLoadState (incr (ld_lineNum st)) (binlogEvents st)
      (ld_stderr st ++ [WarnBinlogMissingKey (incr (ld_lineNum st)) event]).
Proof.
  intros He Hr Hd Hk. unfold loadLine. rewrite He, Hr, Hd. cbn [negb].
  assert (Hg : String.eqb (BinlogEvent.BinlogFile binlogEvt) ""
               || (BinlogEvent.LogPosition binlogEvt =? 0) = true).
  { apply orb_true_iff. destruct Hk as [Hk|Hk]; [left|right].
    - apply String.eqb_eq, Hk.
    - apply Z.eqb_eq, Hk. }
  rewrite Hg. reflexivity.
Qed.

Lemma loadLine_indexed st event eventType binlogEvt :
  event !! "event_type" = Some (Istring eventType) ->
  isRelevantEventType eventType = true ->
  decodeBinlogEvent event = Some binlogEvt ->
  BinlogEvent.BinlogFile binlogEvt <> "" ->
  BinlogEvent.LogPosition binlogEvt <> 0 ->
  loadLine st (Some event)
  = mkLoadState (incr (ld_lineNum st))
      (<[(BinlogEvent.BinlogFile binlogEvt, BinlogEvent.LogPosition binlogEvt) := binlogEvt]>
         (binlogEvents st))
      (ld_stderr st).
Proof.
  intros He Hr Hd Hf Hp. unfold loadLine. rewrite He, Hr, Hd. cbn [negb].
  apply String.eqb_neq in Hf. apply Z.eqb_neq in Hp. rewrite Hf, Hp. reflexivity.
Qed.

(** Every entry [loadLine] leaves in the index is valid when the entries
    it found there were. *)
Lemma loadLine_valid st line :
  (forall key e, binlogEvents st !! key = Some e -> validEntry key e) ->
  forall key e, binlogEvents (loadLine st line) !! key = Some e -> validEntry key e.
Proof.
  intros Hst key e. unfold loadLine.
  destruct line as [event|]; [|apply Hst].
  destruct (event !! "event_type") as [[| | |eventType| |]|] eqn:He; try apply Hst.
  destruct (isRelevantEventType eventType) eqn:Hr; [|apply Hst]. cbn [negb].
  destruct (decodeBinlogEvent event) as [binlogEvt|] eqn:Hd; [|apply Hst].
  destruct (String.eqb (BinlogEvent.BinlogFile binlogEvt) "") eqn:Hf; [apply Hst|].
  destruct (BinlogEvent.LogPosition binlogEvt =? 0) eqn:Hp; [apply Hst|].
  cbn [orb binlogEvents]. intros H.
  apply lookup_insert_Some in H as [[<- <-]|[_ H]]; [|apply Hst, H].
  unfold validEntry. rewrite (decodeBinlogEvent_EventType _ _ _ He Hd).
  apply String.eqb_neq in Hf. apply Z.eqb_neq in Hp.
  apply isRelevantEventType_spec in Hr. auto.
Qed.

Lemma loadFrom_valid lines : forall st,
  (forall key e, binlogEvents st !! key = Some e -> validEntry key e) ->
  forall key e, binlogEvents (loadFrom st lines) !! key = Some e -> validEntry key e.
Proof.
  unfold loadFrom. induction lines as [|line lines IH]; intros st Hst; cbn [fold_left].
  - exact Hst.
  - apply IH, loadLine_valid, Hst.
Qed.

Lemma loadFrom_snoc st lines line :
  loadFrom st (lines ++ [line]) = loadLine (loadFrom st lines) line.
Proof. unfold loadFrom. rewrite fold_left_app. reflexivity. Qed.

(** *** C5 *)

(** C5 as stated fails on the code: an event of a kind the index does not
    keep fails the condition on [event_type] and is dropped without any
    message. *)
Lemma rejected_event_logged_fails :
  ~ rejectedEventLogged (mkLoadState 0 ∅ []) gtidLine.
Proof.
  unfold rejectedEventLogged, loggedAndNotIndexed. intros H.
  destruct (H "GTID" (BinlogEvent.mk "GTID" "" "" 126 "" "" "a.000001" ""))
    as [_ [d Hd]]; [reflexivity|reflexivity|left; reflexivity|].
  vm_compute in Hd. discriminate Hd.
Qed.

(** C5 (amended): every entry of the index built from the normalized-event
    input has an [event_type] that ends in [RowsEventV2] or is [XID], a
    non-empty [binlog_file] and a non-zero [log_position], and sits under
    the key made of these two; an event of such a kind whose file is empty
    or whose position is zero is logged and not indexed; an event of any
    other kind is not indexed and nothing is logged for it; and an accepted
    event is stored under its key whatever the index held there, so that
    after a collision the index holds the later event. *)
Theorem index_entries_valid_and_rejections_logged :
  (forall lines key binlogEvt,
     binlogEvents (loadBinlogData lines) !! key = Some binlogEvt ->
     validEntry key binlogEvt)
  /\ (forall st event eventType binlogEvt,
        event !! "event_type" = Some (Istring eventType) ->
        decodeBinlogEvent event = Some binlogEvt ->
        isRelevantEventType eventType = true ->
        BinlogEvent.BinlogFile binlogEvt = "" \/ BinlogEvent.LogPosition binlogEvt = 0 ->
        loggedAndNotIndexed st (Some event))
  /\ (forall st event eventType,
        event !! "event_type" = Some (Istring eventType) ->
        isRelevantEventType eventType = false ->
        silentlySkipped st (Some event))
  /\ (forall lines event eventType binlogEvt,
        event !! "event_type" = Some (Istring eventType) ->
        decodeBinlogEvent event = Some binlogEvt ->
        isRelevantEventType eventType = true ->
        BinlogEvent.BinlogFile binlogEvt <> "" ->
        BinlogEvent.LogPosition binlogEvt <> 0 ->
        let key := (BinlogEvent.BinlogFile binlogEvt, BinlogEvent.LogPosition binlogEvt) in
        binlogEvents (loadBinlogData (lines ++ [Some event]))
        = <[key := binlogEvt]> (binlogEvents (loadBinlogData lines))
        /\ binlogEvents (loadBinlogData (lines ++ [Some event])) !! key = Some binlogEvt).
Proof.
  split; [|split; [|split]].
  - intros lines. unfold loadBinlogData. apply loadFrom_valid.
    intros key e H. cbn in H. rewrite lookup_empty in H. discriminate H.
  - intros st event eventType binlogEvt He Hd Hr Hk.
    unfold loggedAndNotIndexed.
    rewrite (loadLine_missing_key _ _ _ _ He Hr Hd Hk). cbn. eauto.
  - intros st event eventType He Hr. unfold silentlySkipped.
    rewrite (loadLine_irrelevant _ _ _ He Hr). cbn. auto.
  - intros lines event eventType binlogEvt He Hd Hr Hf Hp key.
    unfold loadBinlogData. rewrite loadFrom_snoc.
    rewrite (loadLine_indexed _ _ _ _ He Hr Hd Hf Hp). cbn [binlogEvents].
    split; [reflexivity|]. apply lookup_insert_eq.
Qed.

Lemma index_entries_valid_and_rejections_logged_witness :
  validEntry ("a.000001", 500) decodedWriteEvent
  /\ loggedAndNotIndexed (mkLoadState 0 ∅ []) (Some (writeLine 0))
  /\ silentlySkipped (mkLoadState 0 ∅ []) (Some gtidLine)
  /\ binlogEvents (loadBinlogData ([Some (writeLine 500)] ++ [Some (writeLine 500)]))
       !! ("a.000001", 500) = Some decodedWriteEvent.
Proof.
  destruct index_entries_valid_and_rejections_logged as (H1 & H2 & H3 & H4).
  split; [|split; [|split]].
  - apply (H1 [Some (writeLine 500)]). reflexivity.
  - apply (H2 _ (writeLine 0) "WriteRowsEventV2"
             (BinlogEvent.mk "WriteRowsEventV2" "2024-01-01T00:00:00Z" "" 0 "" ""
                "a.000001" "")); try reflexivity.
    right. reflexivity.
  - apply (H3 _ gtidLine "GTID"); reflexivity.
  - apply (H4 [Some (writeLine 500)] (writeLine 500) "WriteRowsEventV2" decodedWriteEvent);
      try reflexivity; discriminate.
Defined.

(** *** C7 *)

(** C7 as stated fails on the code: a line of the normalized-event input
    that is a JSON object without [event_type] is skipped and nothing is
    written to standard error. *)
Lemma missing_event_type_logged_fails :
  ~ missingEventTypeLogged (mkLoadState 0 ∅ []) untypedLine.
Proof.
  unfold missingEventTypeLogged. intros H. apply H; [|reflexivity].
  intros s Hs. vm_compute in Hs. discriminate Hs.
Qed.

Lemma setField_Date reenc ev value :
  setField reenc ev "Date" value
  = match time.Parse time.DateTime value with
    | Some t => (<["timestamp" := FString (time.Format_RFC3339 t)]> ev, [])
    | None => (<["date" := FString value]> ev, [WarnDate value "Date"])
    end.
Proof. reflexivity. Qed.

Lemma setField_Log_position reenc ev value :
  setField reenc ev "Log position" value
  = match strconv.ParseInt value with
    | Some intVal => (<["log_position" := FInt intVal]> ev, [])
    | None => (<["log_position" := FString value]> ev, [WarnLogPosition value])
    end.
Proof. reflexivity. Qed.

Lemma setField_commit_timestamp reenc ev key value :
  key = "Immediate commmit timestamp" \/ key = "Orignal commmit timestamp" ->
  setField reenc ev key value
  = if strings.Contains value "(" && strings.HasSuffix value "Z)" then
      match time.Parse time.RFC3339Nano (extractedTimestamp value) with
      | Some _ => (<[normalizeKey key := FString (extractedTimestamp value)]> ev, [])
      | None =>
          (<[normalizeKey key := FString value]> ev,
           [WarnExtractedTimestamp (extractedTimestamp value) value key])
      end
    else
      match reenc value with
      | Some ts => (<[normalizeKey key := FString ts]> ev, [])
      | None =>
          (<[normalizeKey key := FString value]> ev,
           [WarnHighPrecisionTimestamp value key])
      end.
Proof. intros [->| ->]; reflexivity. Qed.

(** C7 (amended): the loader reports, with its line number, every line it
    drops because it is malformed, because an event of a kind it keeps
    does not decode, or because such an event lacks its file or position,
    and it drops without a message the lines that have no string
    [event_type] or name another kind of event; the comparator reports
    every Avro line it drops, malformed or without key; and the normalizer
    reports every [Date], [Log position] or commit timestamp it stores
    unparsed. *)
Theorem skips_and_degradations_reported :
  (forall st,
     loadLine st None
     = mkLoadState (incr (ld_lineNum st)) (binlogEvents st)
         (ld_stderr st ++ [WarnMalformedBinlogLine (incr (ld_lineNum st))]))
  /\ (forall st event eventType,
        event !! "event_type" = Some (Istring eventType) ->
        isRelevantEventType eventType = true ->
        decodeBinlogEvent event = None ->
        loadLine st (Some event)
        = mkLoadState (incr (ld_lineNum st)) (binlogEvents st)
            (ld_stderr st ++ [WarnBinlogUnmarshal (incr (ld_lineNum st)) event]))
  /\ (forall st event eventType binlogEvt,
        event !! "event_type" = Some (Istring eventType) ->
        isRelevantEventType eventType = true ->
        decodeBinlogEvent event = Some binlogEvt ->
        BinlogEvent.BinlogFile binlogEvt = "" \/ BinlogEvent.LogPosition binlogEvt = 0 ->
        loadLine st (Some event)
        = mkLoadState (incr (ld_lineNum st)) (binlogEvents st)
            (ld_stderr st ++ [WarnBinlogMissingKey (incr (ld_lineNum st)) event]))
  /\ (forall st event,
        (forall s, event !! "event_type" <> Some (Istring s)) ->
        silentlySkipped st (Some event))
  /\ (forall st event eventType,
        event !! "event_type" = Some (Istring eventType) ->
        isRelevantEventType eventType = false ->
        silentlySkipped st (Some event))
  /\ (forall index st,
        compareLine index st None
        = mkCompareState (incr (lineNum st)) (matches st) (mismatches st) (avroOnly st)
            (binlogMatchedKeys st) (stdout st)
            (stderr st ++ [WarnAvroUnmarshal (incr (lineNum st))]))
  /\ (forall index st avroRec,
        missingKey avroRec = true ->
        compareLine index st (Some avroRec)
        = mkCompareState (incr (lineNum st)) (matches st) (mismatches st) (avroOnly st)
            (binlogMatchedKeys st) (stdout st)
            (stderr st ++ [WarnAvroMissingKey (incr (lineNum st))]))
  /\ (forall reenc ev value,
        time.Parse time.DateTime value = None ->
        setField reenc ev "Date" value
        = (<["date" := FString value]> ev, [WarnDate value "Date"]))
  /\ (forall reenc ev value,
        strconv.ParseInt value = None ->
        setField reenc ev "Log position" value
        = (<["log_position" := FString value]> ev, [WarnLogPosition value]))
  /\ (forall reenc ev key value,
        key = "Immediate commmit timestamp" \/ key = "Orignal commmit timestamp" ->
        (strings.Contains value "(" && strings.HasSuffix value "Z)" = true ->
         time.Parse time.RFC3339Nano (extractedTimestamp value) = None ->
         setField reenc ev key value
         = (<[normalizeKey key := FString value]> ev,
            [WarnExtractedTimestamp (extractedTimestamp value) value key]))
        /\ (strings.Contains value "(" && strings.HasSuffix value "Z)" = false ->
            reenc value = None ->
            setField reenc ev key value
            = (<[normalizeKey key := FString value]> ev,
               [WarnHighPrecisionTimestamp value key]))).
Proof.
  split; [|split; [|split; [|split; [|split; [|split; [|split; [|split; [|split]]]]]]]].
  - reflexivity.
  - intros st event eventType. apply loadLine_undecodable.
  - intros st event eventType binlogEvt. apply loadLine_missing_key.
  - intros st event H. unfold silentlySkipped. rewrite (loadLine_untyped _ _ H). auto.
  - intros st event eventType He Hr. unfold silentlySkipped.
    rewrite (loadLine_irrelevant _ _ _ He Hr). auto.
  - reflexivity.
  - intros index st avroRec Hk. unfold compareLine. rewrite Hk. reflexivity.
  - intros reenc ev value Hp. rewrite setField_Date, Hp. reflexivity.
  - intros reenc ev value Hp. rewrite setField_Log_position, Hp. reflexivity.
  - intros reenc ev key value H.
    split; intros Hc Hp;
      rewrite (setField_commit_timestamp _ _ _ _ H), Hc, Hp; reflexivity.
Qed.

Lemma skips_and_degradations_reported_witness :
  ld_stderr (loadLine (mkLoadState 0 ∅ []) (Some (writeLine 0)))
  = [WarnBinlogMissingKey 1 (writeLine 0)]
  /\ setField (fun _ => None) ∅ "Date" "yesterday"
     = (<["date" := FString "yesterday"]> ∅, [WarnDate "yesterday" "Date"]).
Proof.
  destruct skips_and_degradations_reported
    as (_ & _ & H3 & _ & _ & _ & _ & H8 & _).
  split.
  - rewrite (H3 (mkLoadState 0 ∅ []) (writeLine 0) "WriteRowsEventV2"
               (BinlogEvent.mk "WriteRowsEventV2" "2024-01-01T00:00:00Z" "" 0 "" ""
                  "a.000001" "") eq_refl eq_refl eq_refl (or_intror eq_refl)).
    reflexivity.
  - apply H8. reflexivity.
Defined.

(** *** C9 *)

(** C9: when the [Date] value of an event block parses under the layout
    ["2006-01-02 15:04:05"], the normalizer stores the parsed instant in
    RFC 3339 form under [timestamp] without a warning, and parsing that
    field as RFC 3339 gives back the instant with its second count intact
    (a fraction of a second the value may have carried is gone). *)
Theorem date_roundtrip_to_second_precision
    (reencodeHighPrecision : string -> option string)
    (currentEvent : gmap string field) (value : string) (t : time.Time) :
  time.Parse time.DateTime value = Some t ->
  setField reencodeHighPrecision currentEvent "Date" value
  = (<["timestamp" := FString (time.Format_RFC3339 t)]> currentEvent, [])
  /\ fst (setField reencodeHighPrecision currentEvent "Date" value) !! "timestamp"
     = Some (FString (time.Format_RFC3339 t))
  /\ time.Parse time.RFC3339 (time.Format_RFC3339 t) = Some (time.mkTime (time.sec t) 0).
Proof.
  intros Hp. rewrite setField_Date, Hp. cbn [fst].
  split; [reflexivity|]. split; [apply lookup_insert_eq|].
  destruct (Parse_nozone_inv time.DateTime value t eq_refl Hp) as (c & ns & Hc & Hns & ->).
  rewrite (Format_civil c ns Hc Hns), (Parse_rfc3339String c Hc).
  rewrite (Date_valid c ns Hc Hns), (Date_valid c 0 Hc ltac:(lia)). reflexivity.
Qed.

Lemma date_roundtrip_to_second_precision_witness :
  time.Parse time.RFC3339
    (time.Format_RFC3339 (time.mkTime 63844847999 750000000))
  = Some (time.mkTime 63844847999 0).
Proof.
  exact (proj2 (proj2 (date_roundtrip_to_second_precision (fun _ => None) ∅
    "2024-02-29 23:59:59.75" (time.mkTime 63844847999 750000000) eq_refl))).
Defined.

(** ** The index as a function of its input *)

Lemma loadLine_index st line :
  binlogEvents (loadLine st line)
  = match indexedAs line with
    | Some (key, binlogEvt) => <[key := binlogEvt]> (binlogEvents st)
    | None => binlogEvents st
    end.
Proof.
  unfold loadLine, indexedAs. destruct line as [event|]; [|reflexivity].
  destruct (event !! "event_type") as [[| | |eventType| |]|]; try reflexivity.
  destruct (isRelevantEventType eventType); [|reflexivity]. cbn [negb].
  destruct (decodeBinlogEvent event) as [binlogEvt|]; [|reflexivity].
  destruct (String.eqb _ _ || _); reflexivity.
Qed.

Lemma snoc_eq_app_cons {A} (l l1 l2 : list A) (x y : A) :
  l ++ [x] = l1 ++ y :: l2 ->
  (l2 = [] /\ l = l1 /\ x = y) \/ exists l2', l2 = l2' ++ [x] /\ l = l1 ++ y :: l2'.
Proof.
  intros H. induction l2 as [|z l2' _] using rev_ind.
  - left. apply app_inj_tail in H as [-> ->]. auto.
  - right. exists l2'.
    change (l1 ++ y :: l2' ++ [z]) with (l1 ++ (y :: l2') ++ [z]) in H.
    rewrite app_assoc in H. apply app_inj_tail in H as [-> ->]. auto.
Qed.

(** X1: the index [loadBinlogData] builds holds an event under a key
    exactly when some line of the input is indexed as that key and event
    (a retained event kind that decodes, with a file name and a non-zero
    position) and no later line is indexed under the same key: of the lines
    that share a key the last one is kept. *)
Theorem index_holds_last_entry_of_key
    (lines : list (option (gmap string iface))) (key : BinlogKey)
    (binlogEvt : BinlogEvent.t) :
  binlogEvents (loadBinlogData lines) !! key = Some binlogEvt
  <-> exists l1 line l2,
        lines = l1 ++ line :: l2
        /\ indexedAs line = Some (key, binlogEvt)
        /\ forall line' e', In line' l2 -> indexedAs line' <> Some (key, e').
Proof.
  unfold loadBinlogData. induction lines as [|x lines IH] using rev_ind.
  - cbn. rewrite lookup_empty. split; [discriminate|].
    intros (l1 & line & l2 & H & _). destruct l1; discriminate H.
  - rewrite loadFrom_snoc, loadLine_index.
    assert (Hshift : forall e,
      (forall e', indexedAs x <> Some (key, e')) ->
      ((exists l1 line l2, lines = l1 ++ line :: l2 /\ indexedAs line = Some (key, e)
          /\ forall line' e', In line' l2 -> indexedAs line' <> Some (key, e'))
       <-> (exists l1 line l2, lines ++ [x] = l1 ++ line :: l2
              /\ indexedAs line = Some (key, e)
              /\ forall line' e', In line' l2 -> indexedAs line' <> Some (key, e')))).
    { intros e Hx. split.
      - intros (l1 & line & l2 & -> & Hl & Hn).
        exists l1, line, (l2 ++ [x]). split; [rewrite <- app_assoc; reflexivity|].
        split; [exact Hl|]. intros line' e' Hin.
        apply in_app_or in Hin as [Hin|[<-|[]]]; [apply Hn, Hin|apply Hx].
      - intros (l1 & line & l2 & Heq & Hl & Hn).
        apply snoc_eq_app_cons in Heq as [(-> & -> & ->)|(l2' & -> & ->)].
        + exfalso. exact (Hx _ Hl).
        + exists l1, line, l2'. split; [reflexivity|]. split; [exact Hl|].
          intros line' e' Hin. apply Hn, in_or_app. auto. }
    destruct (indexedAs x) as [[k e]|] eqn:Hx.
    + destruct (decide (k = key)) as [->|Hne].
      * rewrite lookup_insert_eq. split.
        -- intros [= ->]. exists lines, x, []. split; [reflexivity|].
           split; [exact Hx|]. intros ? ? [].
        -- intros (l1 & line & l2 & Heq & Hl & Hn).
           apply snoc_eq_app_cons in Heq as [(-> & -> & ->)|(l2' & -> & ->)].
           ++ congruence.
           ++ exfalso. apply (Hn x e); [apply in_or_app; right; left; reflexivity|exact Hx].
      * rewrite lookup_insert_ne by exact Hne. rewrite IH. apply Hshift.
        intros e' [= ? ?]. contradiction.
    + rewrite IH. apply Hshift. intros e'. discriminate.
Qed.

(** ** The counters of a run *)

Lemma lineNumAfter_small (n : nat) :
  Z.of_nat n < 2 ^ 63 -> lineNumAfter n = Z.of_nat n.
Proof.
  unfold lineNumAfter. induction n as [|n IH]; intros H; [reflexivity|].
  rewrite Nat.iter_succ, IH by lia. unfold incr.
  rewrite wrap64_id by (unfold in_int64, int64_min, int64_max; lia). lia.
Qed.

Lemma countKind_snoc P index lines line :
  countKind P index (lines ++ [line])
  = (countKind P index lines + (if P (kindOf index line) then 1 else 0))%nat.
Proof.
  unfold countKind. rewrite List.filter_app, length_app. cbn [List.filter].
  destruct (P (kindOf index line)); reflexivity.
Qed.

Lemma countKind_le P index lines : (countKind P index lines <= length lines)%nat.
Proof. unfold countKind. apply List.filter_length_le. Qed.

Lemma countKind_zero P index lines :
  countKind P index lines = 0%nat <->
  forall line, In line lines -> P (kindOf index line) = false.
Proof.
  unfold countKind. induction lines as [|x lines IH]; cbn [List.filter].
  - split; [intros _ ? []|reflexivity].
  - destruct (P (kindOf index x)) eqn:E.
    + split; [discriminate|]. intros H. specialize (H x (or_introl eq_refl)). congruence.
    + rewrite IH. split.
      * intros H line [<-|Hin]; [exact E|apply H, Hin].
      * intros H line Hin. apply H. right. exact Hin.
Qed.

(** The step of the loop, by the kind of the line. *)
Lemma compareLine_counters index st line :
  let st' := compareLine index st line in
  matches st' = (if isMatched (kindOf index line) then incr (matches st) else matches st)
  /\ mismatches st' = (if isCounted (kindOf index line) then incr (mismatches st)
                       else mismatches st)
  /\ avroOnly st' = (if isSourceOnly (kindOf index line) then incr (avroOnly st)
                     else avroOnly st)
  /\ length (stderr st') = (length (stderr st)
                            + (if isSkipped (kindOf index line) then 1 else 0))%nat.
Proof.
  unfold compareLine, kindOf. destruct line as [avroRec|].
  - destruct (missingKey avroRec).
    + cbn. rewrite length_app. cbn. auto.
    + cbv zeta. destruct (index !! keyOf avroRec) as [binlogEvt|].
      * destruct (parseBinlogTime binlogEvt) as [binlogTime|].
        -- destruct (consistencyChecks_spec st (incr (lineNum st)) (incr (matches st))
             (<[keyOf avroRec := true]> (binlogMatchedKeys st)) avroRec binlogEvt binlogTime)
             as (_ & -> & -> & _ & -> & -> & _).
           destruct (timestampMismatch avroRec binlogTime); cbn; repeat split; lia.
        -- cbn. repeat split; lia.
      * cbn. repeat split; lia.
  - cbn. rewrite length_app. cbn. auto.
Qed.

Lemma scan_snoc index st lines line :
  scan index st (lines ++ [line]) = compareLine index (scan index st lines) line.
Proof. unfold scan. rewrite fold_left_app. reflexivity. Qed.

Lemma scan_counters index lines :
  let st := scan index initialState lines in
  matches st = lineNumAfter (countKind isMatched index lines)
  /\ mismatches st = lineNumAfter (countKind isCounted index lines)
  /\ avroOnly st = lineNumAfter (countKind isSourceOnly index lines)
  /\ length (stderr st) = countKind isSkipped index lines.
Proof.
  induction lines as [|line lines IH] using rev_ind.
  - cbn. repeat split; reflexivity.
  - cbv zeta in *. rewrite scan_snoc. rewrite !countKind_snoc.
    destruct IH as (Hm & Hmm & Ha & He).
    destruct (compareLine_counters index (scan index initialState lines) line)
      as (-> & -> & -> & ->).
    rewrite Hm, Hmm, Ha, He. unfold lineNumAfter.
    destruct (kindOf index line); cbn [isMatched isCounted isSourceOnly isSkipped];
      rewrite ?Nat.add_0_r, ?Nat.add_1_r, ?Nat.iter_succ; repeat split; reflexivity.
Qed.

Lemma countKind_partition index lines :
  (countKind isMatched index lines + countKind isSourceOnly index lines
   + countKind isSkipped index lines = length lines)%nat
  /\ (countKind isCounted index lines <= countKind isMatched index lines)%nat.
Proof.
  induction lines as [|line lines IH] using rev_ind.
  - cbn. lia.
  - rewrite !countKind_snoc, length_app. cbn [length].
    destruct (kindOf index line); cbn [isMatched isCounted isSourceOnly isSkipped]; lia.
Qed.

Lemma final_scan index lines :
  final (compareAvroWithBinlog index lines) = scan index initialState lines.
Proof.
  unfold compareAvroWithBinlog. cbv zeta. destruct (unmatched _ _ _). reflexivity.
Qed.

(** X2: on an input of fewer than 2^63 lines the line counter of
    [compareAvroWithBinlog] is the number of lines read; every line is
    either matched, or reported as present in the Avro input only, or
    skipped with one diagnostic on standard error; and the mismatch counter
    lies between zero and the number of matches. *)
Theorem counters_account_for_every_line
    (index : gmap BinlogKey BinlogEvent.t) (lines : list (option AvroRecord.t)) :
  Z.of_nat (length lines) < 2 ^ 63 ->
  let st := final (compareAvroWithBinlog index lines) in
  lineNum st = Z.of_nat (length lines)
  /\ matches st + avroOnly st + Z.of_nat (length (stderr st)) = lineNum st
  /\ 0 <= mismatches st <= matches st.
Proof.
  intros Hlen st. unfold st. rewrite final_scan.
  destruct (scan_counters index lines) as (Hm & Hmm & Ha & He).
  destruct (countKind_partition index lines) as [Hp Hle].
  pose proof (countKind_le isMatched index lines).
  pose proof (countKind_le isSourceOnly index lines).
  rewrite lineNum_initial, Hm, Hmm, Ha, He.
  rewrite !lineNumAfter_small by lia. lia.
Qed.

Lemma counters_account_for_every_line_witness :
  lineNum (final (compareAvroWithBinlog (scenarioIndex writeEvent)
                    [Some recordAt100ms; None; Some recordAtZero]))
  = 3.
Proof.
  refine (proj1 (counters_account_for_every_line (scenarioIndex writeEvent)
                   [Some recordAt100ms; None; Some recordAtZero] _)).
  reflexivity.
Defined.

(** ** Keys consumed and events left over *)

Lemma compareLine_keys index st line :
  binlogMatchedKeys (compareLine index st line)
  = match line with
    | Some avroRec =>
        if isMatched (kindOf index line)
        then <[keyOf avroRec := true]> (binlogMatchedKeys st)
        else binlogMatchedKeys st
    | None => binlogMatchedKeys st
    end.
Proof.
  unfold compareLine, kindOf. destruct line as [avroRec|]; [|reflexivity].
  destruct (missingKey avroRec); [reflexivity|]. cbv zeta.
  destruct (index !! keyOf avroRec) as [binlogEvt|]; [|reflexivity].
  destruct (parseBinlogTime binlogEvt) as [binlogTime|]; [|reflexivity].
  destruct (consistencyChecks_spec st (incr (lineNum st)) (incr (matches st))
    (<[keyOf avroRec := true]> (binlogMatchedKeys st)) avroRec binlogEvt binlogTime)
    as (_ & _ & _ & -> & _).
  destruct (timestampMismatch avroRec binlogTime); reflexivity.
Qed.

Lemma isMatched_spec index avroRec :
  isMatched (kindOf index (Some avroRec)) = true
  <-> missingKey avroRec = false /\ is_Some (index !! keyOf avroRec).
Proof.
  unfold kindOf. destruct (missingKey avroRec).
  - cbn. split; [discriminate|]. intros [H _]. discriminate H.
  - destruct (index !! keyOf avroRec) as [binlogEvt|].
    + split; [intros _; split; [reflexivity|eauto]|intros _].
      destruct (parseBinlogTime binlogEvt) as [binlogTime|]; [|reflexivity].
      destruct (timestampMismatch avroRec binlogTime); reflexivity.
    + cbn. split; [discriminate|]. intros [_ [x Hx]]. discriminate Hx.
Qed.

Lemma matched_keys_spec
    (index : gmap BinlogKey BinlogEvent.t) (lines : list (option AvroRecord.t))
    (key : BinlogKey) (b : bool) :
  binlogMatchedKeys (scan index initialState lines) !! key = Some b
  <-> b = true
      /\ exists avroRec,
           In (Some avroRec) lines /\ missingKey avroRec = false
           /\ keyOf avroRec = key /\ is_Some (index !! key).
Proof.
  induction lines as [|line lines IH] using rev_ind.
  - cbn. rewrite lookup_empty. split; [discriminate|]. intros (_ & r & [] & _).
  - rewrite scan_snoc, compareLine_keys.
    assert (Hold : (b = true /\ exists avroRec, In (Some avroRec) lines
                     /\ missingKey avroRec = false /\ keyOf avroRec = key
                     /\ is_Some (index !! key))
                   -> b = true /\ exists avroRec, In (Some avroRec) (lines ++ [line])
                        /\ missingKey avroRec = false /\ keyOf avroRec = key
                        /\ is_Some (index !! key)).
    { intros (Hb & r & Hin & Hr). split; [exact Hb|]. exists r.
      split; [apply in_or_app; left; exact Hin|exact Hr]. }
    assert (Hnew : forall r, line = Some r ->
              isMatched (kindOf index line) = false \/ keyOf r <> key ->
              (b = true /\ exists avroRec, In (Some avroRec) (lines ++ [line])
                 /\ missingKey avroRec = false /\ keyOf avroRec = key
                 /\ is_Some (index !! key))
              -> b = true /\ exists avroRec, In (Some avroRec) lines
                   /\ missingKey avroRec = false /\ keyOf avroRec = key
                   /\ is_Some (index !! key)).
    { intros r -> Hno (Hb & r' & Hin & Hmk & Hk & Hi). split; [exact Hb|].
      apply in_app_or in Hin as [Hin|[[= <-]|[]]]; [eauto|].
      exfalso. destruct Hno as [Hno|Hno]; [|contradiction].
      assert (isMatched (kindOf index (Some r)) = true); [|congruence].
      apply isMatched_spec. rewrite Hk. auto. }
    destruct line as [r|].
    + destruct (isMatched (kindOf index (Some r))) eqn:Hm.
      * destruct (decide (keyOf r = key)) as [Hk|Hk].
        -- rewrite Hk, lookup_insert_eq. apply isMatched_spec in Hm as [Hmk Hi].
           split.
           ++ intros [= <-]. split; [reflexivity|]. exists r.
              split; [apply in_or_app; right; left; reflexivity|]. rewrite <- Hk. auto.
           ++ intros [-> _]. reflexivity.
        -- rewrite lookup_insert_ne by exact Hk. rewrite IH.
           split; [exact Hold|apply (Hnew r eq_refl); auto].
      * rewrite IH. split; [exact Hold|apply (Hnew r eq_refl); auto].
    + rewrite IH. split; [exact Hold|].
      intros (Hb & r' & Hin & Hr). split; [exact Hb|]. exists r'.
      apply in_app_or in Hin as [Hin|[Hin|[]]]; [auto|discriminate Hin].
Qed.

(** X3: after the scan the map of consumed keys holds a key exactly when
    some Avro record that carries a file name and a non-zero position has
    that key and the index has an event for it; the value stored is always
    [true]. *)
Theorem consumed_keys_are_keys_of_joined_records
    (index : gmap BinlogKey BinlogEvent.t) (lines : list (option AvroRecord.t))
    (key : BinlogKey) (b : bool) :
  binlogMatchedKeys (final (compareAvroWithBinlog index lines)) !! key = Some b
  <-> b = true
      /\ exists avroRec,
           In (Some avroRec) lines /\ missingKey avroRec = false
           /\ keyOf avroRec = key /\ is_Some (index !! key).
Proof. rewrite final_scan. apply matched_keys_spec. Qed.

Lemma unmatched_fold matched l : forall n out,
  fst (fold_left (binlogOnlyStep matched) l (n, out))
  = Nat.iter (length (List.filter (unmatchedDML matched) l)) incr n.
Proof.
  induction l as [|[k e] l IH]; intros n out; cbn [fold_left List.filter]; [reflexivity|].
  assert (Hstep : binlogOnlyStep matched (n, out) (k, e)
                  = if unmatchedDML matched (k, e)
                    then (incr n,
                          out ++ [BINLOG_ONLY k (BinlogEvent.EventType e)
                                    (BinlogEvent.Schema e) (BinlogEvent.Table e)
                                    (BinlogEvent.Timestamp e)])
                    else (n, out)).
  { unfold binlogOnlyStep, unmatchedDML. cbn [fst snd].
    destruct (negb (default false (matched !! k))); [|reflexivity].
    destruct (isDML (BinlogEvent.EventType e)); reflexivity. }
  rewrite Hstep. destruct (unmatchedDML matched (k, e)).
  - rewrite IH. cbn [length]. rewrite Nat.iter_succ_r. reflexivity.
  - apply IH.
Qed.

Lemma binlogOnly_count index lines :
  binlogOnly (compareAvroWithBinlog index lines)
  = lineNumAfter
      (length (List.filter
                 (unmatchedDML (binlogMatchedKeys (scan index initialState lines)))
                 (map_to_list index))).
Proof.
  unfold compareAvroWithBinlog. cbv zeta.
  pose proof (unmatched_fold (binlogMatchedKeys (scan index initialState lines))
                (map_to_list index) 0 (stdout (scan index initialState lines))) as H.
  fold (unmatched index (binlogMatchedKeys (scan index initialState lines))
          (stdout (scan index initialState lines))) in H.
  destruct (unmatched _ _ _) as [b out]. cbn [binlogOnly fst] in *. exact H.
Qed.

Lemma filter_nil_iff {A} (f : A -> bool) (l : list A) :
  List.filter f l = [] <-> forall x, In x l -> f x = false.
Proof.
  induction l as [|a l IH]; cbn [List.filter].
  - split; [intros _ ? []|reflexivity].
  - destruct (f a) eqn:E.
    + split; [discriminate|]. intros H. specialize (H a (or_introl eq_refl)). congruence.
    + rewrite IH. split.
      * intros H x [<-|Hin]; [exact E|apply H, Hin].
      * intros H x Hin. apply H. right. exact Hin.
Qed.

Lemma lineNumAfter_zero (n : nat) :
  Z.of_nat n < 2 ^ 63 -> lineNumAfter n = 0 <-> n = 0%nat.
Proof. intros H. rewrite lineNumAfter_small by exact H. lia. Qed.

Lemma binlogOnly_spec
    (index : gmap BinlogKey BinlogEvent.t) (lines : list (option AvroRecord.t)) :
  Z.of_nat (size index) < 2 ^ 63 ->
  let r := compareAvroWithBinlog index lines in
  0 <= binlogOnly r <= Z.of_nat (size index)
  /\ (binlogOnly r = 0 <->
      forall key binlogEvt,
        index !! key = Some binlogEvt ->
        isDML (BinlogEvent.EventType binlogEvt) = true ->
        binlogMatchedKeys (final r) !! key = Some true).
Proof.
  intros Hsize r. unfold r. rewrite binlogOnly_count, final_scan.
  set (matched := binlogMatchedKeys (scan index initialState lines)).
  set (l := List.filter (unmatchedDML matched) (map_to_list index)).
  assert (Hle : (length l <= size index)%nat).
  { unfold l. rewrite <- length_map_to_list. apply List.filter_length_le. }
  split; [rewrite lineNumAfter_small by lia; lia|].
  rewrite lineNumAfter_zero by lia.
  rewrite length_zero_iff_nil. unfold l. rewrite filter_nil_iff. split.
  - intros H key e Hi Hd.
    specialize (H (key, e)). rewrite <- list_elem_of_In, elem_of_map_to_list in H.
    specialize (H Hi). unfold unmatchedDML in H. cbn [fst snd] in H.
    rewrite Hd, andb_true_r in H. apply negb_false_iff in H.
    destruct (matched !! key) as [[]|]; [reflexivity|discriminate H|discriminate H].
  - intros H [key e] Hin. apply list_elem_of_In, elem_of_map_to_list in Hin.
    unfold unmatchedDML. cbn [fst snd].
    destruct (isDML (BinlogEvent.EventType e)) eqn:Hd; [|apply andb_false_r].
    rewrite (H key e Hin Hd). reflexivity.
Qed.

(** X4: when the index has fewer than 2^63 entries, the count of
    index-only events lies between zero and the size of the index, and it
    is zero exactly when every indexed row event has a consumed key. *)
Theorem index_only_count_bounds_and_zero
    (index : gmap BinlogKey BinlogEvent.t) (lines : list (option AvroRecord.t)) :
  Z.of_nat (size index) < 2 ^ 63 ->
  let r := compareAvroWithBinlog index lines in
  0 <= binlogOnly r <= Z.of_nat (size index)
  /\ (binlogOnly r = 0 <->
      forall key binlogEvt,
        index !! key = Some binlogEvt ->
        isDML (BinlogEvent.EventType binlogEvt) = true ->
        binlogMatchedKeys (final r) !! key = Some true).
Proof. apply binlogOnly_spec. Qed.

Lemma index_only_count_bounds_and_zero_witness :
  0 <= binlogOnly (compareAvroWithBinlog (scenarioIndex writeEvent) [])
    <= Z.of_nat (size (scenarioIndex writeEvent)).
Proof.
  refine (proj1 (index_only_count_bounds_and_zero (scenarioIndex writeEvent) [] _)).
  vm_compute. reflexivity.
Defined.

Lemma verdict_spec (index : gmap BinlogKey BinlogEvent.t)
    (lines : list (option AvroRecord.t)) :
  let r := compareAvroWithBinlog index lines in
  verdict r = Consistent
  <-> mismatches (final r) = 0 /\ avroOnly (final r) = 0 /\ binlogOnly r = 0.
Proof.
  unfold compareAvroWithBinlog. cbv zeta.
  destruct (unmatched _ _ _) as [b out]. cbn [final binlogOnly verdict].
  destruct (Z.eqb_spec (mismatches (scan index initialState lines)) 0) as [->|H1];
    [|cbn; split; [discriminate|tauto]].
  destruct (Z.eqb_spec (avroOnly (scan index initialState lines)) 0) as [->|H2];
    [|cbn; split; [discriminate|tauto]].
  destruct (Z.eqb_spec b 0) as [->|H3]; cbn; split; try discriminate; tauto.
Qed.

(** X5: on inputs below 2^63 lines and entries the verdict is
    [Consistent] exactly when every Avro record that carries a key finds an
    indexed event whose timestamp parses and lies within the tolerance, and
    every indexed row event has the key of some such record.  Records
    without a key, malformed lines, and differences of GTID or change type
    have no part in the verdict. *)
Theorem verdict_consistent_means
    (index : gmap BinlogKey BinlogEvent.t) (lines : list (option AvroRecord.t)) :
  Z.of_nat (length lines) < 2 ^ 63 ->
  Z.of_nat (size index) < 2 ^ 63 ->
  verdict (compareAvroWithBinlog index lines) = Consistent
  <-> (forall avroRec,
         In (Some avroRec) lines -> missingKey avroRec = false ->
         exists binlogEvt binlogTime,
           index !! keyOf avroRec = Some binlogEvt
           /\ parseBinlogTime binlogEvt = Some binlogTime
           /\ timestampMismatch avroRec binlogTime = false)
      /\ (forall key binlogEvt,
            index !! key = Some binlogEvt ->
            isDML (BinlogEvent.EventType binlogEvt) = true ->
            exists avroRec,
              In (Some avroRec) lines /\ missingKey avroRec = false
              /\ keyOf avroRec = key).
Proof.
  intros Hlen Hsize.
  pose proof (verdict_spec index lines) as Hv.
  cbv zeta in Hv. rewrite Hv. clear Hv.
  destruct (binlogOnly_spec index lines Hsize) as [_ Hb].
  cbv zeta in Hb. rewrite Hb. clear Hb.
  rewrite final_scan.
  destruct (scan_counters index lines) as (_ & Hmm & Ha & _).
  rewrite Hmm, Ha.
  pose proof (countKind_le isCounted index lines).
  pose proof (countKind_le isSourceOnly index lines).
  rewrite !lineNumAfter_zero by lia. rewrite !countKind_zero.
  assert (Hkind : forall avroRec, missingKey avroRec = false ->
            (isCounted (kindOf index (Some avroRec)) = false
             /\ isSourceOnly (kindOf index (Some avroRec)) = false)
            <-> exists binlogEvt binlogTime,
                  index !! keyOf avroRec = Some binlogEvt
                  /\ parseBinlogTime binlogEvt = Some binlogTime
                  /\ timestampMismatch avroRec binlogTime = false).
  { intros r Hmk. unfold kindOf. rewrite Hmk.
    destruct (index !! keyOf r) as [e|].
    - destruct (parseBinlogTime e) as [bt|] eqn:Ep.
      + destruct (timestampMismatch r bt) eqn:E; cbn.
        * split; [intros [Hx _]; discriminate Hx|].
          intros (e' & bt' & H1 & H2 & H3). congruence.
        * split; [eauto|auto].
      + cbn. split; [intros [Hx _]; discriminate Hx|].
        intros (e' & bt' & H1 & H2 & _). congruence.
    - cbn. split; [intros [_ Hx]; discriminate Hx|].
      intros (e' & bt' & Hx & _). discriminate Hx. }
  split.
  - intros (Hc & Hs & Hk). split.
    + intros r Hin Hmk. apply Hkind; [exact Hmk|]. split; [apply Hc, Hin|apply Hs, Hin].
    + intros key e Hi Hd. specialize (Hk key e Hi Hd).
      apply matched_keys_spec in Hk as (_ & r & Hin & Hmk & Hkey & _).
      eauto.
  - intros (Hrec & Hidx). split; [|split].
    + intros [r|] Hin; [|reflexivity].
      destruct (missingKey r) eqn:Hmk; [unfold kindOf; rewrite Hmk; reflexivity|].
      apply (Hkind r Hmk), Hrec; assumption.
    + intros [r|] Hin; [|reflexivity].
      destruct (missingKey r) eqn:Hmk; [unfold kindOf; rewrite Hmk; reflexivity|].
      apply (Hkind r Hmk), Hrec; assumption.
    + intros key e Hi Hd. destruct (Hidx key e Hi Hd) as (r & Hin & Hmk & Hkey).
      apply matched_keys_spec. split; [reflexivity|].
      exists r. repeat split; try assumption. eauto.
Qed.

Lemma verdict_consistent_means_witness :
  exists binlogEvt binlogTime,
    scenarioIndex writeEvent !! keyOf recordAt100ms = Some binlogEvt
    /\ parseBinlogTime binlogEvt = Some binlogTime
    /\ timestampMismatch recordAt100ms binlogTime = false.
Proof.
  refine (proj1 (proj1 (verdict_consistent_means (scenarioIndex writeEvent)
                          [Some recordAt100ms] _ _) _) recordAt100ms _ _).
  - reflexivity.
  - vm_compute. reflexivity.
  - vm_compute. reflexivity.
  - left. reflexivity.
  - reflexivity.
Defined.

(** ** What the report lists *)

Lemma append_cons (c : ascii) (p s : string) : String c p +:+ s = String c (p +:+ s).
Proof. reflexivity. Qed.

Lemma append_nil (s : string) : "" +:+ s = s.
Proof. reflexivity. Qed.

Lemma length_append (p s : string) :
  String.length (p +:+ s) = (String.length p + String.length s)%nat.
Proof.
  induction p as [|c p IH]; [reflexivity|].
  rewrite append_cons. cbn [String.length]. now rewrite IH.
Qed.

Lemma substring_app_r (p s : string) :
  substring (String.length p) (String.length s) (p +:+ s) = s.
Proof.
  induction p as [|c p IH]; rewrite ?append_cons, ?append_nil; cbn [String.length substring].
  - induction s as [|c s IH]; cbn; [reflexivity|]. now rewrite IH.
  - exact IH.
Qed.

Lemma substring_app_l (p s : string) :
  substring 0 (String.length p) (p +:+ s) = p.
Proof.
  induction p as [|c p IH]; rewrite ?append_cons, ?append_nil; cbn [String.length substring].
  - destruct s; reflexivity.
  - now rewrite IH.
Qed.

Lemma substring_split (n : nat) : forall s : string,
  (n <= String.length s)%nat ->
  s = substring 0 n s +:+ substring n (String.length s - n) s.
Proof.
  induction n as [|n IH]; intros s Hn.
  - rewrite Nat.sub_0_r.
    assert (H0 : substring 0 0 s = "") by (destruct s; reflexivity).
    rewrite H0, append_nil.
    pose proof (substring_app_r "" s) as H. rewrite append_nil in H.
    cbn [String.length] in H. now rewrite H.
  - destruct s as [|c s]; cbn in Hn; [lia|].
    cbn [substring String.length Nat.sub]. rewrite append_cons. f_equal.
    apply IH. lia.
Qed.

Lemma HasSuffix_spec (s suffix : string) :
  strings.HasSuffix s suffix = true <-> exists p, s = p +:+ suffix.
Proof.
  unfold strings.HasSuffix. rewrite andb_true_iff, Nat.leb_le, String.eqb_eq. split.
  - intros [Hlen Hsub].
    exists (substring 0 (String.length s - String.length suffix) s).
    etransitivity;
      [apply (substring_split (String.length s - String.length suffix)); lia|].
    f_equal. rewrite <- Hsub at 3. f_equal. lia.
  - intros [p ->]. rewrite length_append. split; [lia|].
    replace (String.length p + String.length suffix - String.length suffix)%nat
      with (String.length p) by lia.
    apply substring_app_r.
Qed.

Lemma app_suffix_cmp (p : string) : forall q a b : string,
  p +:+ a = q +:+ b -> (String.length b <= String.length a)%nat ->
  exists r, a = r +:+ b.
Proof.
  induction p as [|c p IH]; intros q a b H Hlen.
  - exists q. exact H.
  - destruct q as [|d q].
    + rewrite append_nil in H. subst b. rewrite append_cons in Hlen.
      cbn [String.length] in Hlen. rewrite length_append in Hlen. lia.
    + rewrite !append_cons in H. injection H as _ H. eapply IH; eassumption.
Qed.

Lemma HasSuffix_both (s a b : string) :
  strings.HasSuffix s a = true -> strings.HasSuffix s b = true ->
  (String.length b <= String.length a)%nat -> strings.HasSuffix a b = true.
Proof.
  rewrite !HasSuffix_spec. intros [p ->] [q H] Hlen.
  eapply app_suffix_cmp; eassumption.
Qed.

(** The event types the index retains, seen by the change-type inference
    and the row-event test of the comparison. *)
Lemma relevant_inferred (eventType : string) :
  isRelevantEventType eventType = true ->
  strings.HasSuffix eventType "WriteRowsV1" = false
  /\ strings.HasSuffix eventType "UpdateRowsV1" = false
  /\ strings.HasSuffix eventType "DeleteRowsV2" = false
  /\ strings.HasSuffix eventType "DeleteRowsV1" = false
  /\ strings.HasSuffix eventType "WriteRowsEventV1" = false.
Proof.
  unfold isRelevantEventType. rewrite orb_true_iff, String.eqb_eq.
  intros [H| ->]; [|vm_compute; auto].
  assert (Hno : forall x, (String.length x <= 16)%nat -> (11 <= String.length x)%nat ->
            strings.HasSuffix x "RowsEventV2" = false ->
            strings.HasSuffix eventType x = false).
  { intros x Hx1 Hx2 Hx. destruct (strings.HasSuffix eventType x) eqn:E; [|reflexivity].
    rewrite <- Hx. symmetry. eapply HasSuffix_both; [exact E|exact H|exact Hx2]. }
  repeat split; apply Hno; cbn; try lia; reflexivity.
Qed.

Lemma inferred_relevant (eventType : string) :
  isRelevantEventType eventType = true ->
  inferredBinlogChangeType eventType
  = if strings.HasSuffix eventType "WriteRowsEventV2" then "INSERT"
    else if strings.HasSuffix eventType "UpdateRowsEventV2" then "UPDATE"
    else "".
Proof.
  intros H. destruct (relevant_inferred _ H) as (H1 & H2 & H3 & H4 & _).
  unfold inferredBinlogChangeType. rewrite H1, H2, H3, H4, !orb_false_r. reflexivity.
Qed.

Lemma isDML_relevant (eventType : string) :
  isRelevantEventType eventType = true ->
  isDML eventType
  = strings.HasSuffix eventType "WriteRowsEventV2"
    || strings.HasSuffix eventType "UpdateRowsEventV2"
    || strings.HasSuffix eventType "DeleteRowsEventV2".
Proof.
  intros H. destruct (relevant_inferred _ H) as (_ & H2 & _ & H4 & H5).
  unfold isDML. rewrite H2, H4, H5, !orb_false_r. reflexivity.
Qed.

Lemma loadBinlogData_valid lines key e :
  binlogEvents (loadBinlogData lines) !! key = Some e -> validEntry key e.
Proof.
  apply loadFrom_valid. cbn. intros k x H. rewrite lookup_empty in H. discriminate.
Qed.

Lemma validEntry_relevant key e :
  validEntry key e -> isRelevantEventType (BinlogEvent.EventType e) = true.
Proof.
  intros ([H|H] & _); unfold isRelevantEventType.
  - rewrite H. reflexivity.
  - rewrite H. reflexivity.
Qed.

(** What one step of the scan adds to standard output. *)
Lemma compareLine_stdout index st line :
  exists l, stdout (compareLine index st line) = stdout st ++ l
    /\ forall f, In f l ->
       match f with
       | MISMATCH_ChangeType _ _ _ _ _ =>
           exists avroRec e,
             line = Some avroRec /\ missingKey avroRec = false
             /\ index !! keyOf avroRec = Some e
             /\ f = changeTypeFinding (incr (lineNum st)) avroRec e
             /\ changeTypeMismatch avroRec e = true
       | BINLOG_ONLY _ _ _ _ _ | NoUnmatchedDML | Summary _ _ _ _ _ | CONCLUSION _ => False
       | _ => True
       end.
Proof.
  destruct line as [avroRec|]; [|exists []; cbn; rewrite app_nil_r; split; [reflexivity|tauto]].
  destruct (missingKey avroRec) eqn:Hk.
  { exists []. unfold compareLine. rewrite Hk. cbn. rewrite app_nil_r. split; [reflexivity|tauto]. }
  destruct (index !! keyOf avroRec) as [e|] eqn:Hi.
  - rewrite (compareLine_matched _ _ _ _ Hk Hi).
    destruct (parseBinlogTime e) as [binlogTime|].
    + destruct (consistencyChecks_spec st (incr (lineNum st)) (incr (matches st))
                  (<[keyOf avroRec := true]> (binlogMatchedKeys st)) avroRec e binlogTime)
        as (_ & _ & _ & _ & _ & _ & Hout).
      eexists. split; [exact Hout|].
      intros f Hf. rewrite !in_app_iff in Hf. destruct Hf as [Hf|[Hf|Hf]].
      * destruct (timestampMismatch avroRec binlogTime); [|destruct Hf].
        destruct Hf as [<-|[]]. exact I.
      * destruct (gtidMismatch avroRec e); [|destruct Hf].
        destruct Hf as [<-|[]]. exact I.
      * destruct (changeTypeMismatch avroRec e) eqn:Hc; [|destruct Hf].
        destruct Hf as [<-|[]]. cbn. exists avroRec, e. auto.
    + eexists. split; [reflexivity|]. intros f [<-|[]]. exact I.
  - unfold compareLine. rewrite Hk. cbv zeta. rewrite Hi. cbn [stdout].
    eexists. split; [reflexivity|]. intros f [<-|[]]. exact I.
Qed.

Lemma scan_changeType_findings index lines n key a et inferred :
  In (MISMATCH_ChangeType n key a et inferred) (stdout (scan index initialState lines)) ->
  exists avroRec e,
    In (Some avroRec) lines /\ missingKey avroRec = false
    /\ index !! key = Some e /\ key = keyOf avroRec
    /\ a = avroChangeType avroRec /\ et = BinlogEvent.EventType e
    /\ inferred = inferredBinlogChangeType et
    /\ changeTypeMismatch avroRec e = true.
Proof.
  induction lines as [|line lines IH] using rev_ind; [intros []|].
  rewrite scan_snoc.
  destruct (compareLine_stdout index (scan index initialState lines) line) as (l & -> & Hl).
  rewrite in_app_iff. intros [H|H].
  - destruct (IH H) as (r & e & Hin & Hrest). exists r, e.
    split; [apply in_or_app; left; exact Hin|exact Hrest].
  - destruct (Hl _ H) as (r & e & -> & Hk & Hi & Hf & Hc).
    unfold changeTypeFinding in Hf. injection Hf as -> -> -> -> ->.
    exists r, e. split; [apply in_or_app; right; left; reflexivity|]. auto 10.
Qed.

Lemma scan_no_index_findings index lines f :
  In f (stdout (scan index initialState lines)) ->
  match f with
  | BINLOG_ONLY _ _ _ _ _ | NoUnmatchedDML | Summary _ _ _ _ _ | CONCLUSION _ => False
  | _ => True
  end.
Proof.
  induction lines as [|line lines IH] using rev_ind; [intros []|].
  rewrite scan_snoc.
  destruct (compareLine_stdout index (scan index initialState lines) line) as (l & -> & Hl).
  rewrite in_app_iff. intros [H|H]; [exact (IH H)|].
  specialize (Hl _ H). destruct f; auto.
Qed.

(** The findings the loop over the index adds. *)
Lemma unmatched_out matched l : forall n out,
  snd (fold_left (binlogOnlyStep matched) l (n, out))
  = out ++ map (fun entry =>
                  BINLOG_ONLY (fst entry) (BinlogEvent.EventType (snd entry))
                    (BinlogEvent.Schema (snd entry)) (BinlogEvent.Table (snd entry))
                    (BinlogEvent.Timestamp (snd entry)))
             (List.filter (unmatchedDML matched) l).
Proof.
  induction l as [|[k e] l IH]; intros n out; cbn [fold_left List.filter];
    [cbn; now rewrite app_nil_r|].
  assert (Hstep : binlogOnlyStep matched (n, out) (k, e)
                  = if unmatchedDML matched (k, e)
                    then (incr n,
                          out ++ [BINLOG_ONLY k (BinlogEvent.EventType e)
                                    (BinlogEvent.Schema e) (BinlogEvent.Table e)
                                    (BinlogEvent.Timestamp e)])
                    else (n, out)).
  { unfold binlogOnlyStep, unmatchedDML. cbn [fst snd].
    destruct (negb _), (isDML _); reflexivity. }
  rewrite Hstep. destruct (unmatchedDML matched (k, e)); [|apply IH].
  rewrite IH. cbn [map fst snd]. rewrite <- app_assoc. reflexivity.
Qed.

Lemma rp_stdout_spec index lines :
  let r := compareAvroWithBinlog index lines in
  let st := scan index initialState lines in
  rp_stdout r
  = stdout st
    ++ map (fun entry =>
              BINLOG_ONLY (fst entry) (BinlogEvent.EventType (snd entry))
                (BinlogEvent.Schema (snd entry)) (BinlogEvent.Table (snd entry))
                (BinlogEvent.Timestamp (snd entry)))
         (List.filter (unmatchedDML (binlogMatchedKeys st)) (map_to_list index))
    ++ (if binlogOnly r =? 0 then [NoUnmatchedDML] else [])
    ++ [Summary (lineNum st) (matches st) (mismatches st) (avroOnly st) (binlogOnly r);
        CONCLUSION (verdict r)].
Proof.
  unfold compareAvroWithBinlog. cbv zeta.
  pose proof (unmatched_out (binlogMatchedKeys (scan index initialState lines))
                (map_to_list index) 0 (stdout (scan index initialState lines))) as Hout.
  unfold unmatched.
  destruct (fold_left _ _ _) as [b out]. cbn [snd] in Hout. subst out.
  cbn [rp_stdout binlogOnly verdict].
  destruct (b =? 0); rewrite <- ?app_assoc; reflexivity.
Qed.

(** X6: in a report computed against an index that [loadBinlogData]
    built, a change-type finding names a non-empty declared kind, and the
    inferred kind it names is INSERT for an event type ending in
    WriteRowsEventV2 or UPDATE for one ending in UpdateRowsEventV2: no
    finding is ever made against an inferred DELETE, whatever the two
    inputs are. *)
Theorem change_type_findings_never_concern_deletes
    (binlogLines : list (option (gmap string iface)))
    (avroLines : list (option AvroRecord.t))
    (n : Z) (key : BinlogKey) (declared eventType inferred : string) :
  In (MISMATCH_ChangeType n key declared eventType inferred)
     (rp_stdout (compareAvroWithBinlog (binlogEvents (loadBinlogData binlogLines)) avroLines)) ->
  declared <> ""
  /\ (inferred = "INSERT" /\ strings.HasSuffix eventType "WriteRowsEventV2" = true
      \/ inferred = "UPDATE" /\ strings.HasSuffix eventType "UpdateRowsEventV2" = true
         /\ strings.HasSuffix eventType "WriteRowsEventV2" = false).
Proof.
  pose proof (rp_stdout_spec (binlogEvents (loadBinlogData binlogLines)) avroLines) as Hr.
  cbv zeta in Hr. rewrite Hr. clear Hr.
  rewrite !in_app_iff. intros [H|[H|[H|H]]].
  - apply scan_changeType_findings in H
      as (r & e & _ & _ & Hi & _ & -> & -> & -> & Hc).
    apply loadBinlogData_valid, validEntry_relevant in Hi.
    unfold changeTypeMismatch in Hc. cbv zeta in Hc.
    rewrite (inferred_relevant _ Hi) in *.
    apply andb_true_iff in Hc as [Hc _]. apply andb_true_iff in Hc as [Ha Hinf].
    apply negb_true_iff in Ha, Hinf.
    apply String.eqb_neq in Ha.
    destruct (strings.HasSuffix (BinlogEvent.EventType e) "WriteRowsEventV2").
    + split; [exact Ha|]. left. auto.
    + destruct (strings.HasSuffix (BinlogEvent.EventType e) "UpdateRowsEventV2").
      * split; [exact Ha|]. right. auto.
      * discriminate Hinf.
  - apply in_map_iff in H as (x & Hx & _). discriminate Hx.
  - destruct (_ =? 0); [destruct H as [H|[]]; discriminate H|destruct H].
  - destruct H as [H|[H|[]]]; discriminate H.
Qed.

Lemma change_type_findings_never_concern_deletes_witness :
  "UPDATE" <> ""
  /\ ("INSERT" = "INSERT" /\ strings.HasSuffix "WriteRowsEventV2" "WriteRowsEventV2" = true
      \/ "INSERT" = "UPDATE" /\ strings.HasSuffix "WriteRowsEventV2" "UpdateRowsEventV2" = true
         /\ strings.HasSuffix "WriteRowsEventV2" "WriteRowsEventV2" = false).
Proof.
  apply (change_type_findings_never_concern_deletes
           [Some (writeLine 500)]
           [Some (scenarioRecord 1704067200000 "UPDATE" "" "a.000001" 500)]
           1 ("a.000001", 500)).
  vm_compute. left. reflexivity.
Defined.

Lemma unmatchedDML_spec index lines key e :
  index !! key = Some e ->
  unmatchedDML (binlogMatchedKeys (scan index initialState lines)) (key, e) = true
  <-> isDML (BinlogEvent.EventType e) = true
      /\ forall avroRec, In (Some avroRec) lines -> missingKey avroRec = false ->
                         keyOf avroRec <> key.
Proof.
  intros Hi. unfold unmatchedDML. cbn [fst snd].
  rewrite andb_true_iff, negb_true_iff. rewrite (and_comm (isDML _ = true)).
  apply and_iff_compat_r.
  destruct (binlogMatchedKeys (scan index initialState lines) !! key) as [b|] eqn:Hm.
  - apply matched_keys_spec in Hm as (-> & r & Hin & Hk & Hkey & _). cbn. split; [discriminate|].
    intros H. destruct (H r Hin Hk Hkey).
  - cbn. split; [|reflexivity]. intros _ r Hin Hk Hkey.
    assert (Hs : binlogMatchedKeys (scan index initialState lines) !! key = Some true).
    { apply matched_keys_spec. split; [reflexivity|]. exists r. rewrite Hi. eauto. }
    rewrite Hm in Hs. discriminate.
Qed.

(** X7: the report lists an event as present in the index only exactly
    when the index holds it under the key shown, its type is one of the row
    event types of the loop over the index, and no Avro record that carries
    a key has that key; the type, schema, table and timestamp shown are
    those of the indexed event. *)
Theorem index_only_findings_are_the_unjoined_row_events
    (index : gmap BinlogKey BinlogEvent.t) (lines : list (option AvroRecord.t))
    (key : BinlogKey) (eventType schema table ts : string) :
  In (BINLOG_ONLY key eventType schema table ts)
     (rp_stdout (compareAvroWithBinlog index lines))
  <-> exists binlogEvt,
        index !! key = Some binlogEvt
        /\ isDML (BinlogEvent.EventType binlogEvt) = true
        /\ (forall avroRec, In (Some avroRec) lines -> missingKey avroRec = false ->
                            keyOf avroRec <> key)
        /\ eventType = BinlogEvent.EventType binlogEvt
        /\ schema = BinlogEvent.Schema binlogEvt
        /\ table = BinlogEvent.Table binlogEvt
        /\ ts = BinlogEvent.Timestamp binlogEvt.
Proof.
  pose proof (rp_stdout_spec index lines) as Hr. cbv zeta in Hr. rewrite Hr. clear Hr.
  rewrite !in_app_iff. split.
  - intros [H|[H|[H|H]]].
    + apply scan_no_index_findings in H. destruct H.
    + apply in_map_iff in H as ([k e] & Hf & Hin). cbn [fst snd] in Hf.
      injection Hf as -> <- <- <- <-.
      apply filter_In in Hin as [Hin Hu].
      apply list_elem_of_In, elem_of_map_to_list in Hin.
      apply (unmatchedDML_spec _ _ _ _ Hin) in Hu as [Hd Hn].
      exists e. auto 10.
    + destruct (_ =? 0); [destruct H as [H|[]]; discriminate H|destruct H].
    + destruct H as [H|[H|[]]]; discriminate H.
  - intros (e & Hi & Hd & Hn & -> & -> & -> & ->). right. left.
    apply in_map_iff. exists (key, e). split; [reflexivity|].
    apply filter_In. split.
    + apply list_elem_of_In, elem_of_map_to_list. exact Hi.
    + apply (unmatchedDML_spec _ _ _ _ Hi). auto.
Qed.

Lemma unixNano_zeroTime : unixNano time.zeroTime = - 62135596800000000000.
Proof. reflexivity. Qed.

(** X8: a matched event whose two timestamp fields are empty is never
    reported as a parse error; the record is compared with the zero time
    (1 January of year 1), so it is counted and printed as a timestamp
    mismatch when its source timestamp is more than 100 ms away from
    -62135596800000 ms, as every timestamp of the Unix era is, and not
    counted otherwise. *)
Theorem event_without_timestamps_is_compared_with_year_one
    (index : gmap BinlogKey BinlogEvent.t) (st : compareState)
    (avroRec : AvroRecord.t) (binlogEvt : BinlogEvent.t) :
  missingKey avroRec = false ->
  index !! keyOf avroRec = Some binlogEvt ->
  BinlogEvent.ImmediateCommmitTimestamp binlogEvt = "" ->
  BinlogEvent.Timestamp binlogEvt = "" ->
  in_int64 (AvroRecord.SourceTimestamp avroRec) ->
  let st' := compareLine index st (Some avroRec) in
  (100 < Z.abs (AvroRecord.SourceTimestamp avroRec + 62135596800000) ->
   mismatches st' = incr (mismatches st)
   /\ In (timestampFinding (incr (lineNum st)) avroRec binlogEvt time.zeroTime)
         (newFindings st st'))
  /\ (Z.abs (AvroRecord.SourceTimestamp avroRec + 62135596800000) <= 100 ->
      mismatches st' = mismatches st)
  /\ ~ In (errorFinding (incr (lineNum st)) avroRec binlogEvt) (newFindings st st').
Proof.
  intros Hk Hi Hc Ht Hms st'. unfold st'.
  rewrite (compareLine_matched _ _ _ _ Hk Hi).
  assert (Hp : parseBinlogTime binlogEvt = Some time.zeroTime).
  { unfold parseBinlogTime. rewrite Hc, Ht. reflexivity. }
  rewrite Hp.
  destruct (consistencyChecks_spec st (incr (lineNum st)) (incr (matches st))
              (<[keyOf avroRec := true]> (binlogMatchedKeys st)) avroRec binlogEvt
              time.zeroTime) as (_ & _ & _ & _ & _ & Hmm & Hout).
  rewrite Hmm, (newFindings_app _ _ _ Hout).
  rewrite (timestampMismatch_spec _ _ Hms zeroTime_valid), unixNano_zeroTime.
  split; [|split].
  - intros Hfar.
    destruct (Z.ltb_spec 100000000
                (Z.abs (AvroRecord.SourceTimestamp avroRec * 1000000
                        - -62135596800000000000))) as [_|Hle]; [|lia].
    split; [reflexivity|]. left. reflexivity.
  - intros Hnear.
    destruct (Z.ltb_spec 100000000
                (Z.abs (AvroRecord.SourceTimestamp avroRec * 1000000
                        - -62135596800000000000))) as [Hlt|_]; [lia|reflexivity].
  - rewrite !in_app_iff. unfold errorFinding, timestampFinding, gtidFinding, changeTypeFinding.
    intros [H|[H|H]].
    + destruct (_ <? _); [destruct H as [H|[]]; discriminate H|destruct H].
    + destruct (gtidMismatch _ _); [destruct H as [H|[]]; discriminate H|destruct H].
    + destruct (changeTypeMismatch _ _); [destruct H as [H|[]]; discriminate H|destruct H].
Qed.

Lemma event_without_timestamps_is_compared_with_year_one_witness :
  mismatches (compareLine (scenarioIndex untimedEvent) initialState (Some insertRecord)) = 1.
Proof.
  refine (proj1 (proj1 (event_without_timestamps_is_compared_with_year_one
    (scenarioIndex untimedEvent) initialState insertRecord untimedEvent _ _ _ _ _) _)).
  - reflexivity.
  - reflexivity.
  - reflexivity.
  - reflexivity.
  - vm_compute. split; discriminate.
  - vm_compute. reflexivity.
Defined.

(** ** The scanner loop of the normalizer *)

Lemma length_zero_iff (s : string) : (String.length s =? 0)%nat = true <-> s = "".
Proof. destruct s; cbn; split; congruence. Qed.

Lemma eventHeader_length line title :
  eventHeader line = Some title -> (9 <= String.length line)%nat.
Proof.
  unfold eventHeader. destruct (9 <=? String.length line)%nat eqn:E; [|discriminate].
  intros _. apply Nat.leb_le, E.
Qed.

Section ParserLoopFacts.

Variable reencodeHighPrecision : string -> option string.
Variable binlogFileBasename : string.

Local Abbreviation step := (parseLine reencodeHighPrecision binlogFileBasename).
Local Abbreviation output := (parseAll reencodeHighPrecision binlogFileBasename).

Lemma parseLine_header st text title :
  eventHeader (strings.TrimSpace text) = Some title ->
  step st text
  = mkParserState (Some (<["event_type" := FString (parsedEventType title)]> ∅))
      (flush binlogFileBasename st) (ps_warnings st).
Proof.
  intros H. unfold parseLine. cbv zeta. rewrite H.
  pose proof (eventHeader_length _ _ H) as Hlen.
  destruct (String.length (strings.TrimSpace text) =? 0)%nat eqn:E0.
  { apply Nat.eqb_eq in E0. lia. }
  destruct (String.eqb_spec (strings.TrimSpace text) "--") as [E|_].
  { rewrite E in Hlen. cbn in Hlen. lia. }
  reflexivity.
Qed.

Lemma parseLine_field st text :
  eventHeader (strings.TrimSpace text) = None ->
  step st text
  = match ps_current st, keyValue (strings.TrimSpace text) with
    | Some currentEvent, Some (k, v) =>
        let '(ev, ws) := setField reencodeHighPrecision currentEvent
                           (strings.TrimSpace k) (strings.TrimSpace v) in
        mkParserState (Some ev) (ps_printed st) (ps_warnings st ++ ws)
    | _, _ => st
    end.
Proof.
  intros H. unfold parseLine. cbv zeta. rewrite H.
  destruct (String.length (strings.TrimSpace text) =? 0)%nat eqn:E0.
  { apply length_zero_iff in E0. rewrite E0. destruct (ps_current st); reflexivity. }
  destruct (String.eqb_spec (strings.TrimSpace text) "--") as [E|_].
  { rewrite E. destruct (ps_current st); reflexivity. }
  destruct (ps_current st); [|reflexivity].
  destruct (keyValue _) as [[k v]|]; reflexivity.
Qed.

Lemma parseLine_insignificant st text :
  isHeaderLine text = false -> isFieldLine text = false -> step st text = st.
Proof.
  unfold isHeaderLine, isFieldLine. intros Hh Hf.
  destruct (eventHeader _) eqn:E; [discriminate|].
  rewrite (parseLine_field _ _ E).
  destruct (keyValue _); [discriminate|]. destruct (ps_current st); reflexivity.
Qed.

Lemma parseLine_preamble ps ws text :
  isHeaderLine text = false ->
  step (mkParserState None ps ws) text = mkParserState None ps ws.
Proof.
  unfold isHeaderLine. intros Hh.
  destruct (eventHeader _) eqn:E; [discriminate|].
  rewrite (parseLine_field _ _ E). reflexivity.
Qed.

Lemma fold_insignificant lines : forall st,
  fold_left step (List.filter (fun text => isHeaderLine text || isFieldLine text) lines) st
  = fold_left step lines st.
Proof.
  induction lines as [|text lines IH]; intros st; cbn [List.filter fold_left]; [reflexivity|].
  destruct (isHeaderLine text) eqn:Hh; cbn [orb fold_left]; [apply IH|].
  destruct (isFieldLine text) eqn:Hf; cbn [fold_left]; [apply IH|].
  rewrite parseLine_insignificant by assumption. apply IH.
Qed.

Lemma fold_preamble lines : forall ps ws,
  forallb (fun text => negb (isHeaderLine text)) lines = true ->
  fold_left step lines (mkParserState None ps ws) = mkParserState None ps ws.
Proof.
  induction lines as [|text lines IH]; intros ps ws H; cbn [fold_left]; [reflexivity|].
  cbn [forallb] in H. apply andb_true_iff in H as [H1 H2]. apply negb_true_iff in H1.
  rewrite parseLine_preamble by assumption. apply IH, H2.
Qed.

(** Printing before the loop and warning before it do not change what the
    loop does. *)
Lemma parseLine_frame ps ws st text :
  step (mkParserState (ps_current st) (ps ++ ps_printed st) (ws ++ ps_warnings st)) text
  = let st' := step st text in
    mkParserState (ps_current st') (ps ++ ps_printed st') (ws ++ ps_warnings st').
Proof.
  destruct (eventHeader (strings.TrimSpace text)) as [title|] eqn:E.
  - rewrite !(parseLine_header _ _ _ E). cbn. f_equal.
    unfold flush. cbn. destruct (ps_current st); [rewrite app_assoc|]; reflexivity.
  - rewrite !(parseLine_field _ _ E). cbn [ps_current ps_printed ps_warnings].
    destruct (ps_current st) as [cur|] eqn:Ec; [|cbn; now rewrite Ec].
    destruct (keyValue _) as [[k v]|]; [|cbn; now rewrite Ec].
    destruct (setField _ _ _ _) as [ev w]. cbn. now rewrite app_assoc.
Qed.

Lemma fold_frame lines : forall ps ws st,
  fold_left step lines
    (mkParserState (ps_current st) (ps ++ ps_printed st) (ws ++ ps_warnings st))
  = let st' := fold_left step lines st in
    mkParserState (ps_current st') (ps ++ ps_printed st') (ws ++ ps_warnings st').
Proof.
  induction lines as [|text lines IH]; intros ps ws st; cbn [fold_left]; [reflexivity|].
  rewrite parseLine_frame. cbv zeta. apply IH.
Qed.

(** The number of events printed so far and the one being built. *)
Lemma fold_count lines : forall st,
  length (flush binlogFileBasename (fold_left step lines st))
  = (length (flush binlogFileBasename st) + length (List.filter isHeaderLine lines))%nat.
Proof.
  induction lines as [|text lines IH]; intros st; cbn [fold_left List.filter]; [cbn; lia|].
  rewrite IH. unfold isHeaderLine at 2.
  destruct (eventHeader (strings.TrimSpace text)) as [title|] eqn:E.
  - rewrite (parseLine_header _ _ _ E). unfold flush at 1.
    cbn [ps_current ps_printed]. rewrite length_app. cbn [length]. lia.
  - rewrite (parseLine_field _ _ E). f_equal.
    destruct (ps_current st) as [cur|] eqn:Ec; [|reflexivity].
    destruct (keyValue _) as [[k v]|]; [|reflexivity].
    destruct (setField _ _ _ _) as [ev w]. unfold flush. cbn. rewrite Ec, !length_app.
    reflexivity.
Qed.

Lemma output_insignificant lines :
  output (List.filter (fun text => isHeaderLine text || isFieldLine text) lines)
  = output lines.
Proof. unfold parseAll, parseLines. rewrite fold_insignificant. reflexivity. Qed.

Lemma output_preamble preamble lines :
  forallb (fun text => negb (isHeaderLine text)) preamble = true ->
  output (preamble ++ lines) = output lines.
Proof.
  intros H. unfold parseAll, parseLines.
  rewrite fold_left_app, fold_preamble by assumption. reflexivity.
Qed.

Lemma output_blocks before header after :
  isHeaderLine header = true ->
  output (before ++ header :: after)
  = (fst (output before) ++ fst (output (header :: after)),
     snd (output before) ++ snd (output (header :: after))).
Proof.
  unfold isHeaderLine. destruct (eventHeader _) as [title|] eqn:E; [intros _|discriminate].
  unfold parseAll, parseLines. cbn [fst snd].
  rewrite fold_left_app. cbn [fold_left].
  set (st := fold_left step before (mkParserState None [] [])).
  rewrite !(parseLine_header _ _ _ E).
  pose proof (fold_frame after (flush binlogFileBasename st) (ps_warnings st)
                (mkParserState (Some (<["event_type" := FString (parsedEventType title)]> ∅))
                   [] [])) as H.
  cbn [ps_current ps_printed ps_warnings flush] in H. rewrite !app_nil_r in H.
  cbn [flush ps_current ps_printed ps_warnings]. rewrite H. clear H. cbv zeta.
  unfold flush. cbn [ps_current ps_printed ps_warnings].
  destruct (ps_current (fold_left _ after _)); rewrite ?app_assoc; reflexivity.
Qed.

Lemma output_count lines :
  length (fst (output lines)) = length (List.filter isHeaderLine lines).
Proof. unfold parseAll, parseLines. cbn [fst]. rewrite fold_count. reflexivity. Qed.

(** The field switch writes one entry of the event at most, and removes
    none. *)
Lemma setField_frame (currentEvent : gmap string field) (key value : string) :
  exists k,
    (k = normalizeKey key \/ key = "Date" /\ k = "timestamp")
    /\ (fst (setField reencodeHighPrecision currentEvent key value) = currentEvent
        \/ exists v, fst (setField reencodeHighPrecision currentEvent key value)
                     = <[k := v]> currentEvent)
    /\ (length (snd (setField reencodeHighPrecision currentEvent key value)) <= 1)%nat.
Proof.
  unfold setField. cbv zeta.
  destruct (String.eqb_spec key "Date") as [->|_].
  { destruct (time.Parse _ _); cbn [fst snd length].
    - exists "timestamp". split; [auto|split; [right; eexists; reflexivity|lia]].
    - exists "date". split; [left; reflexivity|split; [right; eexists; reflexivity|lia]]. }
  destruct (String.eqb_spec key "Log position") as [->|_].
  { exists "log_position". split; [left; reflexivity|].
    destruct (strconv.ParseInt _); cbn [fst snd length];
      (split; [right; eexists; reflexivity|lia]). }
  exists (normalizeKey key). split; [left; reflexivity|].
  destruct (existsb _ _); [cbn; split; [right; eexists; reflexivity|lia]|].
  destruct (_ || _).
  { destruct (_ && _).
    - destruct (time.Parse _ _); cbn; (split; [right; eexists; reflexivity|lia]).
    - destruct (reencodeHighPrecision _); cbn; (split; [right; eexists; reflexivity|lia]). }
  destruct (String.eqb_spec key "Event type") as [->|_];
    [|cbn; split; [right; eexists; reflexivity|lia]].
  repeat (destruct (strings.Contains value _);
          [cbn; split; [right; eexists; reflexivity|lia]|]).
  cbn. split; [left; reflexivity|lia].
Qed.

Lemma setField_keeps (currentEvent : gmap string field) (key value k : string) :
  is_Some (currentEvent !! k) ->
  is_Some (fst (setField reencodeHighPrecision currentEvent key value) !! k).
Proof.
  intros Hk. destruct (setField_frame currentEvent key value) as (k0 & _ & [->|[v ->]] & _);
    [exact Hk|].
  destruct (decide (k0 = k)) as [->|Hne].
  - rewrite lookup_insert_eq. eauto.
  - rewrite lookup_insert_ne by exact Hne. exact Hk.
Qed.

(** What the loop maintains: the event being built has its type, and the
    events printed have their type and carry the file name. *)
Lemma flush_stamped st :
  (forall ev, ps_current st = Some ev -> is_Some (ev !! "event_type")) ->
  (forall ev, In ev (ps_printed st) ->
     ev !! "binlog_file" = Some (FString binlogFileBasename)
     /\ is_Some (ev !! "event_type")) ->
  forall ev, In ev (flush binlogFileBasename st) ->
    ev !! "binlog_file" = Some (FString binlogFileBasename)
    /\ is_Some (ev !! "event_type").
Proof.
  intros Hc Hp ev. unfold flush. destruct (ps_current st) as [cur|]; [|apply Hp].
  rewrite in_app_iff. intros [H|[<-|[]]]; [apply Hp, H|].
  split; [apply lookup_insert_eq|].
  rewrite lookup_insert_ne by discriminate. apply Hc. reflexivity.
Qed.

Lemma fold_stamped lines : forall st,
  (forall ev, ps_current st = Some ev -> is_Some (ev !! "event_type")) ->
  (forall ev, In ev (ps_printed st) ->
     ev !! "binlog_file" = Some (FString binlogFileBasename)
     /\ is_Some (ev !! "event_type")) ->
  forall ev, In ev (flush binlogFileBasename (fold_left step lines st)) ->
    ev !! "binlog_file" = Some (FString binlogFileBasename)
    /\ is_Some (ev !! "event_type").
Proof.
  induction lines as [|text lines IH]; intros st Hc Hp; cbn [fold_left];
    [apply flush_stamped; assumption|].
  destruct (eventHeader (strings.TrimSpace text)) as [title|] eqn:E.
  - rewrite (parseLine_header _ _ _ E). apply IH; cbn [ps_current ps_printed].
    + intros ev [= <-]. rewrite lookup_insert_eq. eauto.
    + apply flush_stamped; assumption.
  - rewrite (parseLine_field _ _ E).
    destruct (ps_current st) as [cur|] eqn:Ec; [|apply IH; [rewrite Ec|]; assumption].
    destruct (keyValue _) as [[k v]|]; [|apply IH; [rewrite Ec|]; assumption].
    pose proof (setField_keeps cur (strings.TrimSpace k) (strings.TrimSpace v) "event_type")
      as Hk.
    destruct (setField _ _ _ _) as [ev' w]. apply IH; cbn [ps_current ps_printed].
    + intros ev [= <-]. apply Hk, Hc. reflexivity.
    + exact Hp.
Qed.

Lemma output_stamped lines ev :
  In ev (fst (output lines)) ->
  ev !! "binlog_file" = Some (FString binlogFileBasename)
  /\ is_Some (ev !! "event_type").
Proof.
  unfold parseAll, parseLines. cbn [fst]. apply fold_stamped; cbn.
  - discriminate.
  - intros ? [].
Qed.

End ParserLoopFacts.

(** X9: the output of the normalizer, events and warnings, is that of
    the input reduced to its header lines and its [key: value] lines (blank
    lines, [--] separators and any other text change nothing), and lines
    that precede the first header change nothing either, fields
    included. *)
Theorem only_headers_and_fields_after_a_header_count
    (reencodeHighPrecision : string -> option string) (binlogFileBasename : string)
    (preamble lines : list string) :
  parseAll reencodeHighPrecision binlogFileBasename
    (List.filter (fun text => isHeaderLine text || isFieldLine text) lines)
  = parseAll reencodeHighPrecision binlogFileBasename lines
  /\ (forallb (fun text => negb (isHeaderLine text)) preamble = true ->
      parseAll reencodeHighPrecision binlogFileBasename (preamble ++ lines)
      = parseAll reencodeHighPrecision binlogFileBasename lines).
Proof. split; [apply output_insignificant|apply output_preamble]. Qed.

Lemma only_headers_and_fields_after_a_header_count_witness :
  parseAll (fun _ => None) "mysql-bin.000001"
    (["Log position: 4"; "--"] ++ ["=== XIDEvent ==="; "Log position: 31"])
  = parseAll (fun _ => None) "mysql-bin.000001" ["=== XIDEvent ==="; "Log position: 31"].
Proof.
  refine (proj2 (only_headers_and_fields_after_a_header_count (fun _ => None)
                   "mysql-bin.000001" ["Log position: 4"; "--"]
                   ["=== XIDEvent ==="; "Log position: 31"]) _).
  vm_compute. reflexivity.
Defined.

(** X10: at a header line the input splits: the events and warnings of
    the whole input are those of the lines before the header followed by
    those of the header and the lines after it, so an event depends on the
    lines of its own block only. *)
Theorem events_are_parsed_block_by_block
    (reencodeHighPrecision : string -> option string) (binlogFileBasename : string)
    (before after : list string) (header : string) :
  isHeaderLine header = true ->
  let parse := parseAll reencodeHighPrecision binlogFileBasename in
  parse (before ++ header :: after)
  = (fst (parse before) ++ fst (parse (header :: after)),
     snd (parse before) ++ snd (parse (header :: after))).
Proof. intros H parse. apply output_blocks, H. Qed.

Lemma events_are_parsed_block_by_block_witness :
  parseAll (fun _ => None) "mysql-bin.000001"
    (["=== QueryEvent ==="; "Log position: 4"]
       ++ "=== XIDEvent ===" :: ["Log position: 31"])
  = (fst (parseAll (fun _ => None) "mysql-bin.000001"
            ["=== QueryEvent ==="; "Log position: 4"])
       ++ fst (parseAll (fun _ => None) "mysql-bin.000001"
                 ("=== XIDEvent ===" :: ["Log position: 31"])),
     snd (parseAll (fun _ => None) "mysql-bin.000001"
            ["=== QueryEvent ==="; "Log position: 4"])
       ++ snd (parseAll (fun _ => None) "mysql-bin.000001"
                 ("=== XIDEvent ===" :: ["Log position: 31"]))).
Proof.
  refine (events_are_parsed_block_by_block (fun _ => None) "mysql-bin.000001"
            ["=== QueryEvent ==="; "Log position: 4"] ["Log position: 31"]
            "=== XIDEvent ===" _).
  vm_compute. reflexivity.
Defined.

(** X11: the field switch keeps every entry the event already has,
    changes at most the entry of one key, which is the normalized key of
    the field or [timestamp] for a [Date] field, and emits at most one
    warning. *)
Theorem field_switch_writes_one_entry_and_removes_none
    (reencodeHighPrecision : string -> option string)
    (currentEvent : gmap string field) (key value : string) :
  let '(event, warnings) := setField reencodeHighPrecision currentEvent key value in
  (forall k, is_Some (currentEvent !! k) -> is_Some (event !! k))
  /\ (exists k, (k = normalizeKey key \/ key = "Date" /\ k = "timestamp")
               /\ forall k', k' <> k -> event !! k' = currentEvent !! k')
  /\ (length warnings <= 1)%nat.
Proof.
  pose proof (setField_keeps reencodeHighPrecision currentEvent key value) as Hk.
  destruct (setField_frame reencodeHighPrecision currentEvent key value)
    as (k & Hkey & Hev & Hw).
  destruct (setField _ _ _ _) as [event warnings]. cbn [fst snd] in *.
  split; [exact Hk|]. split; [|exact Hw].
  exists k. split; [exact Hkey|]. intros k' Hne.
  destruct Hev as [->|[v ->]]; [reflexivity|].
  apply lookup_insert_ne. congruence.
Qed.

(** X12: called with a file argument, [main] of the normalizer prints
    one event for each header line of its input, and every event printed
    carries the base name of the argument under [binlog_file], whatever the
    input says about that field, and has an [event_type]. *)
Theorem normalizer_prints_one_stamped_event_per_header
    (reencodeHighPrecision : string -> option string)
    (program path : string) (rest stdin : list string) (readError : bool) :
  exists printed warnings,
    json_parser.main reencodeHighPrecision (program :: path :: rest) stdin readError
    = ParserDone printed warnings readError
    /\ length printed = length (List.filter isHeaderLine stdin)
    /\ forall event, In event printed ->
         event !! "binlog_file" = Some (FString (filepath.Base path))
         /\ is_Some (event !! "event_type").
Proof.
  unfold json_parser.main.
  pose proof (output_count reencodeHighPrecision (filepath.Base path) stdin) as Hc.
  pose proof (output_stamped reencodeHighPrecision (filepath.Base path) stdin) as Hs.
  destruct (parseAll _ _ _) as [printed warnings]. cbn [fst] in *.
  exists printed, warnings. auto.
Qed.

(** ** The patterns of the normalizer and the file name *)

Lemma append_assoc (a b c : string) : (a +:+ b) +:+ c = a +:+ (b +:+ c).
Proof. induction a as [|x a IH]; [reflexivity|]. rewrite !append_cons. now rewrite IH. Qed.

Lemma append_nil_r (a : string) : a +:+ "" = a.
Proof. induction a as [|x a IH]; [reflexivity|]. rewrite append_cons. now rewrite IH. Qed.

Lemma Contains_byte (c x : ascii) (s : string) :
  strings.Contains (String x s) (String c "")
  = Ascii.eqb c x || strings.Contains s (String c "").
Proof.
  cbn [strings.Contains strings.HasPrefix]. destruct s; rewrite andb_true_r; reflexivity.
Qed.

Lemma Contains_byte_nil (c : ascii) : strings.Contains "" (String c "") = false.
Proof. reflexivity. Qed.

Lemma cutColon_spec (s : string) : forall k r,
  cutColon s = Some (k, r)
  <-> s = k +:+ String ":" r /\ strings.Contains k ":" = false.
Proof.
  induction s as [|c s IH]; intros k r; cbn [cutColon].
  - split; [discriminate|]. intros [H _]. destruct k; discriminate H.
  - destruct (Ascii.eqb_spec c ":") as [->|Hc].
    + split.
      * intros [= <- <-]. split; reflexivity.
      * intros [H Hk]. destruct k as [|d k].
        -- rewrite append_nil in H. congruence.
        -- rewrite append_cons in H. injection H as <- _.
           rewrite Contains_byte, Ascii.eqb_refl in Hk. discriminate Hk.
    + split.
      * remember (cutColon s) as o eqn:E in |- *. symmetry in E.
        destruct o as [[k' v]|]; [|discriminate].
        intros [= <- <-]. apply IH in E as [-> Hk]. rewrite append_cons.
        split; [reflexivity|]. rewrite Contains_byte, Hk, orb_false_r.
        apply Ascii.eqb_neq. congruence.
      * intros [H Hk]. destruct k as [|d k].
        -- rewrite append_nil in H. congruence.
        -- rewrite append_cons in H. injection H as <- H.
           rewrite Contains_byte in Hk. apply orb_false_iff in Hk as [_ Hk].
           assert (E : cutColon s = Some (k, r)) by (apply IH; auto).
           rewrite E. reflexivity.
Qed.

Lemma keyValue_spec (line k v : string) :
  keyValue line = Some (k, v)
  <-> line = k +:+ ": " +:+ v
      /\ k <> "" /\ strings.Contains k ":" = false
      /\ v <> "" /\ hasNewline v = false.
Proof.
  unfold keyValue. split.
  - destruct (cutColon line) as [[k' r]|] eqn:E; [|discriminate].
    destruct r as [|sp v']; [discriminate|].
    destruct (Ascii.eqb_spec sp " ") as [->|]; [|discriminate]. cbn [andb].
    destruct (String.eqb_spec k' "") as [|Hk]; [discriminate|]. cbn [andb negb].
    destruct (String.eqb_spec v' "") as [|Hv]; [discriminate|]. cbn [andb negb].
    destruct (hasNewline v') eqn:Hn; [discriminate|]. intros [= <- <-].
    apply cutColon_spec in E as [-> Hc]. auto.
  - intros (-> & Hk & Hc & Hv & Hn).
    assert (E : cutColon (k +:+ ": " +:+ v) = Some (k, String " " v))
      by (apply cutColon_spec; auto).
    rewrite E, Ascii.eqb_refl, Hn. cbn [andb negb].
    destruct (String.eqb_spec k "") as [|_]; [contradiction|].
    destruct (String.eqb_spec v "") as [|_]; [contradiction|]. reflexivity.
Qed.

Lemma header_title (t : string) :
  substring 4 (String.length ("=== " +:+ t +:+ " ===") - 8) ("=== " +:+ t +:+ " ===") = t.
Proof.
  rewrite !length_append.
  change ("=== " +:+ t +:+ " ===")
    with (String "=" (String "=" (String "=" (String " " (t +:+ " ==="))))).
  cbn [String.length substring Nat.sub Nat.add].
  replace (String.length t + 4 - 4)%nat with (String.length t) by lia.
  apply substring_app_l.
Qed.

Lemma eventHeader_spec (line title : string) :
  eventHeader line = Some title
  <-> line = "=== " +:+ title +:+ " ===" /\ title <> "" /\ hasNewline title = false.
Proof.
  unfold eventHeader. cbv zeta. split.
  - destruct (9 <=? String.length line)%nat eqn:Hlen; [|discriminate].
    destruct (strings.HasPrefix line "=== ") eqn:Hp; [|discriminate].
    destruct (strings.HasSuffix line " ===") eqn:Hs; [|discriminate].
    cbn [andb]. destruct (hasNewline _) eqn:Hn; [discriminate|]. intros [= <-].
    apply Nat.leb_le in Hlen. apply HasSuffix_spec in Hs as [p Hs]. subst line.
    rewrite length_append in Hlen. cbn [String.length] in Hlen.
    destruct p as [|a [|b [|c [|d t]]]]; cbn [String.length] in Hlen; try lia.
    rewrite !append_cons in Hp. cbn [strings.HasPrefix] in Hp.
    repeat (apply andb_true_iff in Hp as [?%Ascii.eqb_eq Hp]). subst a b c d.
    change (String "=" (String "=" (String "=" (String " " t))) +:+ " ===")
      with ("=== " +:+ t +:+ " ===") in *.
    rewrite header_title in *. split; [reflexivity|]. split; [|exact Hn].
    intros ->. cbn in Hlen. lia.
  - intros (-> & Ht & Hn). rewrite header_title, Hn.
    assert (Hlen : (9 <=? String.length ("=== " +:+ title +:+ " ==="))%nat = true).
    { apply Nat.leb_le. rewrite !length_append. cbn [String.length].
      destruct title; [contradiction|]. cbn [String.length]. lia. }
    assert (Hs : strings.HasSuffix ("=== " +:+ title +:+ " ===") " ===" = true).
    { apply HasSuffix_spec. exists ("=== " +:+ title). now rewrite append_assoc. }
    assert (Hp : strings.HasPrefix ("=== " +:+ title +:+ " ===") "=== " = true).
    { change ("=== " +:+ title +:+ " ===")
        with (String "=" (String "=" (String "=" (String " " (title +:+ " ==="))))).
      cbn [strings.HasPrefix]. destruct (title +:+ " ==="); reflexivity. }
    rewrite Hlen, Hs, Hp. reflexivity.
Qed.

(** X13: a line is taken for an event header exactly when it is
    [=== title ===] with a non-empty title, and for a field exactly when it
    is [key: value] with a non-empty key that holds no colon and a
    non-empty value (title and value free of line feeds): the key ends at
    the first colon of the line, and the value may hold colons. *)
Theorem header_and_field_lines_are_what_the_patterns_match (line : string) :
  (forall title,
     eventHeader line = Some title
     <-> line = "=== " +:+ title +:+ " ===" /\ title <> "" /\ hasNewline title = false)
  /\ (forall key value,
        keyValue line = Some (key, value)
        <-> line = key +:+ ": " +:+ value
            /\ key <> "" /\ strings.Contains key ":" = false
            /\ value <> "" /\ hasNewline value = false).
Proof. split; intros; [apply eventHeader_spec|apply keyValue_spec]. Qed.

(** *** [filepath.Base] *)

Lemma rev_app_spec (s : string) : forall acc, String.rev_app s acc = String.rev s +:+ acc.
Proof.
  unfold String.rev. induction s as [|c s IH]; intros acc; cbn [String.rev_app]; [reflexivity|].
  rewrite (IH (String c acc)), (IH (String c "")), append_assoc. reflexivity.
Qed.

Lemma rev_cons (c : ascii) (s : string) : String.rev (String c s) = String.rev s +:+ String c "".
Proof. unfold String.rev at 1. cbn [String.rev_app]. apply rev_app_spec. Qed.

Lemma rev_append (a b : string) : String.rev (a +:+ b) = String.rev b +:+ String.rev a.
Proof.
  induction a as [|c a IH].
  - rewrite append_nil. change (String.rev "") with "". now rewrite append_nil_r.
  - rewrite append_cons, !rev_cons, IH, append_assoc. reflexivity.
Qed.

Lemma rev_involutive (s : string) : String.rev (String.rev s) = s.
Proof.
  induction s as [|c s IH]; [reflexivity|].
  rewrite rev_cons, rev_append, IH. reflexivity.
Qed.

Lemma Contains_byte_append (c : ascii) (a b : string) :
  strings.Contains (a +:+ b) (String c "")
  = strings.Contains a (String c "") || strings.Contains b (String c "").
Proof.
  induction a as [|x a IH]; [reflexivity|].
  rewrite append_cons, !Contains_byte, IH, orb_assoc. reflexivity.
Qed.

Lemma Contains_byte_rev (c : ascii) (s : string) :
  strings.Contains (String.rev s) (String c "") = strings.Contains s (String c "").
Proof.
  induction s as [|x s IH]; [reflexivity|].
  rewrite rev_cons, Contains_byte_append, IH, !Contains_byte, Contains_byte_nil.
  rewrite orb_false_r. apply orb_comm.
Qed.

Lemma takeElement_append (name rest : string) :
  strings.Contains name "/" = false ->
  filepath.takeElement (name +:+ String "/" rest) = name.
Proof.
  induction name as [|c name IH]; intros H.
  - reflexivity.
  - rewrite Contains_byte in H. apply orb_false_iff in H as [Hc H].
    rewrite append_cons. cbn [filepath.takeElement]. unfold filepath.isSlash.
    rewrite Ascii.eqb_sym, Hc, IH by exact H. reflexivity.
Qed.

Lemma takeElement_whole (name : string) :
  strings.Contains name "/" = false -> filepath.takeElement name = name.
Proof.
  induction name as [|c name IH]; intros H; [reflexivity|].
  rewrite Contains_byte in H. apply orb_false_iff in H as [Hc H].
  cbn [filepath.takeElement]. unfold filepath.isSlash.
  rewrite Ascii.eqb_sym, Hc, IH by exact H. reflexivity.
Qed.

Lemma dropSlashes_element (name rest : string) :
  name <> "" -> strings.Contains name "/" = false ->
  filepath.dropSlashes (name +:+ rest) = name +:+ rest.
Proof.
  destruct name as [|c name]; [contradiction|]. intros _ H.
  rewrite Contains_byte in H. apply orb_false_iff in H as [Hc _].
  rewrite append_cons. cbn [filepath.dropSlashes]. unfold filepath.isSlash.
  rewrite Ascii.eqb_sym, Hc. reflexivity.
Qed.

Lemma rev_nonempty (s : string) : s <> "" -> String.rev s <> "".
Proof. intros H E. apply H. rewrite <- (rev_involutive s), E. reflexivity. Qed.

Lemma append_nonempty (a b : string) : b <> "" -> a +:+ b <> "".
Proof. destruct a; [rewrite append_nil; auto|rewrite append_cons; discriminate]. Qed.

(** X14: [filepath.Base] never returns the empty string, and for a
    non-empty name without a slash it returns the name, both for the bare
    name and for the name behind a directory. *)
Theorem base_is_the_file_name (path dir name : string) :
  filepath.Base path <> ""
  /\ (name <> "" -> strings.Contains name "/" = false ->
      filepath.Base name = name
      /\ filepath.Base (dir +:+ "/" +:+ name) = name).
Proof.
  split.
  - unfold filepath.Base. destruct (String.eqb path ""); [discriminate|]. cbv zeta.
    destruct (String.eqb_spec (String.rev (filepath.takeElement
                (filepath.dropSlashes (String.rev path)))) "") as [|H];
      [discriminate|exact H].
  - intros Hn Hs.
    assert (Hrn : String.rev name <> "") by (apply rev_nonempty, Hn).
    assert (Hrs : strings.Contains (String.rev name) "/" = false)
      by (rewrite Contains_byte_rev; exact Hs).
    unfold filepath.Base. split.
    + destruct (String.eqb_spec name "") as [|_]; [contradiction|]. cbv zeta.
      pose proof (dropSlashes_element (String.rev name) "" Hrn Hrs) as Hd.
      rewrite append_nil_r in Hd.
      rewrite Hd, takeElement_whole, rev_involutive by exact Hrs.
      destruct (String.eqb_spec name "") as [|_]; [contradiction|]. reflexivity.
    + destruct (String.eqb_spec (dir +:+ "/" +:+ name) "") as [E|_].
      { exfalso. revert E. apply append_nonempty, append_nonempty, Hn. }
      cbv zeta. rewrite !rev_append, append_assoc.
      change (String.rev "/") with "/".
      rewrite dropSlashes_element by assumption.
      change ("/" +:+ String.rev dir) with (String "/" (String.rev dir)).
      rewrite takeElement_append, rev_involutive by exact Hrs.
      destruct (String.eqb_spec name "") as [|_]; [contradiction|]. reflexivity.
Qed.

Lemma base_is_the_file_name_witness :
  filepath.Base "mysql-bin.000001" = "mysql-bin.000001"
  /\ filepath.Base ("/var/lib/mysql" +:+ "/" +:+ "mysql-bin.000001") = "mysql-bin.000001".
Proof.
  refine (proj2 (base_is_the_file_name "" "/var/lib/mysql" "mysql-bin.000001") _ _).
  - discriminate.
  - reflexivity.
Defined.

(** ** The exit status of the comparator *)

Lemma rp_stdout_last index lines :
  exists findings,
    rp_stdout (compareAvroWithBinlog index lines)
    = findings ++ [CONCLUSION (verdict (compareAvroWithBinlog index lines))].
Proof.
  unfold compareAvroWithBinlog. cbv zeta. destruct (unmatched _ _ _) as [b out].
  cbn [rp_stdout verdict]. eexists. reflexivity.
Qed.

(** X15: [main] of the comparator exits with status 0 and no failure
    message, or with status 1 and a failure message; the status is 0 exactly
    when it is given two arguments and both files open and are read to
    their end, and then standard output is the three progress lines, the
    findings, the conclusion, whichever it is, and the closing line. *)
Theorem exit_status_ignores_the_verdict
    (binlogFile : string -> option (scanned (option (gmap string iface))))
    (avroFile : string -> option (scanned (option AvroRecord.t)))
    (args : list string) :
  let r := comparator.main binlogFile avroFile args in
  (r_exit r = 0 /\ r_failure r = None \/ r_exit r = 1 /\ r_failure r <> None)
  /\ (r_exit r = 0 <->
      exists program binlogPath avroPath f g,
        args = [program; binlogPath; avroPath]
        /\ binlogFile binlogPath = Some f /\ sc_err f = false
        /\ avroFile avroPath = Some g /\ sc_err g = false
        /\ exists findings,
             r_stdout r
             = LoadingBinlog binlogPath
               :: LoadedEvents (Z.of_nat (size (binlogEvents (loadBinlogData (sc_lines f)))))
               :: LoadingAvro avroPath
               :: map Found findings
               ++ [Found (CONCLUSION
                            (verdict (compareAvroWithBinlog
                                        (binlogEvents (loadBinlogData (sc_lines f)))
                                        (sc_lines g))));
                   ComparisonComplete]).
Proof.
  cbv zeta. unfold comparator.main.
  assert (Hno : forall (P : Prop) x o d,
            (r_exit (mkRun 1 x (Some o) d) = 0 /\ r_failure (mkRun 1 x (Some o) d) = None
             \/ r_exit (mkRun 1 x (Some o) d) = 1 /\ r_failure (mkRun 1 x (Some o) d) <> None)
            /\ (r_exit (mkRun 1 x (Some o) d) = 0 <-> P) <-> ~ P).
  { intros P x o d. cbn. split.
    - intros [_ [_ H]] HP. apply H in HP. discriminate.
    - intros HP. split; [right; split; [reflexivity|discriminate]|].
      split; [discriminate|]. intros H. destruct (HP H). }
  destruct args as [|program [|binlogPath [|avroPath [|extra args]]]];
    try (apply Hno; intros (? & ? & ? & ? & ? & [=] & _)).
  destruct (binlogFile binlogPath) as [f|] eqn:Ef;
    [|apply Hno; intros (? & ? & ? & ? & ? & [= <- <- <-] & ? & _); congruence].
  destruct (sc_err f) eqn:Eferr;
    [apply Hno; intros (? & ? & ? & ? & ? & [= <- <- <-] & ? & ? & _); congruence|].
  destruct (avroFile avroPath) as [g|] eqn:Eg;
    [|apply Hno; intros (? & ? & ? & ? & ? & [= <- <- <-] & ? & ? & ? & _); congruence].
  destruct (sc_err g) eqn:Egerr;
    [apply Hno; intros (? & ? & ? & ? & ? & [= <- <- <-] & ? & ? & ? & ? & _); congruence|].
  cbn [r_exit r_failure r_stdout]. split; [left; split; reflexivity|].
  split; [intros _|reflexivity].
  exists program, binlogPath, avroPath, f, g. repeat (split; [assumption || reflexivity|]).
  destruct (rp_stdout_last (binlogEvents (loadBinlogData (sc_lines f))) (sc_lines g))
    as [findings Hf].
  exists findings. rewrite Hf, map_app. cbn [map app]. rewrite <- app_assoc. reflexivity.
Qed.

(** ** Commit timestamps between the normalizer and the comparison *)

Lemma LastIndex_absent (sep : ascii) (s : string) :
  strings.Contains s (String sep "") = false -> strings.LastIndex s sep = -1.
Proof.
  induction s as [|c s IH]; intros H; [reflexivity|].
  rewrite Contains_byte in H. apply orb_false_iff in H as [Hc H].
  cbn [strings.LastIndex]. rewrite (IH H). cbn.
  rewrite Ascii.eqb_sym, Hc. reflexivity.
Qed.

Lemma LastIndex_nonneg_append (sep : ascii) (a b : string) :
  0 <= strings.LastIndex b sep ->
  strings.LastIndex (a +:+ b) sep = Z.of_nat (String.length a) + strings.LastIndex b sep.
Proof.
  intros Hb. induction a as [|c a IH]; [rewrite append_nil; cbn; lia|].
  rewrite append_cons. cbn [strings.LastIndex String.length]. rewrite IH.
  destruct (Z.leb_spec 0 (Z.of_nat (String.length a) + strings.LastIndex b sep)); lia.
Qed.

Lemma LastIndex_last (sep : ascii) (a b : string) :
  strings.Contains b (String sep "") = false ->
  strings.LastIndex (a +:+ String sep b) sep = Z.of_nat (String.length a).
Proof.
  intros H.
  assert (H0 : strings.LastIndex (String sep b) sep = 0).
  { cbn [strings.LastIndex]. rewrite (LastIndex_absent _ _ H). cbn.
    rewrite Ascii.eqb_refl. reflexivity. }
  rewrite LastIndex_nonneg_append; lia.
Qed.

Lemma substring_skip (p s : string) (n : nat) :
  substring (String.length p) n (p +:+ s) = substring 0 n s.
Proof. induction p as [|c p IH]; [reflexivity|]. rewrite append_cons. exact IH. Qed.

Lemma extractedTimestamp_spec (prefix ts : string) :
  strings.Contains ts "(" = false ->
  extractedTimestamp (prefix +:+ "(" +:+ ts +:+ ")") = ts.
Proof.
  intros H. unfold extractedTimestamp. cbv zeta.
  change (prefix +:+ "(" +:+ ts +:+ ")") with (prefix +:+ String "(" (ts +:+ ")")).
  rewrite LastIndex_last
    by (rewrite Contains_byte_append, H; reflexivity).
  replace (Z.to_nat (Z.of_nat (String.length prefix) + 1))
    with (String.length (prefix +:+ "(")) by (rewrite length_append; cbn; lia).
  replace (prefix +:+ String "(" (ts +:+ ")")) with ((prefix +:+ "(") +:+ (ts +:+ ")"))
    by (rewrite append_assoc; reflexivity).
  rewrite substring_skip, !length_append. cbn [String.length].
  replace (String.length prefix + 1 + (String.length ts + 1) - 1
           - (String.length prefix + 1))%nat with (String.length ts) by lia.
  apply substring_app_l.
Qed.

(** X16: when the value of [Immediate commmit timestamp] ends in a
    parenthesised text that ends in [Z], holds no opening parenthesis and
    parses as RFC 3339 with nanoseconds, the field switch stores exactly
    that text under [immediate_commmit_timestamp] without a warning, and the
    comparison parses the commit timestamp of an event that carries it to
    the same instant. *)
Theorem commit_timestamp_in_parentheses_is_stored_and_parses
    (reencodeHighPrecision : string -> option string)
    (currentEvent : gmap string field) (prefix ts : string) (t : time.Time) :
  strings.Contains ts "(" = false ->
  strings.HasSuffix ts "Z" = true ->
  time.Parse time.RFC3339Nano ts = Some t ->
  setField reencodeHighPrecision currentEvent "Immediate commmit timestamp"
    (prefix +:+ "(" +:+ ts +:+ ")")
  = (<["immediate_commmit_timestamp" := FString ts]> currentEvent, [])
  /\ forall binlogEvt,
       BinlogEvent.ImmediateCommmitTimestamp binlogEvt = ts ->
       parseBinlogTime binlogEvt = Some t.
Proof.
  intros Hno Hz Hp. split.
  - unfold setField. cbv zeta.
    change (String.eqb "Immediate commmit timestamp" "Date") with false.
    change (String.eqb "Immediate commmit timestamp" "Log position") with false.
    change (existsb (String.eqb "Immediate commmit timestamp") knownFields) with false.
    change (String.eqb "Immediate commmit timestamp" "Immediate commmit timestamp"
            || String.eqb "Immediate commmit timestamp" "Orignal commmit timestamp")
      with true.
    cbv iota.
    assert (Hc : strings.Contains (prefix +:+ "(" +:+ ts +:+ ")") "(" = true).
    { rewrite Contains_byte_append.
      change ("(" +:+ ts +:+ ")") with (String "(" (ts +:+ ")")).
      rewrite Contains_byte, Ascii.eqb_refl. apply orb_true_r. }
    assert (Hs : strings.HasSuffix (prefix +:+ "(" +:+ ts +:+ ")") "Z)" = true).
    { apply HasSuffix_spec in Hz as [p ->]. apply HasSuffix_spec.
      exists (prefix +:+ "(" +:+ p). rewrite !append_assoc. reflexivity. }
    rewrite Hc, Hs. cbn [andb]. rewrite (extractedTimestamp_spec _ _ Hno), Hp.
    reflexivity.
  - intros binlogEvt E. unfold parseBinlogTime. rewrite E.
    destruct (String.eqb_spec ts "") as [->|_]; [discriminate Hz|]. exact Hp.
Qed.

Lemma commit_timestamp_in_parentheses_is_stored_and_parses_witness :
  setField (fun _ => None) ∅ "Immediate commmit timestamp"
    ("1704067200123456 (2024-01-01T00:00:00.123456Z)")
  = (<["immediate_commmit_timestamp" := FString "2024-01-01T00:00:00.123456Z"]> ∅, []).
Proof.
  exact (proj1 (commit_timestamp_in_parentheses_is_stored_and_parses (fun _ => None) ∅
    "1704067200123456 " "2024-01-01T00:00:00.123456Z"
    (time.mkTime 63839664000 123456000) eq_refl eq_refl eq_refl)).
Defined.
